(** * A raffle bot with Stars payments: round lifecycle and payment
      reconciliation

    Shallow embedding of [bot.py] and proofs about its handlers.

    - Strings are sequences of Unicode code points, and [str.isdigit],
      [str.strip], [int] and [str] are modelled after CPython 3.11, since the
      admission handler depends on what they accept.
    - The four in-memory tables are finite maps keyed by strings, with the
      value types the source annotates and writes: an entry is
      [{username, choice}], a pending record is
      [{chat_id, user_id, username, choice}], a snapshot is
      [{result, winners}].  The inner dictionary of a chat is an
      insertion-ordered association list: its iteration order is the order
      of the winners.
    - A handler is a computation in a state-and-exception monad over the
      tables, the outcomes of the send calls still to come, the trace of the
      effects issued so far and the list of tasks given to
      [asyncio.create_task].  Every platform call can raise.  Writing a file
      is an effect of the trace: [save_json_file] swallows its own errors, and
      the file system is not modelled further.
    - A handler is one atomic run: the interleaving of other handlers and
      tasks at its [await] points is outside the model, and a created task
      is run separately ([run_task]).
    - Of [main], the first start ([load_all_data] with no file there), the
      handlers it registers and the tasks they create are modelled: the
      process runs any registered handler on any update whose chat the
      platform could have sent, or a task that waits, one at a time.  The
      filters of the platform library, which only narrow the updates a
      handler gets, are not modelled. *)

From Stdlib Require Import ZArith NArith List Bool String Ascii Lia.
From Stdlib Require Import DecimalString.
From Stdlib Require DecimalPos.
From stdpp Require Import base option list gmap fin_maps.

Local Open Scope Z_scope.

(** ** The Python built-ins the handlers rely on *)

Module Py.

(** A Python [str] is a sequence of Unicode code points. *)
Abbreviation str := (list N).

(** An ASCII literal of the source as a [str]. *)
Definition lit (s : string) : str := map N_of_ascii (list_ascii_of_string s).

(** Truthiness of a [str]: only the empty string is falsy. *)
Definition truthy (s : str) : bool :=
  match s with [] => false | _ :: _ => true end.

(** Character classes, as ranges of code points (Unicode 14.0.0, the
    database of CPython 3.11). *)
Definition in_ranges (t : list (N * N)) (c : N) : bool :=
  existsb (fun r => (fst r <=? c)%N && (c <=? snd r)%N) t.

(** Characters with [Numeric_Type=Decimal]: every range is a run of blocks
    [0..9]. *)
Definition decimal_ranges : list (N * N) :=
  [ (48, 57); (1632, 1641); (1776, 1785); (1984, 1993); (2406, 2415);
    (2534, 2543); (2662, 2671); (2790, 2799); (2918, 2927); (3046, 3055);
    (3174, 3183); (3302, 3311); (3430, 3439); (3558, 3567); (3664, 3673);
    (3792, 3801); (3872, 3881); (4160, 4169); (4240, 4249); (6112, 6121);
    (6160, 6169); (6470, 6479); (6608, 6617); (6784, 6793); (6800, 6809);
    (6992, 7001); (7088, 7097); (7232, 7241); (7248, 7257); (42528, 42537);
    (43216, 43225); (43264, 43273); (43472, 43481); (43504, 43513);
    (43600, 43609); (44016, 44025); (65296, 65305); (66720, 66729);
    (68912, 68921); (69734, 69743); (69872, 69881); (69942, 69951);
    (70096, 70105); (70384, 70393); (70736, 70745); (70864, 70873);
    (71248, 71257); (71360, 71369); (71472, 71481); (71904, 71913);
    (72016, 72025); (72784, 72793); (73040, 73049); (73120, 73129);
    (92768, 92777); (92864, 92873); (93008, 93017); (120782, 120831);
    (123200, 123209); (123632, 123641); (125264, 125273); (130032, 130041)
  ]%N.

(** Characters with [Numeric_Type=Digit] that are not decimal: superscripts,
    subscripts, circled and parenthesised digits and the like. *)
Definition digit_only_ranges : list (N * N) :=
  [ (178, 179); (185, 185); (4969, 4977); (6618, 6618); (8304, 8304);
    (8308, 8313); (8320, 8329); (9312, 9320); (9332, 9340); (9352, 9360);
    (9450, 9450); (9461, 9469); (9471, 9471); (10102, 10110); (10112, 10120);
    (10122, 10130); (68160, 68163); (69216, 69224); (69714, 69722);
    (127232, 127242) ]%N.

(** Whitespace in the sense of [str.isspace] and [str.strip]. *)
Definition space_ranges : list (N * N) :=
  [ (9, 13); (28, 32); (133, 133); (160, 160); (5760, 5760); (8192, 8202);
    (8232, 8233); (8239, 8239); (8287, 8287); (12288, 12288) ]%N.

Definition isdecimal_char (c : N) : bool := in_ranges decimal_ranges c.
Definition isdigit_char (c : N) : bool :=
  isdecimal_char c || in_ranges digit_only_ranges c.
Definition isspace_char (c : N) : bool := in_ranges space_ranges c.

(** The value of a decimal character, [None] for any other character. *)
Definition decimal_value (c : N) : option N :=
  match find (fun r => (fst r <=? c)%N && (c <=? snd r)%N) decimal_ranges with
  | Some r => Some ((c - fst r) mod 10)%N
  | None => None
  end.

(** [str.isdigit()]: non-empty and every character is a digit. *)
Definition isdigit (s : str) : bool :=
  match s with [] => false | _ :: _ => forallb isdigit_char s end.

(** [str.strip()] with no argument. *)
Fixpoint lstrip (s : str) : str :=
  match s with
  | [] => []
  | c :: r => if isspace_char c then lstrip r else s
  end.
Definition rstrip (s : str) : str := rev (lstrip (rev s)).
Definition strip (s : str) : str := rstrip (lstrip s).

(** [int(s)] for a [str] in base 10, after CPython: the string is first
    transliterated to ASCII (decimal characters to [0..9], non-ASCII
    whitespace to a space, anything else non-ASCII to [?], where the
    transliteration stops), then read as: whitespace, an optional sign,
    digits with single underscores between them, whitespace.  [None] stands
    for [ValueError]. *)
Fixpoint to_ascii (s : str) : list N :=
  match s with
  | [] => []
  | c :: r =>
      if (c <? 127)%N then c :: to_ascii r
      else if isspace_char c then 32%N :: to_ascii r
      else match decimal_value c with
           | Some d => (48 + d)%N :: to_ascii r
           | None => [63%N]
           end
  end.

Definition c_isspace (c : N) : bool :=
  (c =? 32)%N || ((9 <=? c)%N && (c <=? 13)%N).

Fixpoint skip_space (l : list N) : list N :=
  match l with
  | [] => []
  | c :: r => if c_isspace c then skip_space r else l
  end.

Definition ascii_digit (c : N) : option N :=
  if (48 <=? c)%N && (c <=? 57)%N then Some (c - 48)%N else None.

(** The digits of the literal: the value read so far, the number of digits
    and whether the previous character was an underscore.  Returns the
    value, the number of digits and the unread rest. *)
Fixpoint scan_digits (l : list N) (acc : N) (cnt : nat) (prev_us : bool)
  : option (N * nat * list N) :=
  match l with
  | [] => if prev_us then None else Some (acc, cnt, [])
  | c :: r =>
      if (c =? 95)%N then
        if prev_us then None else scan_digits r acc cnt true
      else
        match ascii_digit c with
        | Some d => scan_digits r (10 * acc + d)%N (S cnt) false
        | None => if prev_us then None else Some (acc, cnt, l)
        end
  end.

(** [sys.int_info.default_max_str_digits]. *)
Definition max_str_digits : nat := 4300.

Definition int_of_ascii (l : list N) : option Z :=
  let l := skip_space l in
  let '(neg, l) :=
    match l with
    | c :: r =>
        if (c =? 43)%N then (false, r)
        else if (c =? 45)%N then (true, r)
        else (false, l)
    | [] => (false, l)
    end in
  let leading_underscore :=
    match l with
    | c :: _ => (c =? 95)%N
    | [] => false
    end in
  if leading_underscore then None
  else
    match scan_digits l 0%N 0%nat false with
    | None => None
    | Some (v, cnt, rest) =>
        if (cnt =? 0)%nat then None
        else if (max_str_digits <? cnt)%nat then None
        else
          match skip_space rest with
          | [] => Some (if neg then - Z.of_N v else Z.of_N v)
          | _ :: _ => None
          end
    end.

Definition int (s : str) : option Z := int_of_ascii (to_ascii s).

(** [str(n)] for an [int]. *)
Definition str_of_int (n : Z) : str :=
  lit (NilZero.string_of_int (Z.to_int n)).

(** [random.randint(a, b)], as a function of the generator's next output. *)
Definition randint (a b : Z) (entropy : N) : Z :=
  a + Z.of_N entropy mod (b - a + 1).

End Py.

Import Py.

(** ** Data model *)

(** [players[ck][uk]]: one confirmed entry. *)
Record entry := { username : str; choice : Z }.

(** [pending[payload]]: one pending payment. *)
Record pending_record := {
  chat_id : str;
  user_id : str;
  pending_username : str;
  pending_choice : Z
}.

(** [last_round[ck]]. *)
Record snapshot := { result : Z; winners : list str }.

(** A value read from [config.json]; what is neither an integer nor a
    boolean is never used by the program. *)
Inductive jval := JInt (n : Z) | JBool (b : bool) | JOther.

(** A Python [dict] whose iteration order matters: keys in insertion
    order, each key once. *)
Section Dict.
Context {V : Type}.

Fixpoint dict_get (k : str) (d : list (str * V)) : option V :=
  match d with
  | [] => None
  | (k', v) :: r => if decide (k' = k) then Some v else dict_get k r
  end.

(** [d[k] = v]: an existing key keeps its place, a new key goes last. *)
Fixpoint dict_set (k : str) (v : V) (d : list (str * V)) : list (str * V) :=
  match d with
  | [] => [(k, v)]
  | (k', v') :: r =>
      if decide (k' = k) then (k, v) :: r else (k', v') :: dict_set k v r
  end.

Definition dict_values (d : list (str * V)) : list V := map snd d.
Definition dict_keys (d : list (str * V)) : list str := map fst d.
End Dict.

(** The types of the four tables. *)
Abbreviation players_table := (gmap str (list (str * entry))).
Abbreviation pending_table := (gmap str pending_record).
Abbreviation config_table := (gmap str (gmap str jval)).
Abbreviation last_round_table := (gmap str snapshot).

(** The four in-memory tables. *)
Record tables := {
  players : players_table;
  pending : pending_table;
  config : config_table;
  last_round : last_round_table
}.

Definition with_players (f : players_table → players_table) (t : tables)
  : tables :=
  {| players := f (players t); pending := pending t;
     config := config t; last_round := last_round t |}.
Definition with_pending (f : pending_table → pending_table) (t : tables)
  : tables :=
  {| players := players t; pending := f (pending t);
     config := config t; last_round := last_round t |}.
Definition with_config (f : config_table → config_table) (t : tables)
  : tables :=
  {| players := players t; pending := pending t;
     config := f (config t); last_round := last_round t |}.
Definition with_last_round (f : last_round_table → last_round_table)
    (t : tables) : tables :=
  {| players := players t; pending := pending t;
     config := config t; last_round := f (last_round t) |}.

(** What [load_json_file] returns for the four files: [None] when the file
    is missing or cannot be read, or when it holds no JSON object. *)
Record files := {
  players_json : option players_table;
  pending_json : option pending_table;
  config_json : option config_table;
  last_round_json : option last_round_table
}.

(** ** The platform *)

Inductive chat_kind := Private | Group | Supergroup | Channel.

Record chat := { chat_type : chat_kind; chat_ident : Z }.

Record user := {
  user_ident : Z;
  first_name : str;
  user_username : option str
}.

(** What a handler reads of an update: the chat, the sender, the text of
    the message, the arguments of a command, the payload of a successful
    payment and whether the update is a pre-checkout query. *)
Record update := {
  effective_chat : option chat;
  effective_user : user;
  text : option str;
  args : list str;
  successful_payment : option str;
  pre_checkout_query : bool
}.

Inductive member_status :=
  Creator | Administrator | Member | Restricted | Left | Kicked.

(** The exceptions a handler can meet; all of them are [Exception]s. *)
Inductive exn := TelegramError | ValueError | KeyError | AttributeError.

(** The commands with a group-only refusal. *)
Inductive command := CmdStatus | CmdReset | CmdSetlimit | CmdForcestart.

(** The texts the bot sends, by their template and the values put in. *)
Inductive message :=
  | MsgStart
  | MsgGroupOnly (c : command)
  | MsgStatus (cnt : nat) (maxp : Z)
  | MsgAdminOnly (c : command)
  | MsgRoundReset
  | MsgCurrentLimit (cur : Z)
  | MsgLimitUsage
  | MsgLimitChanged (n : Z)
  | MsgForceStart (cnt : nat)
  | MsgNoChat
  | MsgNoLastRound
  | MsgLastWinners (res : Z) (ws : list str)
  | MsgLastNobody (res : Z)
  | MsgNeedUsername (name : str)
  | MsgAlreadyIn (name : str)
  | MsgInvoiceSent (u : Z)
  | MsgInvoiceFailed (name : str)
  | MsgNoRoundFound
  | MsgPaymentAccepted (c : Z)
  | MsgRegistered (uname : str) (cnt : nat) (maxp : Z)
  | MsgRoundWinners (res : Z) (ws : list str) (prize : Z)
  | MsgRoundNobody (res : Z)
  | MsgRoundError (e : exn).

Inductive request :=
  | ReplyText (m : message)
  | SendMessage (to : Z) (m : message)
  | SendInvoice (to : Z) (payload : str) (c : Z) (amount : Z)
  | SendDice (to : Z)
  | GetChatMember (c u : Z)
  | AnswerPreCheckout (ok : bool).

(** A file and the table it is rewritten with. *)
Inductive table_image :=
  | PlayersFile (d : players_table)
  | PendingFile (d : pending_table)
  | ConfigFile (d : config_table)
  | LastRoundFile (d : last_round_table).

Inductive log_level := LogWarning | LogException.

(** What a run does to the outside, in order: a platform call with the
    exception it raised if any, a file rewritten with a table, a log line. *)
Inductive effect :=
  | Call (r : request) (raised : option exn)
  | Save (img : table_image)
  | Log (l : log_level).

(** A task handed to [asyncio.create_task]. *)
Inductive task := ExecuteRound (c : Z).

(** The message [send_dice] returns: [msg.dice] and [msg.dice.value]. *)
Record dice_message := { dice : option (option Z) }.

(** What the platform and the process answer during one run. *)
Record platform := {
  dice_reply : exn + dice_message;
  member_reply : exn + member_status;
  uuid_hex : str;
  entropy : N
}.

(** The process settings read from the environment at start. *)
Record settings := {
  DEFAULT_MAX_PLAYERS : Z;
  PRICE_STARS : Z;
  PRIZE_STARS : Z;
  AMOUNT_MULTIPLIER : Z
}.

(** ** Runs of a handler *)

Inductive outcome (A : Type) := Ret (a : A) | Raise (e : exn).
Arguments Ret {A} a.
Arguments Raise {A} e.

(** The state of a run: the tables, the outcomes of the send calls still to
    come ([None]: delivered; [Some e]: the call raises [e]; past the end of
    the list every call is delivered), the effects so far, oldest first,
    and the tasks created so far. *)
Record run := {
  mem : tables;
  sends : list (option exn);
  trace : list effect;
  spawned : list task
}.

Definition M (A : Type) : Type := run → outcome A * run.

#[export] Instance M_ret : MRet M := λ A a r, (Ret a, r).
#[export] Instance M_bind : MBind M := λ A B k m r,
  match m r with
  | (Ret a, r') => k a r'
  | (Raise e, r') => (Raise e, r')
  end.

Definition raise {A} (e : exn) : M A := λ r, (Raise e, r).

(** [try: m except Exception as e: h e]; what [m] did before it raised
    stays done. *)
Definition try_except {A} (m : M A) (h : exn → M A) : M A := λ r,
  match m r with
  | (Ret a, r') => (Ret a, r')
  | (Raise e, r') => h e r'
  end.

(** [try: m finally: fin]. *)
Definition try_finally {A} (m : M A) (fin : M unit) : M A := λ r,
  let '(o, r') := m r in
  match fin r' with
  | (Ret _, r'') => (o, r'')
  | (Raise e, r'') => (Raise e, r'')
  end.

Definition get_mem : M tables := λ r, (Ret (mem r), r).

Definition modify (f : tables → tables) : M unit := λ r,
  (Ret (), {| mem := f (mem r); sends := sends r;
              trace := trace r; spawned := spawned r |}).

Definition emit (e : effect) : M unit := λ r,
  (Ret (), {| mem := mem r; sends := sends r;
              trace := trace r ++ [e]; spawned := spawned r |}).

Definition create_task (k : task) : M unit := λ r,
  (Ret (), {| mem := mem r; sends := sends r;
              trace := trace r; spawned := spawned r ++ [k] |}).

(** A send call ([reply_text], [send_message], [send_invoice],
    [query.answer]): it takes the next outcome. *)
Definition send (rq : request) : M unit := λ r,
  let o := hd None (sends r) in
  let r' := {| mem := mem r; sends := tl (sends r);
               trace := trace r ++ [Call rq o]; spawned := spawned r |} in
  match o with
  | None => (Ret (), r')
  | Some e => (Raise e, r')
  end.

Definition reply_text (m : message) : M unit := send (ReplyText m).
Definition send_message (to : Z) (m : message) : M unit :=
  send (SendMessage to m).

Definition send_dice (pf : platform) (to : Z) : M dice_message :=
  match dice_reply pf with
  | inl e => emit (Call (SendDice to) (Some e));; raise e
  | inr m => emit (Call (SendDice to) None);; mret m
  end.

Definition get_chat_member (pf : platform) (c u : Z) : M member_status :=
  match member_reply pf with
  | inl e => emit (Call (GetChatMember c u) (Some e));; raise e
  | inr m => emit (Call (GetChatMember c u) None);; mret m
  end.

(** [int(s)] inside a handler. *)
Definition int_or_raise (s : str) : M Z :=
  match Py.int s with
  | Some n => mret n
  | None => raise ValueError
  end.

(** A run from given tables with given outcomes of the send calls. *)
Definition start (t : tables) (outs : list (option exn)) : run :=
  {| mem := t; sends := outs; trace := []; spawned := [] |}.

Definition exec {A} (m : M A) (t : tables) (outs : list (option exn))
  : outcome A * run := m (start t outs).

(** ** The program *)

Section Bot.

Variable env : settings.

(** *** Persistence *)

Definition save_json_file (img : table_image) : M unit := emit (Save img).

Definition save_all_data : M unit :=
  t ← get_mem;
  save_json_file (PlayersFile (players t));;
  save_json_file (PendingFile (pending t));;
  save_json_file (ConfigFile (config t));;
  save_json_file (LastRoundFile (last_round t)).

(** [load_all_data]: a table starts as the object read from its file, and
    empty when the file is missing, unreadable or holds no object. *)
Definition load_all_data (f : files) : tables :=
  {| players := default ∅ (players_json f);
     pending := default ∅ (pending_json f);
     config := default ∅ (config_json f);
     last_round := default ∅ (last_round_json f) |}.

(** *** Helpers *)

Definition chat_key (chat_id : Z) : str := str_of_int chat_id.
Definition user_key (user_id : Z) : str := str_of_int user_id.

Definition max_players_key : str := lit "max_players".

(** [isinstance(v, int)] holds of integers and of booleans. *)
Definition get_max_players_for_chat (t : tables) (ck : str) : Z :=
  match config t !! ck with
  | Some c =>
      match c !! max_players_key with
      | Some (JInt n) => n
      | Some (JBool b) => Z.b2z b
      | _ => DEFAULT_MAX_PLAYERS env
      end
  | None => DEFAULT_MAX_PLAYERS env
  end.

Definition set_max_players_for_chat (ck : str) (new_limit : Z) : M unit :=
  modify (with_config (λ cfg,
    <[ck := <[max_players_key := JInt new_limit]> (default ∅ (cfg !! ck))]>
      cfg));;
  t ← get_mem;
  save_json_file (ConfigFile (config t)).

Definition is_admin_status (s : member_status) : bool :=
  match s with
  | Administrator | Creator => true
  | _ => false
  end.

Definition is_user_admin (pf : platform) (c u : Z) : M bool :=
  try_except
    (member ← get_chat_member pf c u; mret (is_admin_status member))
    (λ _, mret false).

(** [update.effective_chat.type], an [AttributeError] without a chat. *)
Definition the_chat (upd : update) : M chat :=
  match effective_chat upd with
  | Some c => mret c
  | None => raise AttributeError
  end.

Definition in_group (c : chat) : bool :=
  match chat_type c with
  | Group | Supergroup => true
  | _ => false
  end.

(** [len(players.get(ck, {}))]. *)
Definition count (t : tables) (ck : str) : nat :=
  length (default [] (players t !! ck)).

(** [players[ck]], a [KeyError] when the chat has no entry set. *)
Definition players_at (ck : str) : M (list (str * entry)) :=
  t ← get_mem;
  match players t !! ck with
  | Some d => mret d
  | None => raise KeyError
  end.

(** [if ck not in players: players[ck] = {}]. *)
Definition ensure_round (ck : str) : M unit :=
  t ← get_mem;
  match players t !! ck with
  | Some _ => mret ()
  | None => modify (with_players <[ck := []]>)
  end.

(** *** Commands *)

Definition start_private (upd : update) : M unit :=
  c ← the_chat upd;
  match chat_type c with
  | Private => reply_text MsgStart
  | _ => mret ()
  end.

Definition status_cmd (upd : update) : M unit :=
  c ← the_chat upd;
  if negb (in_group c) then reply_text (MsgGroupOnly CmdStatus)
  else
    let ck := chat_key (chat_ident c) in
    t ← get_mem;
    let cnt := count t ck in
    let maxp := get_max_players_for_chat t ck in
    reply_text (MsgStatus cnt maxp).

Definition reset_cmd (pf : platform) (upd : update) : M unit :=
  c ← the_chat upd;
  if negb (in_group c) then reply_text (MsgGroupOnly CmdReset)
  else
    let user_id := user_ident (effective_user upd) in
    ok ← is_user_admin pf (chat_ident c) user_id;
    if negb ok then reply_text (MsgAdminOnly CmdReset)
    else
      let ck := chat_key (chat_ident c) in
      modify (with_players (delete ck));;
      save_all_data;;
      reply_text MsgRoundReset.

Definition setlimit_cmd (pf : platform) (upd : update) : M unit :=
  c ← the_chat upd;
  if negb (in_group c) then reply_text (MsgGroupOnly CmdSetlimit)
  else
    let user_id := user_ident (effective_user upd) in
    let chat_id := chat_ident c in
    ok ← is_user_admin pf chat_id user_id;
    if negb ok then reply_text (MsgAdminOnly CmdSetlimit)
    else
      let ck := chat_key chat_id in
      match args upd with
      | [] =>
          t ← get_mem;
          let cur := get_max_players_for_chat t ck in
          reply_text (MsgCurrentLimit cur)
      | a :: _ =>
          (* [Some n]: parsed; [None]: the [except] branch replied and
             returned *)
          parsed ← try_except
            (n ← int_or_raise a;
             if n <=? 0 then raise ValueError else mret (Some n))
            (λ _, reply_text MsgLimitUsage;; mret None);
          match parsed with
          | None => mret ()
          | Some n =>
              set_max_players_for_chat ck n;;
              reply_text (MsgLimitChanged n)
          end
      end.

Definition forcestart_cmd (pf : platform) (upd : update) : M unit :=
  c ← the_chat upd;
  if negb (in_group c) then reply_text (MsgGroupOnly CmdForcestart)
  else
    let user_id := user_ident (effective_user upd) in
    let chat_id := chat_ident c in
    ok ← is_user_admin pf chat_id user_id;
    if negb ok then reply_text (MsgAdminOnly CmdForcestart)
    else
      let ck := chat_key chat_id in
      t ← get_mem;
      let cnt := count t ck in
      reply_text (MsgForceStart cnt);;
      create_task (ExecuteRound chat_id).

(** A stored snapshot always has its two keys, so [if not data] is the case
    of no snapshot.  An update without a chat has no message either, so the
    reply of the [if not ck] branch is an [AttributeError] there. *)
Definition winners_cmd (upd : update) : M unit :=
  let ck := chat_key ∘ chat_ident <$> effective_chat upd in
  match ck with
  | None => raise AttributeError
  | Some ck =>
      if negb (truthy ck) then reply_text MsgNoChat
      else
        t ← get_mem;
        match last_round t !! ck with
        | None => reply_text MsgNoLastRound
        | Some data =>
            match winners data with
            | _ :: _ =>
                reply_text (MsgLastWinners (result data) (winners data))
            | [] => reply_text (MsgLastNobody (result data))
            end
        end
  end.

(** *** Group message handler *)

(** [f"participation:{uuid.uuid4().hex}"]. *)
Definition make_payload (hex : str) : str := lit "participation:" ++ hex.

Definition handle_group_message (pf : platform) (upd : update) : M unit :=
  c ← the_chat upd;
  if negb (in_group c) then mret ()
  else
    let text := strip (default [] (text upd)) in
    if negb (isdigit text) then mret ()
    else
      choice ← int_or_raise text;
      if (choice <? 1) || (6 <? choice) then mret ()
      else
        let user := effective_user upd in
        match user_username user with
        | None | Some [] => reply_text (MsgNeedUsername (first_name user))
        | Some uname =>
            let ck := chat_key (chat_ident c) in
            let uk := user_key (user_ident user) in
            ensure_round ck;;
            d ← players_at ck;
            match dict_get uk d with
            | Some _ => reply_text (MsgAlreadyIn (first_name user))
            | None =>
                let payload := make_payload (uuid_hex pf) in
                modify (with_pending <[payload :=
                  {| chat_id := ck; user_id := uk;
                     pending_username := lit "@" ++ uname;
                     pending_choice := choice |}]>);;
                save_all_data;;
                try_except
                  (send (SendInvoice (user_ident user) payload choice
                           (PRICE_STARS env * AMOUNT_MULTIPLIER env));;
                   reply_text (MsgInvoiceSent (user_ident user)))
                  (λ _,
                     emit (Log LogWarning);;
                     reply_text (MsgInvoiceFailed (first_name user));;
                     modify (with_pending (delete payload));;
                     save_all_data)
            end
        end.

(** *** Payments *)

Definition precheckout_handler (upd : update) : M unit :=
  if pre_checkout_query upd then send (AnswerPreCheckout true) else mret ().

(** The record the confirmation is matched with: none when the payload is
    missing or empty ([not payload]) or not a key of [pending]. *)
Definition matched_record (t : tables) (upd : update)
  : option (str * pending_record) :=
  match successful_payment upd with
  | None => None
  | Some payload =>
      if negb (truthy payload) then None
      else (λ record, (payload, record)) <$> pending t !! payload
  end.

Definition successful_payment_handler (upd : update) : M unit :=
  t ← get_mem;
  match matched_record t upd with
  | None => reply_text MsgNoRoundFound
  | Some (payload, record) =>
      modify (with_pending (delete payload));;
      save_all_data;;
      let ck := chat_id record in
      let uk := user_id record in
      let uname := pending_username record in
      let choice := pending_choice record in
      ensure_round ck;;
      d ← players_at ck;
      modify (with_players
        <[ck := dict_set uk {| username := uname; choice := choice |} d]>);;
      save_all_data;;
      reply_text (MsgPaymentAccepted choice);;
      try_except
        (chat_id ← int_or_raise ck;
         d ← players_at ck;
         t ← get_mem;
         send_message chat_id
           (MsgRegistered uname (length d) (get_max_players_for_chat t ck)))
        (λ _, mret ());;
      d ← players_at ck;
      t ← get_mem;
      if get_max_players_for_chat t ck <=? Z.of_nat (length d) then
        chat_id ← int_or_raise ck;
        create_task (ExecuteRound chat_id)
      else mret ()
  end.

(** *** Execute round *)

(** [msg.dice.value] when the message has a dice with a truthy value, else
    [random.randint(1, 6)]. *)
Definition round_result (pf : platform) (msg : dice_message) : Z :=
  match dice msg with
  | Some (Some v) => if v =? 0 then randint 1 6 (entropy pf) else v
  | _ => randint 1 6 (entropy pf)
  end.

Definition round_winners (t : tables) (ck : str) (res : Z) : list str :=
  username <$>
    filter (λ info, choice info = res)
           (dict_values (default [] (players t !! ck))).

Definition announcement (res : Z) (ws : list str) : message :=
  match ws with
  | _ :: _ => MsgRoundWinners res ws (PRIZE_STARS env)
  | [] => MsgRoundNobody res
  end.

Definition execute_round (pf : platform) (chat_id : Z) : M unit :=
  let ck := chat_key chat_id in
  try_finally
    (try_except
       (msg ← send_dice pf chat_id;
        let res := round_result pf msg in
        t ← get_mem;
        let ws := round_winners t ck res in
        send_message chat_id (announcement res ws);;
        modify (with_last_round
          <[ck := {| result := res; winners := ws |}]>);;
        t ← get_mem;
        save_json_file (LastRoundFile (last_round t)))
       (λ e,
          emit (Log LogException);;
          try_except (send_message chat_id (MsgRoundError e))
            (λ _, mret ())))
    (modify (with_players (delete ck));;
     save_all_data).

(** A task run to its end. *)
Definition run_task (pf : platform) (k : task) : M unit :=
  match k with
  | ExecuteRound c => execute_round pf c
  end.

End Bot.

(** ** Tables and runs named in the statements *)

(** The four files as [save_all_data] writes them. *)
Definition saved_all (t : tables) : list effect :=
  [ Save (PlayersFile (players t)); Save (PendingFile (pending t));
    Save (ConfigFile (config t)); Save (LastRoundFile (last_round t)) ].

(** The tables of a chat whose round was cleared. *)
Definition cleared (ck : str) (t : tables) : tables :=
  with_players (delete ck) t.

(** The tables after a round that was announced. *)
Definition snapshotted (ck : str) (res : Z) (ws : list str) (t : tables)
  : tables :=
  with_last_round <[ck := {| result := res; winners := ws |}]> t.

(** The tables after the record of [payload] was promoted. *)
Definition registered (payload : str) (record : pending_record) (t : tables)
  : tables :=
  let ck := chat_id record in
  {| players :=
       <[ck := dict_set (user_id record)
                 {| username := pending_username record;
                    choice := pending_choice record |}
                 (default [] (players t !! ck))]> (players t);
     pending := delete payload (pending t);
     config := config t;
     last_round := last_round t |}.

(** How a handler ends when its last call had outcome [o]. *)
Definition raised (o : option exn) : outcome unit :=
  match o with
  | None => Ret ()
  | Some e => Raise e
  end.

(** The run of a handler that does nothing but reply [m]. *)
Definition just_replied (m : message) (t : tables) (outs : list (option exn))
  : outcome unit * run :=
  (raised (hd None outs),
   {| mem := t; sends := tl outs;
      trace := [Call (ReplyText m) (hd None outs)]; spawned := [] |}).

(** The lines of [successful_payment_handler] after the second
    [save_all_data]: the two notices and the threshold check. *)
Definition after_registration (env : settings) (record : pending_record)
  : M unit :=
  let ck := chat_id record in
  reply_text (MsgPaymentAccepted (pending_choice record));;
  try_except
    (chat_id ← int_or_raise ck;
     d ← players_at ck;
     t ← get_mem;
     send_message chat_id
       (MsgRegistered (pending_username record) (length d)
          (get_max_players_for_chat env t ck)))
    (λ _, mret ());;
  d ← players_at ck;
  t ← get_mem;
  if get_max_players_for_chat env t ck <=? Z.of_nat (length d) then
    chat_id ← int_or_raise ck;
    create_task (ExecuteRound chat_id)
  else mret ().

(** What [get_chat_member] is logged with, and what [is_user_admin]
    answers. *)
Definition member_outcome (pf : platform) : option exn :=
  match member_reply pf with
  | inl e => Some e
  | inr _ => None
  end.

Definition admin_answer (pf : platform) : bool :=
  match member_reply pf with
  | inl _ => false
  | inr st => is_admin_status st
  end.

(** The configuration after [set_max_players_for_chat ck n]. *)
Definition limited (ck : str) (n : Z) (t : tables) : tables :=
  with_config (λ cfg,
    <[ck := <[max_players_key := JInt n]> (default ∅ (cfg !! ck))]> cfg) t.

(** The tables once the pending record is created: the chat has an entry
    set, empty if it had none, and the record waits under its token. *)
Definition awaiting (ck payload : str) (record : pending_record) (t : tables)
  : tables :=
  {| players := match players t !! ck with
                | Some _ => players t
                | None => <[ck := []]> (players t)
                end;
     pending := <[payload := record]> (pending t);
     config := config t;
     last_round := last_round t |}.

(** The text as the handler reads it. *)
Definition entry_text (upd : update) : str := strip (default [] (text upd)).

(** Two tables of ranges without a common code point. *)
Definition ranges_apart (t1 t2 : list (N * N)) : bool :=
  forallb (λ r1,
    forallb (λ r2, (snd r1 <? fst r2)%N || (snd r2 <? fst r1)%N) t2) t1.

(** The ASCII digit [int] reads a decimal character as. *)
Definition ascii_of_decimal (c : N) : N :=
  if (c <? 127)%N then c else (48 + default 0 (decimal_value c))%N.

(** The decimal characters a string starts with. *)
Fixpoint leading_decimals (s : str) : str :=
  match s with
  | [] => []
  | c :: r => if isdecimal_char c then c :: leading_decimals r else []
  end.

(** A plain numeral: ASCII digits only; and the number it writes. *)
Definition ascii_digits (s : str) : Prop :=
  Forall (λ c, (48 ≤ c ≤ 57)%N) s.

Definition numeral_value (s : str) : N :=
  fold_left (λ a c, 10 * a + (c - 48))%N s 0%N.

(** The content of the four files after the writes of a trace, from their
    content before it: [save_json_file] opens its file for writing and dumps
    the whole table, so a write replaces what the file held. *)
Definition written (tr : list effect) (disk : tables) : tables :=
  fold_left
    (λ d e,
       match e with
       | Save (PlayersFile p) => with_players (λ _, p) d
       | Save (PendingFile p) => with_pending (λ _, p) d
       | Save (ConfigFile c) => with_config (λ _, c) d
       | Save (LastRoundFile l) => with_last_round (λ _, l) d
       | _ => d
       end)
    tr disk.

(** ** The process: the handlers of [main] and the tasks they create *)

(** The handlers [main] registers with the application. *)
Inductive handler :=
  | OnStart | OnStatus | OnReset | OnSetlimit | OnForcestart | OnWinners
  | OnPreCheckout | OnSuccessfulPayment | OnGroupMessage.

Definition handle (env : settings) (pf : platform) (h : handler)
    (upd : update) : M unit :=
  match h with
  | OnStart => start_private upd
  | OnStatus => status_cmd env upd
  | OnReset => reset_cmd pf upd
  | OnSetlimit => setlimit_cmd env pf upd
  | OnForcestart => forcestart_cmd pf upd
  | OnWinners => winners_cmd upd
  | OnPreCheckout => precheckout_handler upd
  | OnSuccessfulPayment => successful_payment_handler env upd
  | OnGroupMessage => handle_group_message env pf upd
  end.

(** The tables in memory and the tasks created and not yet run. *)
Record process := { tables_of : tables; tasks : list task }.

(** The four files as the program's own writes leave them. *)
Definition stored (t : tables) : files :=
  {| players_json := Some (players t); pending_json := Some (pending t);
     config_json := Some (config t);
     last_round_json := Some (last_round t) |}.

Definition no_files : files :=
  {| players_json := None; pending_json := None; config_json := None;
     last_round_json := None |}.

(** [main] at the first start: [load_all_data] finds no file. *)
Definition first_start : process :=
  {| tables_of := load_all_data no_files; tasks := [] |}.

(** A handler run on an update: the tasks it creates wait. *)
Definition after_handler (env : settings) (pf : platform) (h : handler)
    (upd : update) (outs : list (option exn)) (p : process) : process :=
  let r := exec (handle env pf h upd) (tables_of p) outs in
  {| tables_of := mem r.2; tasks := tasks p ++ spawned r.2 |}.

(** The waiting task at position [i] run to its end. *)
Definition after_task (env : settings) (pf : platform) (i : nat) (k : task)
    (outs : list (option exn)) (p : process) : process :=
  let r := exec (run_task env pf k) (tables_of p) outs in
  {| tables_of := mem r.2; tasks := delete i (tasks p) ++ spawned r.2 |}.

(** The process stopped and started again: [load_all_data] reads the files
    it wrote, and the tasks that waited are gone. *)
Definition restarted (p : process) : process :=
  {| tables_of := load_all_data (stored (tables_of p)); tasks := [] |}.

Section Process.
Variable is_group : Z → bool.
Variable env : settings.

(** The platform gives an identifier to one chat, and whether that chat is
    a group (or supergroup) does not change: [is_group] says which
    identifiers are those of groups, and the chat of an update agrees with
    it. *)
Definition well_formed (upd : update) : Prop :=
  ∀ c, effective_chat upd = Some c → in_group c = is_group (chat_ident c).

(** What the process can do next: run a registered handler on an update, with
    whatever answers of the platform; run a task that waits; or be started
    again. *)
Inductive step : process → process → Prop :=
  | step_handler pf h upd outs p :
      well_formed upd → step p (after_handler env pf h upd outs p)
  | step_task pf i k outs p :
      tasks p !! i = Some k → step p (after_task env pf i k outs p)
  | step_restart p : step p (restarted p).

Definition reachable (p : process) : Prop := rtc step first_start p.

(** The key of a group. *)
Definition group_key (ck : str) : Prop :=
  ∃ g, ck = chat_key g ∧ is_group g = true.

(** Every snapshot is stored, and every payment is awaited, under the key
    of a group. *)
Definition group_keyed (t : tables) : Prop :=
  (∀ ck data, last_round t !! ck = Some data → group_key ck) ∧
  (∀ tok record, pending t !! tok = Some record →
     group_key (chat_id record)).

(** Every task is the round of a group. *)
Definition group_tasks (ks : list task) : Prop :=
  Forall (λ k, match k with ExecuteRound g => is_group g = true end) ks.
End Process.

(** What a handler run on [upd] from the tables [t] leaves: the snapshots
    as they were, no record that was not awaited before but one of the
    group the update came from, and no task but the round of that group or
    of a group a payment was awaited for. *)
Definition footprint (upd : update) (t : tables) (r : outcome unit * run)
  : Prop :=
  last_round (mem r.2) = last_round t ∧
  (∀ tok record, pending (mem r.2) !! tok = Some record →
     pending t !! tok = Some record ∨
     ∃ c, effective_chat upd = Some c ∧ in_group c = true ∧
          chat_id record = chat_key (chat_ident c)) ∧
  (∀ g, ExecuteRound g ∈ spawned r.2 →
     (∃ c, effective_chat upd = Some c ∧ in_group c = true ∧
           g = chat_ident c) ∨
     (∃ tok record, pending t !! tok = Some record ∧
                    Py.int (chat_id record) = Some g)).

(** ** Fixtures: one group, two members, one private chat *)

Module Scene.

Definition env : settings :=
  {| DEFAULT_MAX_PLAYERS := 100; PRICE_STARS := 9;
     PRIZE_STARS := 25; AMOUNT_MULTIPLIER := 1 |}.

Definition group_id : Z := -1001.
Definition group : chat := {| chat_type := Group; chat_ident := group_id |}.
Definition gk : str := chat_key group_id.

Definition ann : user :=
  {| user_ident := 42; first_name := lit "Ann";
     user_username := Some (lit "ann") |}.
Definition bob : user :=
  {| user_ident := 43; first_name := lit "Bob";
     user_username := Some (lit "bob") |}.

Definition private_of (u : user) : chat :=
  {| chat_type := Private; chat_ident := user_ident u |}.

(** The platform answers: the dice shows 4, the sender is an administrator. *)
Definition calm : platform :=
  {| dice_reply := inr {| dice := Some (Some 4) |};
     member_reply := inr Administrator;
     uuid_hex := lit "0f3a"; entropy := 7%N |}.

(** The dice call raises. *)
Definition dice_down : platform :=
  {| dice_reply := inl TelegramError;
     member_reply := inr Administrator;
     uuid_hex := lit "0f3a"; entropy := 7%N |}.

(** The dice call returns a message without a dice. *)
Definition dice_silent : platform :=
  {| dice_reply := inr {| dice := None |};
     member_reply := inr Administrator;
     uuid_hex := lit "0f3a"; entropy := 7%N |}.

Definition nothing : tables :=
  {| players := ∅; pending := ∅; config := ∅; last_round := ∅ |}.

(** A text message of [u] in the group. *)
Definition says (u : user) (s : str) : update :=
  {| effective_chat := Some group; effective_user := u;
     text := Some s; args := []; successful_payment := None;
     pre_checkout_query := false |}.

(** A command of [u] in chat [c] with arguments [a]. *)
Definition commands (u : user) (c : chat) (a : list str) : update :=
  {| effective_chat := Some c; effective_user := u;
     text := None; args := a; successful_payment := None;
     pre_checkout_query := false |}.

(** A successful payment of [u] carrying [payload], in the private chat. *)
Definition pays (u : user) (payload : str) : update :=
  {| effective_chat := Some (private_of u); effective_user := u;
     text := None; args := []; successful_payment := Some payload;
     pre_checkout_query := false |}.

Definition token : str := make_payload (uuid_hex calm).

Definition ann_record (c : Z) : pending_record :=
  {| chat_id := gk; user_id := user_key 42;
     pending_username := lit "@ann"; pending_choice := c |}.
Definition bob_record (c : Z) : pending_record :=
  {| chat_id := gk; user_id := user_key 43;
     pending_username := lit "@bob"; pending_choice := c |}.

(** Ann waits for her invoice to be paid; nobody is registered. *)
Definition ann_pending : tables :=
  {| players := ∅; pending := {[ token := ann_record 4 ]};
     config := ∅; last_round := ∅ |}.

(** Ann (choice 4) and Bob (choice 2) are registered in the group. *)
Definition two_players : tables :=
  {| players := {[ gk :=
       [ (user_key 42, {| username := lit "@ann"; choice := 4 |});
         (user_key 43, {| username := lit "@bob"; choice := 2 |}) ] ]};
     pending := ∅; config := ∅; last_round := ∅ |}.

(** Ann is registered, Bob's payment is awaited, and the group's limit was
    set to two. *)
Definition bob_pending_limit_two : tables :=
  {| players := {[ gk :=
       [ (user_key 42, {| username := lit "@ann"; choice := 4 |}) ] ]};
     pending := {[ token := bob_record 2 ]};
     config := {[ gk := {[ max_players_key := JInt 2 ]} ]};
     last_round := ∅ |}.

(** The tables at start when [last_round.json] holds a snapshot under the
    key of Ann's private chat and the other files are missing. *)
Definition snapshot_under_private_key : tables :=
  load_all_data
    {| players_json := None; pending_json := None; config_json := None;
       last_round_json := Some {[ chat_key 42 :=
         {| result := 3; winners := [lit "@bob"] |} ]} |}.

Definition token_of_ann : str := make_payload (lit "a1").
Definition token_of_bob : str := make_payload (lit "b2").

(** The limit of the group is two; Ann (choice 4) and Bob (choice 2) both
    have an invoice to pay. *)
Definition both_pending_limit_two : tables :=
  {| players := ∅;
     pending := {[ token_of_ann := ann_record 4;
                   token_of_bob := bob_record 2 ]};
     config := {[ gk := {[ max_players_key := JInt 2 ]} ]};
     last_round := ∅ |}.

(** The next two send calls raise. *)
Definition both_raise : list (option exn) :=
  [Some TelegramError; Some TelegramError].

(** As read from the files: a pending record whose chat key is no number,
    for a chat with a limit of one. *)
Definition lobby_record : pending_record :=
  {| chat_id := lit "lobby"; user_id := user_key 42;
     pending_username := lit "@ann"; pending_choice := 4 |}.
Definition lobby_pending : tables :=
  {| players := ∅; pending := {[ token := lobby_record ]};
     config := {[ lit "lobby" := {[ max_players_key := JInt 1 ]} ]};
     last_round := ∅ |}.

(** The sender is an ordinary member. *)
Definition guest : platform :=
  {| dice_reply := inr {| dice := Some (Some 4) |};
     member_reply := inr Member;
     uuid_hex := lit "0f3a"; entropy := 7%N |}.

(** The member lookup raises. *)
Definition lookup_down : platform :=
  {| dice_reply := inr {| dice := Some (Some 4) |};
     member_reply := inl TelegramError;
     uuid_hex := lit "0f3a"; entropy := 7%N |}.

(** A member of the group without a username. *)
Definition carl : user :=
  {| user_ident := 44; first_name := lit "Carl"; user_username := None |}.

(** The identifiers of groups are the negative ones. *)
Definition is_group (id : Z) : bool := id <? 0.

(** A second group. *)
Definition other_group : chat :=
  {| chat_type := Supergroup; chat_ident := -1002 |}.

(** A text message of [u] in the chat [c]. *)
Definition says_in (c : chat) (u : user) (s : str) : update :=
  {| effective_chat := Some c; effective_user := u;
     text := Some s; args := []; successful_payment := None;
     pre_checkout_query := false |}.

(** From the first start: Ann, an administrator, forces the start in the
    group, and the round is executed. *)
Definition forced : process :=
  after_handler env calm OnForcestart (commands ann group []) [] first_start.
Definition forced_round : process :=
  after_task env calm 0 (ExecuteRound group_id) [] forced.

(** From the first start: Ann sends a 4 in the group and pays, Bob sends a
    2 in the group and pays (the limit is 100, so no round starts); Ann
    then lowers the limit of the group to 1; and Bob sends a 3 in the
    second group, where his payment is awaited. *)
Definition ann_entered : process :=
  after_handler env calm OnGroupMessage (says ann (lit "4")) [] first_start.
Definition ann_paid : process :=
  after_handler env calm OnSuccessfulPayment (pays ann token) [] ann_entered.
Definition bob_entered : process :=
  after_handler env calm OnGroupMessage (says bob (lit "2")) [] ann_paid.
Definition bob_paid : process :=
  after_handler env calm OnSuccessfulPayment (pays bob token) [] bob_entered.
Definition limit_lowered : process :=
  after_handler env calm OnSetlimit (commands ann group [lit "1"]) []
    bob_paid.
Definition bob_entered_elsewhere : process :=
  after_handler env calm OnGroupMessage (says_in other_group bob (lit "3"))
    [] limit_lowered.

End Scene.

(** Unfolds the monad so that a run computes by [cbn]. *)
Ltac unfold_run :=
  unfold exec, start, reply_text, send_message, save_all_data, save_json_file,
    ensure_round, players_at, int_or_raise, send_dice, get_chat_member,
    is_user_admin, the_chat;
  unfold try_finally, try_except, mbind, M_bind, mret, M_ret, raise, get_mem,
    modify, emit, create_task, send.

(** ** Facts about the built-ins and the dictionary *)

Lemma randint_range (a b : Z) (n : N) :
  a ≤ b → a ≤ randint a b n ≤ b.
Proof.
  intros Hab. unfold randint.
  pose proof (Z.mod_pos_bound (Z.of_N n) (b - a + 1)) as Hm. lia.
Qed.

Lemma make_payload_truthy (hex : str) : truthy (make_payload hex) = true.
Proof. reflexivity. Qed.

Section DictFacts.
Context {V : Type}.
Implicit Types (d : list (str * V)) (k : str) (v : V).

Lemma dict_get_set_eq k v d : dict_get k (dict_set k v d) = Some v.
Proof.
  induction d as [|[k' v'] d IH]; simpl.
  - by rewrite decide_True.
  - destruct (decide (k' = k)) as [->|Hne]; simpl.
    + by rewrite decide_True.
    + by rewrite decide_False.
Qed.

Lemma dict_get_set_ne k k' v d :
  k ≠ k' → dict_get k' (dict_set k v d) = dict_get k' d.
Proof.
  intros Hne. induction d as [|[k0 v0] d IH]; simpl.
  - by rewrite decide_False.
  - destruct (decide (k0 = k)) as [->|Hk]; simpl.
    + by rewrite !decide_False.
    + by rewrite IH.
Qed.

(** A new key makes the dictionary one longer; an old key keeps its
    length. *)
Lemma dict_set_length k v d :
  length (dict_set k v d) =
  match dict_get k d with
  | Some _ => length d
  | None => S (length d)
  end.
Proof.
  induction d as [|[k' v'] d IH]; simpl; [done|].
  destruct (decide (k' = k)); simpl; [done|].
  rewrite IH. by destruct (dict_get k d).
Qed.

Lemma dict_keys_set k v d :
  dict_keys (dict_set k v d) =
  match dict_get k d with
  | Some _ => dict_keys d
  | None => dict_keys d ++ [k]
  end.
Proof.
  induction d as [|[k' v'] d IH]; simpl; [done|].
  destruct (decide (k' = k)) as [->|]; simpl; [done|].
  rewrite IH. by destruct (dict_get k d).
Qed.

Lemma dict_get_None k d : dict_get k d = None ↔ k ∉ dict_keys d.
Proof.
  induction d as [|[k' v'] d IH]; simpl.
  - split; [intros _; apply not_elem_of_nil | done].
  - rewrite not_elem_of_cons. destruct (decide (k' = k)) as [->|Hne].
    + split; [done | intros [? _]; done].
    + rewrite IH. split; [intros ?; split; [congruence | done] | tauto].
Qed.

(** No participant ever has two entries in one round. *)
Lemma dict_set_NoDup k v d :
  NoDup (dict_keys d) → NoDup (dict_keys (dict_set k v d)).
Proof.
  intros Hd. rewrite dict_keys_set.
  destruct (dict_get k d) eqn:Hk; [done|].
  apply NoDup_app. split_and!; [done | | apply NoDup_singleton].
  intros x Hx ->%list_elem_of_singleton.
  by apply dict_get_None in Hk.
Qed.
End DictFacts.

(** ** What [int] reads *)

Section Ranges.
Implicit Types (t : list (N * N)) (c : N).

Lemma in_ranges_true t c :
  in_ranges t c = true ↔ ∃ r, In r t ∧ (fst r ≤ c ≤ snd r)%N.
Proof.
  unfold in_ranges. rewrite existsb_exists.
  split; intros (r & Hr & Hc); exists r; (split; [done|]).
  - apply andb_true_iff in Hc as [H1 H2].
    apply N.leb_le in H1, H2. done.
  - apply andb_true_iff. by rewrite !N.leb_le.
Qed.

Lemma ranges_apart_spec t1 t2 c :
  ranges_apart t1 t2 = true → in_ranges t1 c = true → in_ranges t2 c = false.
Proof.
  intros Hap (r1 & Hr1 & Hc1)%in_ranges_true.
  destruct (in_ranges t2 c) eqn:H2; [|done].
  apply in_ranges_true in H2 as (r2 & Hr2 & Hc2).
  unfold ranges_apart in Hap. rewrite forallb_forall in Hap.
  specialize (Hap r1 Hr1). rewrite forallb_forall in Hap.
  specialize (Hap r2 Hr2).
  apply orb_true_iff in Hap as [H|H]; apply N.ltb_lt in H; lia.
Qed.

Lemma decimal_not_space c : isdecimal_char c = true → isspace_char c = false.
Proof. apply ranges_apart_spec. vm_compute. reflexivity. Qed.

Lemma other_digit_not_space c :
  in_ranges digit_only_ranges c = true → isspace_char c = false.
Proof. apply ranges_apart_spec. vm_compute. reflexivity. Qed.

Lemma other_digit_not_ascii c :
  in_ranges digit_only_ranges c = true → (c <? 127)%N = false.
Proof.
  intros (r & Hr & Hc)%in_ranges_true. apply N.ltb_ge.
  assert (Hlo : forallb (λ r, (127 <=? fst r)%N) digit_only_ranges = true)
    by (vm_compute; reflexivity).
  rewrite forallb_forall in Hlo. specialize (Hlo r Hr).
  apply N.leb_le in Hlo. lia.
Qed.

Lemma decimal_value_None c :
  isdecimal_char c = false → decimal_value c = None.
Proof.
  unfold isdecimal_char, in_ranges, decimal_value. intros Hc.
  destruct (find _ _) as [r|] eqn:Hf; [|done].
  apply find_some in Hf as [Hr Hp].
  assert (existsb (λ r, (fst r <=? c)%N && (c <=? snd r)%N) decimal_ranges
          = true) by (apply existsb_exists; eauto).
  congruence.
Qed.

Lemma decimal_value_Some c :
  isdecimal_char c = true → ∃ d, decimal_value c = Some d ∧ (d < 10)%N.
Proof.
  unfold isdecimal_char, in_ranges, decimal_value. intros Hc.
  destruct (find _ _) as [r|] eqn:Hf.
  - eexists. split; [done|]. apply N.mod_lt. done.
  - apply existsb_exists in Hc as (r & Hr & Hp).
    by rewrite (find_none _ _ Hf r Hr) in Hp.
Qed.

(** The only decimal characters of ASCII are [0] to [9]. *)
Lemma decimal_ascii c :
  isdecimal_char c = true → (c < 127)%N → (48 ≤ c ≤ 57)%N.
Proof.
  intros (r & Hr & Hc)%in_ranges_true Hlt.
  assert (Hlo : forallb (λ r, (127 <=? fst r)%N) (tl decimal_ranges) = true)
    by (vm_compute; reflexivity).
  rewrite forallb_forall in Hlo.
  destruct Hr as [<- | Hr]; [simpl in Hc; lia|].
  specialize (Hlo r Hr). apply N.leb_le in Hlo. lia.
Qed.

Lemma ascii_digit_decimal c : (48 ≤ c ≤ 57)%N → isdecimal_char c = true.
Proof.
  intros Hc. apply in_ranges_true. exists (48, 57)%N.
  split; [by left | done].
Qed.

Lemma ascii_of_decimal_digit c :
  isdecimal_char c = true → (48 ≤ ascii_of_decimal c ≤ 57)%N.
Proof.
  intros Hc. unfold ascii_of_decimal.
  destruct (N.ltb_spec c 127) as [Hlt|_]; [by apply decimal_ascii|].
  destruct (decimal_value_Some c Hc) as (d & -> & Hd). simpl. lia.
Qed.
End Ranges.

Section Numerals.
Implicit Types (s : str) (l : list N) (c : N).

Lemma ascii_digit_classes c :
  (48 ≤ c ≤ 57)%N →
  c_isspace c = false ∧ ascii_digit c = Some (c - 48)%N ∧
  (c <? 127)%N = true ∧ (c =? 43)%N = false ∧ (c =? 45)%N = false ∧
  (c =? 95)%N = false.
Proof.
  intros Hc. split_and!.
  - unfold c_isspace. apply orb_false_iff. split.
    + apply N.eqb_neq. lia.
    + apply andb_false_iff. right. apply N.leb_gt. lia.
  - unfold ascii_digit.
    replace (48 <=? c)%N with true by (symmetry; apply N.leb_le; lia).
    by replace (c <=? 57)%N with true by (symmetry; apply N.leb_le; lia).
  - apply N.ltb_lt. lia.
  - apply N.eqb_neq. lia.
  - apply N.eqb_neq. lia.
  - apply N.eqb_neq. lia.
Qed.

(** The transliteration of decimal characters. *)
Lemma to_ascii_decimals s :
  forallb isdecimal_char s = true → to_ascii s = map ascii_of_decimal s.
Proof.
  induction s as [|c s IH]; simpl; [done|].
  intros [Hc Hs]%andb_true_iff. rewrite (IH Hs). unfold ascii_of_decimal.
  destruct (c <? 127)%N; [done|].
  rewrite (decimal_not_space c Hc).
  by destruct (decimal_value_Some c Hc) as (d & -> & _).
Qed.

(** The transliteration stops with a [?] at the first digit that is not
    decimal. *)
Lemma to_ascii_other_digit s :
  forallb isdigit_char s = true → forallb isdecimal_char s = false →
  to_ascii s = map ascii_of_decimal (leading_decimals s) ++ [63%N].
Proof.
  induction s as [|c s IH]; simpl; [done|].
  intros [Hc Hs]%andb_true_iff Hdec.
  destruct (isdecimal_char c) eqn:Hcd; simpl in Hdec |- *.
  - rewrite (IH Hs Hdec). unfold ascii_of_decimal.
    destruct (c <? 127)%N; [done|].
    rewrite (decimal_not_space c Hcd).
    by destruct (decimal_value_Some c Hcd) as (d & -> & _).
  - unfold isdigit_char in Hc. rewrite Hcd in Hc. simpl in Hc.
    rewrite (other_digit_not_ascii c Hc), (other_digit_not_space c Hc).
    by rewrite (decimal_value_None c Hcd).
Qed.

Lemma ascii_digits_of_decimals s :
  forallb isdecimal_char s = true → ascii_digits (map ascii_of_decimal s).
Proof.
  unfold ascii_digits. induction s as [|c s IH]; simpl; [constructor|].
  intros [Hc Hs]%andb_true_iff.
  constructor; [by apply ascii_of_decimal_digit | by apply IH].
Qed.

Lemma leading_decimals_decimal s :
  forallb isdecimal_char (leading_decimals s) = true.
Proof.
  induction s as [|c s IH]; simpl; [done|].
  destruct (isdecimal_char c) eqn:Hc; simpl; [by rewrite Hc|done].
Qed.

(** Reading digits up to the first other character [x]. *)
Lemma scan_digits_stop l x rest acc cnt :
  ascii_digits l → ascii_digit x = None → (x =? 95)%N = false →
  scan_digits (l ++ x :: rest) acc cnt false =
  Some (fold_left (λ a c, 10 * a + (c - 48))%N l acc,
        (cnt + length l)%nat, x :: rest).
Proof.
  intros Hl Hx H95. revert acc cnt.
  induction Hl as [|c l Hc _ IH]; intros acc cnt; simpl.
  - by rewrite H95, Hx, Nat.add_0_r.
  - destruct (ascii_digit_classes c Hc) as (_ & -> & _ & _ & _ & ->).
    rewrite IH. do 3 f_equal. lia.
Qed.

Lemma scan_digits_numeral l acc cnt :
  ascii_digits l →
  scan_digits l acc cnt false =
  Some (fold_left (λ a c, 10 * a + (c - 48))%N l acc,
        (cnt + length l)%nat, []).
Proof.
  intros Hl. revert acc cnt.
  induction Hl as [|c l Hc _ IH]; intros acc cnt; simpl.
  - by rewrite Nat.add_0_r.
  - destruct (ascii_digit_classes c Hc) as (_ & -> & _ & _ & _ & ->).
    rewrite IH. do 3 f_equal. lia.
Qed.

(** ASCII digits, at most 4300 of them, read as the number they write. *)
Lemma int_of_ascii_numeral l :
  l ≠ [] → ascii_digits l → (length l ≤ max_str_digits)%nat →
  int_of_ascii l = Some (Z.of_N (numeral_value l)).
Proof.
  intros Hne Hl Hlen. destruct l as [|c l]; [done|].
  pose proof (Forall_inv Hl) as Hc.
  destruct (ascii_digit_classes c Hc) as (Hsp & _ & _ & H43 & H45 & H95).
  unfold int_of_ascii. cbn [skip_space]. rewrite Hsp, H43, H45, H95.
  rewrite (scan_digits_numeral (c :: l) 0 0 Hl). cbn [Nat.add].
  replace (length (c :: l) =? 0)%nat with false by done.
  replace (max_str_digits <? length (c :: l))%nat with false
    by (symmetry; apply Nat.ltb_ge; exact Hlen).
  reflexivity.
Qed.

(** ASCII digits followed by a [?] do not read as a number. *)
Lemma int_of_ascii_junk l :
  ascii_digits l → int_of_ascii (l ++ [63%N]) = None.
Proof.
  intros Hl. destruct l as [|c l]; [reflexivity|].
  pose proof (Forall_inv Hl) as Hc.
  destruct (ascii_digit_classes c Hc) as (Hsp & _ & _ & H43 & H45 & H95).
  unfold int_of_ascii. rewrite <- app_comm_cons. cbn [skip_space].
  rewrite Hsp, H43, H45, H95. rewrite app_comm_cons.
  rewrite (scan_digits_stop (c :: l) 63 [] 0 0 Hl eq_refl eq_refl).
  cbn [Nat.add].
  replace (length (c :: l) =? 0)%nat with false by done.
  by destruct (max_str_digits <? length (c :: l))%nat.
Qed.

(** A string of decimal characters, at most 4300 of them, reads as the
    number it writes. *)
Lemma int_decimals s :
  s ≠ [] → forallb isdecimal_char s = true →
  (length s ≤ max_str_digits)%nat →
  Py.int s = Some (Z.of_N (numeral_value (map ascii_of_decimal s))).
Proof.
  intros Hne Hs Hlen. unfold Py.int. rewrite (to_ascii_decimals s Hs).
  apply int_of_ascii_numeral.
  - by destruct s.
  - by apply ascii_digits_of_decimals.
  - by rewrite length_map.
Qed.

(** A string of digits with one that is not decimal does not read as a
    number, although [isdigit] accepts it. *)
Lemma int_other_digit s :
  isdigit s = true → forallb isdecimal_char s = false → Py.int s = None.
Proof.
  intros Hd Hdec. unfold Py.int.
  assert (Hall : forallb isdigit_char s = true) by (by destruct s).
  rewrite (to_ascii_other_digit s Hall Hdec).
  apply int_of_ascii_junk, ascii_digits_of_decimals, leading_decimals_decimal.
Qed.

Lemma ascii_digits_decimal s :
  ascii_digits s → forallb isdecimal_char s = true.
Proof.
  induction 1 as [|c s Hc _ IH]; simpl; [done|].
  by rewrite (ascii_digit_decimal c Hc).
Qed.

Lemma to_ascii_numeral s : ascii_digits s → to_ascii s = s.
Proof.
  induction 1 as [|c s Hc _ IH]; simpl; [done|].
  destruct (ascii_digit_classes c Hc) as (_ & _ & -> & _).
  by rewrite IH.
Qed.

(** A plain numeral of at most 4300 digits reads as the number it
    writes. *)
Lemma int_numeral s :
  s ≠ [] → ascii_digits s → (length s ≤ max_str_digits)%nat →
  Py.int s = Some (Z.of_N (numeral_value s)).
Proof.
  intros Hne Hs Hlen. unfold Py.int. rewrite (to_ascii_numeral s Hs).
  by apply int_of_ascii_numeral.
Qed.

Lemma isdigit_numeral s : s ≠ [] → ascii_digits s → isdigit s = true.
Proof.
  intros Hne Hs. unfold isdigit. destruct s as [|c s]; [done|].
  unfold ascii_digits in Hs. rewrite Forall_forall in Hs.
  apply forallb_forall. intros x Hx. apply list_elem_of_In in Hx.
  unfold isdigit_char. by rewrite (ascii_digit_decimal x (Hs x Hx)).
Qed.

Lemma lstrip_numeral s : ascii_digits s → lstrip s = s.
Proof.
  destruct 1 as [|c s Hc _]; simpl; [done|].
  by rewrite (decimal_not_space c (ascii_digit_decimal c Hc)).
Qed.

(** A plain numeral has nothing to strip. *)
Lemma strip_numeral s : ascii_digits s → strip s = s.
Proof.
  intros Hs. unfold strip, rstrip. rewrite (lstrip_numeral s Hs).
  rewrite lstrip_numeral; [apply rev_involutive|].
  by apply Forall_rev.
Qed.
End Numerals.

(** ** Runs, step by step *)

Section ExecuteRound.
Variable env : settings.
Variable pf : platform.
Variable c : Z.
Variable t : tables.
Variable outs : list (option exn).

(** The dice call raises: the round is aborted, only the error notice is
    tried, and the cleanup runs. *)
Lemma execute_round_dice_raises e :
  dice_reply pf = inl e →
  exec (execute_round env pf c) t outs =
  (Ret (),
   {| mem := cleared (chat_key c) t;
      sends := tl outs;
      trace := [ Call (SendDice c) (Some e); Log LogException;
                 Call (SendMessage c (MsgRoundError e)) (hd None outs) ]
               ++ saved_all (cleared (chat_key c) t);
      spawned := [] |}).
Proof.
  intros He. unfold execute_round. unfold_run. rewrite He.
  destruct outs as [|[e'|] outs']; reflexivity.
Qed.

(** The dice call returns and the announcement is delivered. *)
Lemma execute_round_announced msg :
  dice_reply pf = inr msg →
  hd None outs = None →
  let res := round_result pf msg in
  let ws := round_winners t (chat_key c) res in
  let t1 := snapshotted (chat_key c) res ws t in
  exec (execute_round env pf c) t outs =
  (Ret (),
   {| mem := cleared (chat_key c) t1;
      sends := tl outs;
      trace := [ Call (SendDice c) None;
                 Call (SendMessage c (announcement env res ws)) None;
                 Save (LastRoundFile (last_round t1)) ]
               ++ saved_all (cleared (chat_key c) t1);
      spawned := [] |}).
Proof.
  intros Hd Ho. unfold execute_round. unfold_run. rewrite Hd.
  destruct outs as [|[e'|] outs']; [reflexivity | discriminate | reflexivity].
Qed.

(** The dice call returns and the announcement raises. *)
Lemma execute_round_announce_raises msg e :
  dice_reply pf = inr msg →
  hd None outs = Some e →
  let res := round_result pf msg in
  let ws := round_winners t (chat_key c) res in
  exec (execute_round env pf c) t outs =
  (Ret (),
   {| mem := cleared (chat_key c) t;
      sends := tl (tl outs);
      trace := [ Call (SendDice c) None;
                 Call (SendMessage c (announcement env res ws)) (Some e);
                 Log LogException;
                 Call (SendMessage c (MsgRoundError e)) (hd None (tl outs)) ]
               ++ saved_all (cleared (chat_key c) t);
      spawned := [] |}).
Proof.
  intros Hd Ho. unfold execute_round. unfold_run. rewrite Hd.
  destruct outs as [|[e'|] outs']; [discriminate | | discriminate].
  injection Ho as ->.
  destruct outs' as [|[e''|] outs'']; reflexivity.
Qed.
End ExecuteRound.

(** ** Round execution *)

(** C2. Whatever the platform answers (the dice call, the announcement and
    the error notice may each raise) and whoever wins, a round execution
    returns, and afterwards the chat has no entry set in the players table:
    its count is zero. *)
Theorem round_state_empty_after_execution
    (env : settings) (pf : platform) (c : Z) (t : tables)
    (outs : list (option exn)) :
  let r := exec (execute_round env pf c) t outs in
  r.1 = Ret () ∧
  players (mem r.2) !! chat_key c = None ∧
  count (mem r.2) (chat_key c) = 0%nat.
Proof.
  cbv zeta. unfold count.
  destruct (dice_reply pf) as [e|msg] eqn:Hdice.
  - rewrite (execute_round_dice_raises env pf c t outs e Hdice); simpl.
    by rewrite lookup_delete_eq.
  - destruct (hd None outs) as [e|] eqn:Hout.
    + rewrite (execute_round_announce_raises env pf c t outs msg e Hdice Hout).
      simpl. by rewrite lookup_delete_eq.
    + rewrite (execute_round_announced env pf c t outs msg Hdice Hout).
      simpl. by rewrite lookup_delete_eq.
Qed.

(** C6, as the code has it.  The local draw replaces the platform's value
    only when the dice call returns a message that reports no value (no
    dice, no value, or a zero): the result is then [randint 1 6], it lies
    in [1,6], and the announcement for the winners computed from it is
    sent.  When the dice call itself raises, the round is aborted: the only
    calls are the failed dice call and the error notice, no snapshot is
    written, and the round state is cleared all the same. *)
Theorem dice_fallback_only_without_value
    (env : settings) (pf : platform) (c : Z) (t : tables)
    (outs : list (option exn)) :
  let r := exec (execute_round env pf c) t outs in
  let ck := chat_key c in
  (∀ msg,
     dice_reply pf = inr msg →
     dice msg = None ∨ dice msg = Some None ∨ dice msg = Some (Some 0) →
     let res := randint 1 6 (entropy pf) in
     round_result pf msg = res ∧ 1 ≤ res ≤ 6 ∧
     Call (SendMessage c (announcement env res (round_winners t ck res)))
          (hd None outs) ∈ trace r.2) ∧
  (∀ e,
     dice_reply pf = inl e →
     trace r.2 =
       [ Call (SendDice c) (Some e); Log LogException;
         Call (SendMessage c (MsgRoundError e)) (hd None outs) ]
       ++ saved_all (cleared ck t) ∧
     last_round (mem r.2) = last_round t ∧
     players (mem r.2) = delete ck (players t)).
Proof.
  cbv zeta. split.
  - intros msg Hdice Hval.
    assert (Hres : round_result pf msg = randint 1 6 (entropy pf)).
    { unfold round_result. by destruct Hval as [-> | [-> | ->]]. }
    split; [done|]. split; [by apply randint_range|].
    rewrite <- Hres.
    destruct (hd None outs) as [e|] eqn:Hout.
    + rewrite (execute_round_announce_raises env pf c t outs msg e Hdice Hout).
      simpl. by repeat constructor.
    + rewrite (execute_round_announced env pf c t outs msg Hdice Hout).
      simpl. by repeat constructor.
  - intros e Hdice.
    by rewrite (execute_round_dice_raises env pf c t outs e Hdice).
Qed.

(** C9, as the code has it.  An execution never touches the snapshot of
    another chat.  When the dice call returns and the announcement is
    delivered, the chat's snapshot afterwards is the result and the winners
    of this execution; when the dice call or the announcement raises, the
    snapshots are left as they were. *)
Theorem snapshot_of_own_chat_when_announced
    (env : settings) (pf : platform) (c : Z) (t : tables)
    (outs : list (option exn)) :
  let r := exec (execute_round env pf c) t outs in
  let ck := chat_key c in
  (∀ ck', ck' ≠ ck → last_round (mem r.2) !! ck' = last_round t !! ck') ∧
  (∀ msg,
     dice_reply pf = inr msg → hd None outs = None →
     let res := round_result pf msg in
     last_round (mem r.2) !! ck =
       Some {| result := res; winners := round_winners t ck res |}) ∧
  ((∃ e, dice_reply pf = inl e) ∨ (∃ e, hd None outs = Some e) →
   last_round (mem r.2) = last_round t).
Proof.
  cbv zeta.
  destruct (dice_reply pf) as [e|msg] eqn:Hdice.
  - rewrite (execute_round_dice_raises env pf c t outs e Hdice); simpl.
    split_and!; [done | intros ? [=] | done].
  - destruct (hd None outs) as [e|] eqn:Hout.
    + rewrite (execute_round_announce_raises env pf c t outs msg e Hdice Hout).
      simpl. split_and!; [done | intros ? _ [=] | done].
    + rewrite (execute_round_announced env pf c t outs msg Hdice Hout).
      simpl. split_and!.
      * intros ck' Hne. by rewrite lookup_insert_ne.
      * intros ? [= <-] _. by rewrite lookup_insert_eq.
      * intros [[e [=]] | [e [=]]].
Qed.

(** ** Payment reconciliation *)

Lemma matched_record_found t upd tok record :
  successful_payment upd = Some tok → truthy tok = true →
  pending t !! tok = Some record →
  matched_record t upd = Some (tok, record).
Proof.
  intros Hp Ht Hr. unfold matched_record. by rewrite Hp, Ht, Hr.
Qed.

Lemma matched_record_absent t upd tok :
  successful_payment upd = Some tok → pending t !! tok = None →
  matched_record t upd = None.
Proof.
  intros Hp Hr. unfold matched_record. rewrite Hp, Hr.
  by destruct (truthy tok).
Qed.

Lemma matched_record_inv t upd tok record :
  matched_record t upd = Some (tok, record) →
  successful_payment upd = Some tok ∧ truthy tok = true ∧
  pending t !! tok = Some record.
Proof.
  unfold matched_record. destruct (successful_payment upd) as [p|]; [|done].
  destruct (truthy p) eqn:Ht; [|done]. simpl.
  destruct (pending t !! p) eqn:Hp; [|done]. simpl.
  intros [= <- <-]. by rewrite Ht.
Qed.

(** No record matched: one reply, nothing else. *)
Lemma payment_not_matched env upd t outs :
  matched_record t upd = None →
  exec (successful_payment_handler env upd) t outs =
  just_replied MsgNoRoundFound t outs.
Proof.
  intros Hm. unfold successful_payment_handler, just_replied. unfold_run.
  cbn. rewrite Hm. cbn. by destruct (hd None outs).
Qed.

(** A record matched: the record is promoted and both states are saved
    before the first notice is sent. *)
Lemma payment_matched env upd t outs payload record :
  matched_record t upd = Some (payload, record) →
  exec (successful_payment_handler env upd) t outs =
  after_registration env record
    {| mem := registered payload record t;
       sends := outs;
       trace := saved_all (with_pending (delete payload) t)
                ++ saved_all (registered payload record t);
       spawned := [] |}.
Proof.
  intros Hm. unfold successful_payment_handler, registered. unfold_run.
  cbn. rewrite Hm. cbn.
  destruct (players t !! chat_id record) as [d|] eqn:Hd; cbn.
  - by rewrite Hd.
  - rewrite lookup_insert_eq. cbn. unfold with_players; cbn.
    by rewrite insert_insert_eq.
Qed.

(** What the part after the registration does: it leaves the tables alone;
    when it returns it has created the task exactly when the count has
    reached the threshold, and when it raises it has created none. *)
Lemma after_registration_run env record r d :
  players (mem r) !! chat_id record = Some d →
  spawned r = [] →
  let ck := chat_id record in
  let end_ := after_registration env record r in
  mem end_.2 = mem r ∧
  (end_.1 = Ret () →
   if get_max_players_for_chat env (mem r) ck <=? Z.of_nat (length d)
   then ∃ c, Py.int ck = Some c ∧ spawned end_.2 = [ExecuteRound c]
   else spawned end_.2 = []) ∧
  (∀ e, end_.1 = Raise e → spawned end_.2 = []).
Proof.
  intros Hd Hs. cbv zeta. unfold after_registration. unfold_run.
  destruct r as [t outs tr sp]; simpl in Hd, Hs; subst sp. cbn.
  destruct (hd None outs) as [e|]; cbn;
    [split_and!; [done | intros [=] | done] |].
  destruct (Py.int (chat_id record)) as [c|] eqn:Hint; cbn; rewrite !Hd; cbn.
  - destruct (hd None (tail outs)); cbn; rewrite ?Hd; cbn;
      (destruct (_ <=? _); cbn;
       split_and!; [done | eauto | intros ? [=] | done | done | done]).
  - destruct (_ <=? _); cbn;
      split_and!; [done | intros [=] | done | done | done | done].
Qed.

(** C1. A confirmation that carries a token (a payload; the handler takes
    an empty payload for none) is reconciled as follows.  When the token is
    a key of the pending table, the token is removed and the entry of its
    record is put into the round state of the record's chat; a second
    confirmation with the same token then only gets the reply that no round
    was found, and changes no table.  When the token is not a key of the
    pending table, the handler only sends that reply and changes no
    table. *)
Theorem token_consumed_at_most_once
    (env : settings) (upd : update) (tok : str) (t : tables)
    (outs : list (option exn)) :
  successful_payment upd = Some tok →
  let r := exec (successful_payment_handler env upd) t outs in
  (∀ record,
     truthy tok = true → pending t !! tok = Some record →
     let ck := chat_id record in
     pending (mem r.2) = delete tok (pending t) ∧
     players (mem r.2) !! ck =
       Some (dict_set (user_id record)
               {| username := pending_username record;
                  choice := pending_choice record |}
               (default [] (players t !! ck))) ∧
     ∀ outs',
       exec (successful_payment_handler env upd) (mem r.2) outs' =
       just_replied MsgNoRoundFound (mem r.2) outs') ∧
  (pending t !! tok = None → r = just_replied MsgNoRoundFound t outs).
Proof.
  intros Hpay. cbv zeta. split.
  - intros record Htok Hrec.
    pose proof (matched_record_found t upd tok record Hpay Htok Hrec) as Hm.
    rewrite (payment_matched env upd t outs tok record Hm).
    match goal with |- context [after_registration env record ?r0] =>
      destruct (after_registration_run env record r0
                  (dict_set (user_id record)
                     {| username := pending_username record;
                        choice := pending_choice record |}
                     (default [] (players t !! chat_id record))))
        as (Hmem & _ & _)
    end.
    { simpl. apply lookup_insert_eq. }
    { reflexivity. }
    rewrite Hmem. simpl. split_and!; [done | apply lookup_insert_eq |].
    intros outs'. apply payment_not_matched.
    apply (matched_record_absent _ upd tok Hpay). simpl.
    apply lookup_delete_eq.
  - intros Habs. apply payment_not_matched.
    by apply (matched_record_absent t upd tok).
Qed.

(** C3, as amended. In a reconciliation that matched a record, the round
    execution of the record's chat is scheduled only if the number of
    entries of the chat after the insertion has reached the chat's
    threshold; and when the handler runs to its end, it is scheduled if
    and only if the count has reached the threshold.  So after a
    reconciliation that ran to its end and scheduled nothing, the count of
    the record's chat is below its threshold, and in particular at most
    the threshold.  Nothing is said of the other chats, and nothing of a
    handler that raises. *)
Theorem execution_scheduled_iff_threshold_reached
    (env : settings) (upd : update) (t : tables) (outs : list (option exn))
    (payload : str) (record : pending_record) :
  matched_record t upd = Some (payload, record) →
  let r := exec (successful_payment_handler env upd) t outs in
  let ck := chat_id record in
  let cnt := Z.of_nat (count (mem r.2) ck) in
  let thr := get_max_players_for_chat env (mem r.2) ck in
  (spawned r.2 ≠ [] →
     thr ≤ cnt ∧ ∃ c, Py.int ck = Some c ∧ spawned r.2 = [ExecuteRound c]) ∧
  (r.1 = Ret () →
     ((∃ c, Py.int ck = Some c ∧ spawned r.2 = [ExecuteRound c]) ↔ thr ≤ cnt) ∧
     (spawned r.2 = [] ↔ cnt < thr) ∧
     (spawned r.2 = [] → cnt ≤ thr)).
Proof.
  intros Hm. cbv zeta.
  rewrite (payment_matched env upd t outs payload record Hm).
  match goal with |- context [after_registration env record ?r0] =>
    destruct (after_registration_run env record r0
                (dict_set (user_id record)
                   {| username := pending_username record;
                      choice := pending_choice record |}
                   (default [] (players t !! chat_id record))))
      as (Hmem & Hspawn & Hraise);
    [simpl; apply lookup_insert_eq | reflexivity |];
    set (end_ := after_registration env record r0) in *
  end.
  rewrite Hmem. simpl in Hspawn |- *.
  unfold count. simpl. rewrite lookup_insert_eq. simpl.
  destruct (end_.1) as [[]|e] eqn:Hend.
  - specialize (Hspawn eq_refl).
    destruct (Z.leb_spec
      (get_max_players_for_chat env (registered payload record t)
         (chat_id record))
      (Z.of_nat (length (dict_set (user_id record)
         {| username := pending_username record;
            choice := pending_choice record |}
         (default [] (players t !! chat_id record)))))) as [Hle|Hlt].
    + destruct Hspawn as (c & Hint & Hsp). rewrite Hsp.
      split; [eauto|]. intros _.
      split_and!; [split; eauto | split; [done | lia] | done].
    + rewrite Hspawn. split; [done|]. intros _.
      split_and!; [split; [intros (c & _ & [=]) | lia] | done | lia].
  - rewrite (Hraise e eq_refl). split; [done | intros [=]].
Qed.

(** ** Commands *)

(** The admin check never raises and only looks up the member. *)
Lemma is_user_admin_run pf c u r :
  is_user_admin pf c u r =
  (Ret (admin_answer pf),
   {| mem := mem r; sends := sends r;
      trace := trace r ++ [Call (GetChatMember c u) (member_outcome pf)];
      spawned := spawned r |}).
Proof.
  unfold is_user_admin, admin_answer, member_outcome. unfold_run.
  by destruct (member_reply pf).
Qed.

Lemma str_of_int_truthy (n : Z) : truthy (str_of_int n) = true.
Proof.
  unfold str_of_int. by destruct (Z.to_int n) as [[]|[]].
Qed.

(** Outside a group the four guarded commands only refuse. *)
Lemma guarded_commands_refuse_outside_group env pf upd c t outs :
  effective_chat upd = Some c → in_group c = false →
  exec (status_cmd env upd) t outs =
    just_replied (MsgGroupOnly CmdStatus) t outs ∧
  exec (reset_cmd pf upd) t outs =
    just_replied (MsgGroupOnly CmdReset) t outs ∧
  exec (setlimit_cmd env pf upd) t outs =
    just_replied (MsgGroupOnly CmdSetlimit) t outs ∧
  exec (forcestart_cmd pf upd) t outs =
    just_replied (MsgGroupOnly CmdForcestart) t outs.
Proof.
  intros Hc Hg.
  unfold status_cmd, reset_cmd, setlimit_cmd, forcestart_cmd, just_replied.
  unfold_run. rewrite Hc. cbn. rewrite Hg. cbn.
  by destruct (hd None outs).
Qed.

(** [/winners] has no such guard: it answers from the snapshot stored under
    the key of whatever chat it is sent in, and never changes a table. *)
Lemma winners_cmd_run upd c t outs :
  effective_chat upd = Some c →
  exec (winners_cmd upd) t outs =
  just_replied
    match last_round t !! chat_key (chat_ident c) with
    | None => MsgNoLastRound
    | Some data =>
        match winners data with
        | _ :: _ => MsgLastWinners (result data) (winners data)
        | [] => MsgLastNobody (result data)
        end
    end t outs.
Proof.
  intros Hc. unfold winners_cmd, just_replied. unfold_run. rewrite Hc. cbn.
  unfold chat_key. rewrite str_of_int_truthy. cbn.
  destruct (last_round t !! str_of_int (chat_ident c)) as [data|]; cbn.
  - destruct (winners data); cbn; by destruct (hd None outs).
  - by destruct (hd None outs).
Qed.

(** [/reset] of an administrator in a group. *)
Lemma reset_cmd_run pf upd c t outs :
  effective_chat upd = Some c → in_group c = true → admin_answer pf = true →
  let ck := chat_key (chat_ident c) in
  exec (reset_cmd pf upd) t outs =
  (raised (hd None outs),
   {| mem := cleared ck t;
      sends := tl outs;
      trace := [Call (GetChatMember (chat_ident c)
                        (user_ident (effective_user upd))) (member_outcome pf)]
               ++ saved_all (cleared ck t)
               ++ [Call (ReplyText MsgRoundReset) (hd None outs)];
      spawned := [] |}).
Proof.
  intros Hc Hg Ha. unfold reset_cmd.
  unfold exec, the_chat, mbind, M_bind at 1 2. rewrite Hc. cbn.
  rewrite Hg. cbn. rewrite is_user_admin_run, Ha. unfold_run. cbn.
  by destruct (hd None outs).
Qed.

Lemma limited_threshold env ck n t :
  get_max_players_for_chat env (limited ck n t) ck = n.
Proof.
  unfold get_max_players_for_chat, limited. simpl.
  by rewrite !lookup_insert_eq.
Qed.

Lemma limited_threshold_other env ck ck' n t :
  ck ≠ ck' →
  get_max_players_for_chat env (limited ck n t) ck' =
  get_max_players_for_chat env t ck'.
Proof.
  intros Hne. unfold get_max_players_for_chat, limited. simpl.
  by rewrite lookup_insert_ne.
Qed.

(** [/setlimit a ...] of an administrator in a group. *)
Lemma setlimit_cmd_run env pf upd c a rest t outs :
  effective_chat upd = Some c → in_group c = true → admin_answer pf = true →
  args upd = a :: rest →
  let ck := chat_key (chat_ident c) in
  let asked := Call (GetChatMember (chat_ident c)
                       (user_ident (effective_user upd))) (member_outcome pf) in
  exec (setlimit_cmd env pf upd) t outs =
  match Py.int a with
  | Some n =>
      if n <=? 0 then
        (raised (hd None outs),
         {| mem := t; sends := tl outs;
            trace := [asked; Call (ReplyText MsgLimitUsage) (hd None outs)];
            spawned := [] |})
      else
        (raised (hd None outs),
         {| mem := limited ck n t; sends := tl outs;
            trace := [asked; Save (ConfigFile (config (limited ck n t)));
                      Call (ReplyText (MsgLimitChanged n)) (hd None outs)];
            spawned := [] |})
  | None =>
      (raised (hd None outs),
       {| mem := t; sends := tl outs;
          trace := [asked; Call (ReplyText MsgLimitUsage) (hd None outs)];
          spawned := [] |})
  end.
Proof.
  intros Hc Hg Ha Hargs. unfold setlimit_cmd, set_max_players_for_chat.
  unfold exec, the_chat, mbind, M_bind at 1 2. rewrite Hc. cbn.
  rewrite Hg. cbn. rewrite is_user_admin_run, Ha, Hargs. unfold_run. cbn.
  destruct (Py.int a) as [n|]; cbn.
  - destruct (n <=? 0); cbn; by destruct (hd None outs).
  - by destruct (hd None outs).
Qed.

(** C8. An administrator sends [/setlimit a ...] in a group.  When [a]
    reads as an integer [n > 0], the chat's threshold in the configuration
    becomes [n] (the other keys of the chat's configuration and the other
    tables stay), and the configuration file is written with it.  When [a]
    reads as an integer [n <= 0] or does not read as an integer, the command
    replies with the usage hint, no table changes and nothing is written:
    the threshold is what it was. *)
Theorem setlimit_sets_positive_rejects_rest
    (env : settings) (pf : platform) (upd : update) (c : chat) (a : str)
    (rest : list str) (t : tables) (outs : list (option exn)) :
  effective_chat upd = Some c → in_group c = true → admin_answer pf = true →
  args upd = a :: rest →
  let ck := chat_key (chat_ident c) in
  let r := exec (setlimit_cmd env pf upd) t outs in
  (∀ n, Py.int a = Some n → 0 < n →
     get_max_players_for_chat env (mem r.2) ck = n ∧
     config (mem r.2) =
       <[ck := <[max_players_key := JInt n]> (default ∅ (config t !! ck))]>
         (config t) ∧
     players (mem r.2) = players t ∧ pending (mem r.2) = pending t ∧
     last_round (mem r.2) = last_round t ∧
     Save (ConfigFile (config (mem r.2))) ∈ trace r.2 ∧
     Call (ReplyText (MsgLimitChanged n)) (hd None outs) ∈ trace r.2) ∧
  (Py.int a = None ∨ (∃ n, Py.int a = Some n ∧ n ≤ 0) →
     mem r.2 = t ∧
     get_max_players_for_chat env (mem r.2) ck =
       get_max_players_for_chat env t ck ∧
     Call (ReplyText MsgLimitUsage) (hd None outs) ∈ trace r.2 ∧
     ∀ img, Save img ∉ trace r.2).
Proof.
  intros Hc Hg Ha Hargs. cbv zeta.
  rewrite (setlimit_cmd_run env pf upd c a rest t outs Hc Hg Ha Hargs).
  split.
  - intros n -> Hn. destruct (Z.leb_spec n 0) as [?|_]; [lia|]. simpl.
    split_and!; try done.
    + apply limited_threshold.
    + by repeat constructor.
    + by repeat constructor.
  - assert (Hno : ∀ e o m img,
              Save img ∉ [Call e o; Call (ReplyText m) (hd None outs)]).
    { intros e o m img. rewrite !not_elem_of_cons. split_and!; try done.
      apply not_elem_of_nil. }
    intros [-> | (n & -> & Hn)].
    + simpl. split_and!; try done. by repeat constructor.
    + destruct (Z.leb_spec n 0) as [_|?]; [|lia]. simpl.
      split_and!; try done. by repeat constructor.
Qed.

(** C10. [/reset] of an administrator in a group removes the entry set of
    that chat from the players table and leaves the pending table, the
    configuration and the snapshots as they were, the pending records of
    that chat included.  So a payment confirmed afterwards for one of these
    records still consumes its token, and the payer is the one entry of the
    chat's new round. *)
Theorem reset_keeps_pending_payments
    (pf : platform) (upd : update) (c : chat) (t : tables)
    (outs : list (option exn)) :
  effective_chat upd = Some c → in_group c = true → admin_answer pf = true →
  let ck := chat_key (chat_ident c) in
  let t' := mem (exec (reset_cmd pf upd) t outs).2 in
  players t' = delete ck (players t) ∧
  pending t' = pending t ∧ config t' = config t ∧
  last_round t' = last_round t ∧
  ∀ env pay tok record outs',
    successful_payment pay = Some tok → truthy tok = true →
    pending t !! tok = Some record → chat_id record = ck →
    let t'' := mem (exec (successful_payment_handler env pay) t' outs').2 in
    pending t'' = delete tok (pending t) ∧
    players t'' !! ck =
      Some [(user_id record,
             {| username := pending_username record;
                choice := pending_choice record |})].
Proof.
  intros Hc Hg Ha. cbv zeta.
  rewrite (reset_cmd_run pf upd c t outs Hc Hg Ha). simpl.
  split_and!; try done.
  intros env pay tok record outs' Hpay Htok Hrec Hck.
  pose proof (matched_record_found
    (cleared (chat_key (chat_ident c)) t) pay tok record Hpay Htok Hrec) as Hm.
  rewrite (payment_matched env pay _ outs' tok record Hm).
  match goal with |- context [after_registration env record ?r0] =>
    destruct (after_registration_run env record r0
                [(user_id record,
                  {| username := pending_username record;
                     choice := pending_choice record |})])
      as (Hmem & _ & _)
  end.
  { simpl. rewrite Hck, lookup_delete_eq. simpl. apply lookup_insert_eq. }
  { reflexivity. }
  rewrite Hmem. simpl. split; [done|].
  rewrite <- Hck, lookup_insert_eq. by rewrite Hck, lookup_delete_eq.
Qed.

(** ** Entry admission *)

(** A text that is no digit string once stripped is ordinary chat. *)
Lemma admission_ignores_chat env pf upd t outs :
  isdigit (entry_text upd) = false →
  is_Some (effective_chat upd) →
  exec (handle_group_message env pf upd) t outs = (Ret (), start t outs).
Proof.
  intros Hd [c Hc]. unfold handle_group_message, entry_text in *. unfold_run.
  rewrite Hc. cbn. destruct (in_group c); cbn; [|done].
  by rewrite Hd.
Qed.

(** A number below 1 or above 6 is dropped. *)
Lemma admission_ignores_out_of_range env pf upd t outs v :
  Py.int (entry_text upd) = Some v → v < 1 ∨ 6 < v →
  is_Some (effective_chat upd) →
  exec (handle_group_message env pf upd) t outs = (Ret (), start t outs).
Proof.
  intros Hv Hout [c Hc]. unfold handle_group_message, entry_text in *.
  unfold_run. rewrite Hc. cbn. destruct (in_group c); cbn; [|done].
  destruct (isdigit _); cbn; [|done].
  rewrite Hv. cbn.
  assert ((v <? 1) || (6 <? v) = true) as ->; [|done].
  apply orb_true_iff. rewrite !Z.ltb_lt. lia.
Qed.

(** C5, as the code has it.  The handler reads the text with the
    surrounding whitespace stripped.  When that text is empty or has a
    character that is not a digit, or when it reads as an integer outside
    [1,6], the handler returns without raising, calls nothing and leaves
    every table as it was. *)
Theorem non_entries_are_ignored
    (env : settings) (pf : platform) (upd : update) (c : chat) (t : tables)
    (outs : list (option exn)) :
  effective_chat upd = Some c →
  isdigit (entry_text upd) = false ∨
    (∃ v, Py.int (entry_text upd) = Some v ∧ (v < 1 ∨ 6 < v)) →
  let r := exec (handle_group_message env pf upd) t outs in
  r.1 = Ret () ∧ mem r.2 = t ∧ trace r.2 = [] ∧ spawned r.2 = [] ∧
  sends r.2 = outs.
Proof.
  intros Hc Hcase. cbv zeta.
  assert (Hsome : is_Some (effective_chat upd)) by (by exists c).
  destruct Hcase as [Hd | (v & Hv & Hout)].
  - by rewrite (admission_ignores_chat env pf upd t outs Hd Hsome).
  - by rewrite (admission_ignores_out_of_range env pf upd t outs v Hv Hout
                  Hsome).
Qed.

(** A text of digits that [int] rejects makes the handler raise, before
    anything is read or written. *)
Lemma admission_raises_on_rejected_digits env pf upd c t outs :
  effective_chat upd = Some c → in_group c = true →
  isdigit (entry_text upd) = true → Py.int (entry_text upd) = None →
  exec (handle_group_message env pf upd) t outs =
  (Raise ValueError, start t outs).
Proof.
  intros Hc Hg Hd Hi. unfold handle_group_message, entry_text in *.
  unfold_run. rewrite Hc. cbn. rewrite Hg. cbn. rewrite Hd. cbn.
  by rewrite Hi.
Qed.

(** So does every text of digits of which one is not decimal, a
    superscript or a circled digit for one. *)
Lemma admission_raises_on_other_digit env pf upd c t outs :
  effective_chat upd = Some c → in_group c = true →
  isdigit (entry_text upd) = true →
  forallb isdecimal_char (entry_text upd) = false →
  exec (handle_group_message env pf upd) t outs =
  (Raise ValueError, start t outs).
Proof.
  intros Hc Hg Hd Hdec.
  apply (admission_raises_on_rejected_digits env pf upd c); try done.
  by apply int_other_digit.
Qed.

(** A plain numeral for a number outside [1,6] is dropped. *)
Lemma numeral_outside_range_ignored env pf upd c s t outs :
  effective_chat upd = Some c → text upd = Some s →
  s ≠ [] → ascii_digits s → (length s ≤ max_str_digits)%nat →
  (numeral_value s < 1 ∨ 6 < numeral_value s)%N →
  exec (handle_group_message env pf upd) t outs = (Ret (), start t outs).
Proof.
  intros Hc Ht Hne Hs Hlen Hout.
  apply (admission_ignores_out_of_range env pf upd t outs
           (Z.of_N (numeral_value s))); [| lia | by exists c].
  unfold entry_text. rewrite Ht. simpl. rewrite (strip_numeral s Hs).
  by apply int_numeral.
Qed.

Section Admission.
Variable env : settings.
Variable pf : platform.
Variable upd : update.
Variable c : chat.
Variable t : tables.
Variable n : Z.
Variable uname : str.

Hypothesis Hchat : effective_chat upd = Some c.
Hypothesis Hgroup : in_group c = true.
Hypothesis Hdigits : isdigit (entry_text upd) = true.
Hypothesis Hvalue : Py.int (entry_text upd) = Some n.
Hypothesis Hrange : 1 ≤ n ≤ 6.
Hypothesis Huser : user_username (effective_user upd) = Some uname.
Hypothesis Hnamed : uname ≠ [].
Hypothesis Hnew :
  dict_get (user_key (user_ident (effective_user upd)))
           (default [] (players t !! chat_key (chat_ident c))) = None.

(** The invoice call raises and the failure notice is delivered: the
    record is removed again and the tables are saved without it. *)
Lemma admission_rolled_back outs e :
  hd None outs = Some e → hd None (tl outs) = None →
  let u := effective_user upd in
  let ck := chat_key (chat_ident c) in
  let payload := make_payload (uuid_hex pf) in
  let record := {| chat_id := ck; user_id := user_key (user_ident u);
                   pending_username := lit "@" ++ uname;
                   pending_choice := n |} in
  let t1 := awaiting ck payload record t in
  let t2 := with_pending (delete payload) t1 in
  exec (handle_group_message env pf upd) t outs =
  (Ret (),
   {| mem := t2;
      sends := tl (tl outs);
      trace := saved_all t1
               ++ [ Call (SendInvoice (user_ident u) payload n
                            (PRICE_STARS env * AMOUNT_MULTIPLIER env))
                         (Some e);
                    Log LogWarning;
                    Call (ReplyText (MsgInvoiceFailed (first_name u))) None ]
               ++ saved_all t2;
      spawned := [] |}).
Proof.
  intros Ho1 Ho2. cbv zeta.
  unfold handle_group_message, awaiting, entry_text in *. unfold_run.
  rewrite Hchat. cbn. rewrite Hgroup. cbn. rewrite Hdigits. cbn.
  rewrite Hvalue. cbn.
  assert ((n <? 1) || (6 <? n) = false) as ->.
  { apply orb_false_iff. rewrite !Z.ltb_ge. lia. }
  rewrite Huser. destruct uname as [|u0 us]; [done|]. cbn.
  destruct (players t !! chat_key (chat_ident c)) as [d|] eqn:Hd; cbn.
  - rewrite Hd. cbn. cbn in Hnew. rewrite Hnew. cbn.
    rewrite Ho1. cbn. rewrite Ho2. by cbn.
  - rewrite lookup_insert_eq. cbn. rewrite Ho1. cbn. rewrite Ho2. by cbn.
Qed.

(** The invoice call raises and the failure notice raises too: the
    handler ends with that exception before the record is removed. *)
Lemma admission_rollback_skipped outs e e' :
  hd None outs = Some e → hd None (tl outs) = Some e' →
  let u := effective_user upd in
  let ck := chat_key (chat_ident c) in
  let payload := make_payload (uuid_hex pf) in
  let record := {| chat_id := ck; user_id := user_key (user_ident u);
                   pending_username := lit "@" ++ uname;
                   pending_choice := n |} in
  let t1 := awaiting ck payload record t in
  exec (handle_group_message env pf upd) t outs =
  (Raise e',
   {| mem := t1;
      sends := tl (tl outs);
      trace := saved_all t1
               ++ [ Call (SendInvoice (user_ident u) payload n
                            (PRICE_STARS env * AMOUNT_MULTIPLIER env))
                         (Some e);
                    Log LogWarning;
                    Call (ReplyText (MsgInvoiceFailed (first_name u)))
                         (Some e') ];
      spawned := [] |}).
Proof.
  intros Ho1 Ho2. cbv zeta.
  unfold handle_group_message, awaiting, entry_text in *. unfold_run.
  rewrite Hchat. cbn. rewrite Hgroup. cbn. rewrite Hdigits. cbn.
  rewrite Hvalue. cbn.
  assert ((n <? 1) || (6 <? n) = false) as ->.
  { apply orb_false_iff. rewrite !Z.ltb_ge. lia. }
  rewrite Huser. destruct uname as [|u0 us]; [done|]. cbn.
  destruct (players t !! chat_key (chat_ident c)) as [d|] eqn:Hd; cbn.
  - rewrite Hd. cbn. cbn in Hnew. rewrite Hnew. cbn.
    rewrite Ho1. cbn. rewrite Ho2. by cbn.
  - rewrite lookup_insert_eq. cbn. rewrite Ho1. cbn. rewrite Ho2. by cbn.
Qed.

(** The invoice is sent and the group is told so: the record waits. *)
Lemma admission_invoice_sent outs :
  hd None outs = None → hd None (tl outs) = None →
  let u := effective_user upd in
  let ck := chat_key (chat_ident c) in
  let payload := make_payload (uuid_hex pf) in
  let record := {| chat_id := ck; user_id := user_key (user_ident u);
                   pending_username := lit "@" ++ uname;
                   pending_choice := n |} in
  let t1 := awaiting ck payload record t in
  exec (handle_group_message env pf upd) t outs =
  (Ret (),
   {| mem := t1;
      sends := tl (tl outs);
      trace := saved_all t1
               ++ [ Call (SendInvoice (user_ident u) payload n
                            (PRICE_STARS env * AMOUNT_MULTIPLIER env)) None;
                    Call (ReplyText (MsgInvoiceSent (user_ident u))) None ];
      spawned := [] |}).
Proof.
  intros Ho1 Ho2. cbv zeta.
  unfold handle_group_message, awaiting, entry_text in *. unfold_run.
  rewrite Hchat. cbn. rewrite Hgroup. cbn. rewrite Hdigits. cbn.
  rewrite Hvalue. cbn.
  assert ((n <? 1) || (6 <? n) = false) as ->.
  { apply orb_false_iff. rewrite !Z.ltb_ge. lia. }
  rewrite Huser. destruct uname as [|u0 us]; [done|]. cbn.
  destruct (players t !! chat_key (chat_ident c)) as [d|] eqn:Hd; cbn.
  - rewrite Hd. cbn. cbn in Hnew. rewrite Hnew. cbn.
    rewrite Ho1. cbn. rewrite Ho2. by cbn.
  - rewrite lookup_insert_eq. cbn. rewrite Ho1. cbn. rewrite Ho2. by cbn.
Qed.
End Admission.

(** ** The claims on the fixtures *)

(** C1 on the fixtures.  Ann pays her invoice: the token leaves the pending
    table, she is in the round, and the same confirmation once more finds
    nothing. *)
Lemma token_consumed_witness :
  let upd := Scene.pays Scene.ann Scene.token in
  let r := exec (successful_payment_handler Scene.env upd)
             Scene.ann_pending [] in
  successful_payment upd = Some Scene.token ∧
  truthy Scene.token = true ∧
  pending Scene.ann_pending !! Scene.token = Some (Scene.ann_record 4) ∧
  pending (mem r.2) = delete Scene.token (pending Scene.ann_pending) ∧
  players (mem r.2) !! Scene.gk =
    Some [(user_key 42, {| username := lit "@ann"; choice := 4 |})] ∧
  exec (successful_payment_handler Scene.env upd) (mem r.2) [] =
    just_replied MsgNoRoundFound (mem r.2) [].
Proof.
  pose proof (token_consumed_at_most_once Scene.env
    (Scene.pays Scene.ann Scene.token) Scene.token Scene.ann_pending []
    eq_refl) as [Hfound _].
  assert (Hrec : pending Scene.ann_pending !! Scene.token
                 = Some (Scene.ann_record 4)) by (vm_compute; reflexivity).
  destruct (Hfound (Scene.ann_record 4) eq_refl Hrec) as (Hp & Hpl & Hagain).
  split_and!; [reflexivity | reflexivity | exact Hrec | exact Hp | exact Hpl
              | exact (Hagain [])].
Defined.

(** C3 on the fixtures.  Bob's payment is the second entry of a group limited
    to two: the round execution of the group is scheduled. *)
Lemma execution_scheduled_witness :
  let upd := Scene.pays Scene.bob Scene.token in
  let r := exec (successful_payment_handler Scene.env upd)
             Scene.bob_pending_limit_two [] in
  matched_record Scene.bob_pending_limit_two upd
    = Some (Scene.token, Scene.bob_record 2) ∧
  r.1 = Ret () ∧
  spawned r.2 = [ExecuteRound Scene.group_id] ∧
  count (mem r.2) Scene.gk = 2%nat ∧
  get_max_players_for_chat Scene.env (mem r.2) Scene.gk = 2.
Proof.
  assert (Hm : matched_record Scene.bob_pending_limit_two
                 (Scene.pays Scene.bob Scene.token)
               = Some (Scene.token, Scene.bob_record 2))
    by (vm_compute; reflexivity).
  assert (Hret : (exec (successful_payment_handler Scene.env
                    (Scene.pays Scene.bob Scene.token))
                    Scene.bob_pending_limit_two []).1 = Ret ())
    by (vm_compute; reflexivity).
  destruct (execution_scheduled_iff_threshold_reached Scene.env
              (Scene.pays Scene.bob Scene.token) Scene.bob_pending_limit_two []
              Scene.token (Scene.bob_record 2) Hm) as [_ Hdone].
  destruct (Hdone Hret) as (Hiff & _ & _).
  assert (Hcnt : count (mem (exec (successful_payment_handler Scene.env
                    (Scene.pays Scene.bob Scene.token))
                    Scene.bob_pending_limit_two []).2) Scene.gk = 2%nat)
    by (vm_compute; reflexivity).
  assert (Hthr : get_max_players_for_chat Scene.env
                   (mem (exec (successful_payment_handler Scene.env
                      (Scene.pays Scene.bob Scene.token))
                      Scene.bob_pending_limit_two []).2) Scene.gk = 2)
    by (vm_compute; reflexivity).
  destruct (proj2 Hiff) as (c & Hint & Hsp).
  { change (chat_id (Scene.bob_record 2)) with Scene.gk.
    rewrite Hthr, Hcnt. lia. }
  assert (Hc : c = Scene.group_id).
  { assert (Hg : Py.int (chat_id (Scene.bob_record 2)) = Some Scene.group_id)
      by (vm_compute; reflexivity).
    congruence. }
  subst c. split_and!; [exact Hm | exact Hret | exact Hsp | exact Hcnt
                       | exact Hthr].
Defined.

(** C4 at an input where it fails.  Ann sends [3] in the group; the invoice
    call raises, and so does the notice of the failure.  The handler ends
    with that exception, and the record it created is still pending. *)
Theorem pending_record_survives_failed_notice :
  let r := exec (handle_group_message Scene.env Scene.calm
                   (Scene.says Scene.ann (lit "3")))
             Scene.nothing Scene.both_raise in
  r.1 = Raise TelegramError ∧
  pending (mem r.2) !! Scene.token = Some (Scene.ann_record 3) ∧
  trace r.2 =
    saved_all (awaiting Scene.gk Scene.token (Scene.ann_record 3) Scene.nothing)
    ++ [ Call (SendInvoice 42 Scene.token 3 9) (Some TelegramError);
         Log LogWarning;
         Call (ReplyText (MsgInvoiceFailed (lit "Ann"))) (Some TelegramError) ].
Proof. vm_compute. done. Qed.

(** C5 fails as stated.  A text with a space before the digit is no digit
    string, and yet it is admitted: the stripped text is an entry, and a
    record is created. *)
Lemma padded_entry_is_admitted :
  let upd := Scene.says Scene.ann (lit " 5") in
  let r := exec (handle_group_message Scene.env Scene.calm upd)
             Scene.nothing [] in
  isdigit (lit " 5") = false ∧
  r.1 = Ret () ∧
  pending Scene.nothing !! Scene.token = None ∧
  pending (mem r.2) !! Scene.token = Some (Scene.ann_record 5).
Proof. vm_compute. done. Qed.

(** A superscript two is a digit for [isdigit] and no number for [int]: the
    handler raises. *)
Lemma superscript_digit_raises :
  exec (handle_group_message Scene.env Scene.calm
          (Scene.says Scene.ann [178%N])) Scene.nothing [] =
  (Raise ValueError, start Scene.nothing []).
Proof. vm_compute. done. Qed.

(** C5 on the fixtures.  Ordinary chat and a seven are both dropped. *)
Lemma non_entries_witness :
  exec (handle_group_message Scene.env Scene.calm
          (Scene.says Scene.ann (lit "hello"))) Scene.nothing [] =
    (Ret (), start Scene.nothing []) ∧
  exec (handle_group_message Scene.env Scene.calm
          (Scene.says Scene.ann (lit "7"))) Scene.nothing [] =
    (Ret (), start Scene.nothing []).
Proof.
  split.
  - destruct (non_entries_are_ignored Scene.env Scene.calm
                (Scene.says Scene.ann (lit "hello")) Scene.group
                Scene.nothing [] eq_refl) as (Hret & Hmem & Htr & Hsp & Hse);
      [left; vm_compute; reflexivity |].
    destruct (exec _ _ _) as [o [m se tr sp]]; simpl in *. by subst.
  - destruct (non_entries_are_ignored Scene.env Scene.calm
                (Scene.says Scene.ann (lit "7")) Scene.group
                Scene.nothing [] eq_refl) as (Hret & Hmem & Htr & Hsp & Hse);
      [right; exists 7; split; [vm_compute; reflexivity | lia] |].
    destruct (exec _ _ _) as [o [m se tr sp]]; simpl in *. by subst.
Defined.

(** [/winners] has no test of the chat of its own.  If the snapshots read
    at the start held one under the key of Ann's private chat, she would be
    told its result and winners there.  No run of the program writes such
    a snapshot (see [reachable_keeps_groups] below): it takes a file
    written by hand. *)
Lemma winners_answers_in_private_chat :
  in_group (Scene.private_of Scene.ann) = false ∧
  exec (winners_cmd (Scene.commands Scene.ann (Scene.private_of Scene.ann) []))
       Scene.snapshot_under_private_key [] =
  just_replied (MsgLastWinners 3 [lit "@bob"])
    Scene.snapshot_under_private_key [].
Proof. vm_compute. done. Qed.

(** C6 fails as stated.  The dice call raises in a round with two players: no
    result is drawn, no winner is computed or announced, no snapshot is
    written; the chat only gets the error notice and the round is cleared. *)
Lemma dice_failure_aborts_round :
  let r := exec (execute_round Scene.env Scene.dice_down Scene.group_id)
             Scene.two_players [] in
  r.1 = Ret () ∧
  trace r.2 =
    [ Call (SendDice Scene.group_id) (Some TelegramError);
      Log LogException;
      Call (SendMessage Scene.group_id (MsgRoundError TelegramError)) None ]
    ++ saved_all Scene.nothing ∧
  last_round (mem r.2) = ∅ ∧
  players (mem r.2) = ∅.
Proof. vm_compute. done. Qed.

(** C6 on the fixtures.  The dice call returns a message without a dice: the
    local draw decides (here a 2, Bob's number), and the announcement goes
    out; with the dice call raising, the run is the aborted one. *)
Lemma dice_fallback_witness :
  let r := exec (execute_round Scene.env Scene.dice_silent Scene.group_id)
             Scene.two_players [] in
  dice_reply Scene.dice_silent = inr {| dice := None |} ∧
  randint 1 6 (entropy Scene.dice_silent) = 2 ∧
  Call (SendMessage Scene.group_id (MsgRoundWinners 2 [lit "@bob"] 25)) None
    ∈ trace r.2 ∧
  dice_reply Scene.dice_down = inl TelegramError ∧
  last_round (mem (exec (execute_round Scene.env Scene.dice_down Scene.group_id)
                     Scene.two_players []).2) = last_round Scene.two_players.
Proof.
  destruct (dice_fallback_only_without_value Scene.env Scene.dice_silent
              Scene.group_id Scene.two_players []) as [Hsilent _].
  destruct (Hsilent {| dice := None |} eq_refl (or_introl eq_refl))
    as (_ & _ & Hsent).
  destruct (dice_fallback_only_without_value Scene.env Scene.dice_down
              Scene.group_id Scene.two_players []) as [_ Hdown].
  destruct (Hdown TelegramError eq_refl) as (_ & Hlast & _).
  split_and!; [reflexivity | reflexivity | exact Hsent | reflexivity
              | exact Hlast].
Defined.

(** C9 fails as stated.  The dice shows 4 and Ann has chosen 4, but the
    announcement raises: the result and the winner of this execution are not
    in the snapshot. *)
Lemma failed_announcement_leaves_no_snapshot :
  let r := exec (execute_round Scene.env Scene.calm Scene.group_id)
             Scene.two_players [Some TelegramError] in
  round_result Scene.calm {| dice := Some (Some 4) |} = 4 ∧
  round_winners Scene.two_players Scene.gk 4 = [lit "@ann"] ∧
  r.1 = Ret () ∧
  last_round (mem r.2) !! Scene.gk = None.
Proof. vm_compute. done. Qed.

(** C9 on the fixtures.  The dice shows 4 and the announcement is delivered:
    the snapshot of the group is that result with Ann as the winner. *)
Lemma snapshot_witness :
  let r := exec (execute_round Scene.env Scene.calm Scene.group_id)
             Scene.two_players [] in
  dice_reply Scene.calm = inr {| dice := Some (Some 4) |} ∧
  last_round (mem r.2) !! Scene.gk =
    Some {| result := 4; winners := [lit "@ann"] |} ∧
  last_round (mem (exec (execute_round Scene.env Scene.calm Scene.group_id)
                     Scene.two_players [Some TelegramError]).2)
    = last_round Scene.two_players.
Proof.
  destruct (snapshot_of_own_chat_when_announced Scene.env Scene.calm
              Scene.group_id Scene.two_players []) as (_ & Hok & _).
  destruct (snapshot_of_own_chat_when_announced Scene.env Scene.calm
              Scene.group_id Scene.two_players [Some TelegramError])
    as (_ & _ & Hfail).
  split_and!; [reflexivity | exact (Hok _ eq_refl eq_refl) |].
  apply Hfail. right. by exists TelegramError.
Defined.

(** C8 on the fixtures.  Ann, an administrator, sets the limit of the group to
    50, and is refused a limit of 0. *)
Lemma setlimit_witness :
  let set := Scene.commands Scene.ann Scene.group [lit "50"] in
  let zero := Scene.commands Scene.ann Scene.group [lit "0"] in
  admin_answer Scene.calm = true ∧
  Py.int (lit "50") = Some 50 ∧
  get_max_players_for_chat Scene.env
    (mem (exec (setlimit_cmd Scene.env Scene.calm set) Scene.nothing []).2)
    Scene.gk = 50 ∧
  Py.int (lit "0") = Some 0 ∧
  mem (exec (setlimit_cmd Scene.env Scene.calm zero) Scene.nothing []).2
    = Scene.nothing.
Proof.
  destruct (setlimit_sets_positive_rejects_rest Scene.env Scene.calm
              (Scene.commands Scene.ann Scene.group [lit "50"]) Scene.group
              (lit "50") [] Scene.nothing [] eq_refl eq_refl eq_refl eq_refl)
    as [Hset _].
  destruct (Hset 50) as (Hthr & _); [vm_compute; reflexivity | lia |].
  destruct (setlimit_sets_positive_rejects_rest Scene.env Scene.calm
              (Scene.commands Scene.ann Scene.group [lit "0"]) Scene.group
              (lit "0") [] Scene.nothing [] eq_refl eq_refl eq_refl eq_refl)
    as [_ Hrej].
  destruct Hrej as (Hmem & _).
  { right. exists 0. split; [vm_compute; reflexivity | lia]. }
  split_and!; [reflexivity | vm_compute; reflexivity | exact Hthr
              | vm_compute; reflexivity | exact Hmem].
Defined.

(** C10 on the fixtures.  Bob's payment is awaited when Ann, an administrator,
    resets the round: Ann's entry goes, Bob's record stays, and his payment
    afterwards makes him the one entry of the new round. *)
Lemma reset_witness :
  let reset := Scene.commands Scene.ann Scene.group [] in
  let t' := mem (exec (reset_cmd Scene.calm reset)
                   Scene.bob_pending_limit_two []).2 in
  let t'' := mem (exec (successful_payment_handler Scene.env
                          (Scene.pays Scene.bob Scene.token)) t' []).2 in
  admin_answer Scene.calm = true ∧
  pending Scene.bob_pending_limit_two !! Scene.token
    = Some (Scene.bob_record 2) ∧
  players t' = delete Scene.gk (players Scene.bob_pending_limit_two) ∧
  pending t' = pending Scene.bob_pending_limit_two ∧
  pending t'' = delete Scene.token (pending Scene.bob_pending_limit_two) ∧
  players t'' !! Scene.gk =
    Some [(user_key 43, {| username := lit "@bob"; choice := 2 |})].
Proof.
  destruct (reset_keeps_pending_payments Scene.calm
              (Scene.commands Scene.ann Scene.group []) Scene.group
              Scene.bob_pending_limit_two [] eq_refl eq_refl eq_refl)
    as (Hpl & Hpe & _ & _ & Hpay).
  assert (Hrec : pending Scene.bob_pending_limit_two !! Scene.token
                 = Some (Scene.bob_record 2)) by (vm_compute; reflexivity).
  destruct (Hpay Scene.env (Scene.pays Scene.bob Scene.token) Scene.token
              (Scene.bob_record 2) [] eq_refl eq_refl Hrec eq_refl)
    as [Hpe' Hpl'].
  split_and!; [reflexivity | exact Hrec | exact Hpl | exact Hpe | exact Hpe'
              | exact Hpl'].
Defined.

(** The scenario of a round of two: Ann pays and is the first of two, so
    nothing is scheduled; Bob pays, the count reaches the limit and the
    execution is scheduled; the dice shows 4, Ann wins, the snapshot holds
    the result and the round state of the group is empty. *)
Example round_of_two :
  let a := exec (successful_payment_handler Scene.env
                   (Scene.pays Scene.ann Scene.token_of_ann))
             Scene.both_pending_limit_two [] in
  let b := exec (successful_payment_handler Scene.env
                   (Scene.pays Scene.bob Scene.token_of_bob))
             (mem a.2) [] in
  let e := exec (run_task Scene.env Scene.calm (ExecuteRound Scene.group_id))
             (mem b.2) [] in
  count (mem a.2) Scene.gk = 1%nat ∧ spawned a.2 = [] ∧
  count (mem b.2) Scene.gk = 2%nat ∧
  spawned b.2 = [ExecuteRound Scene.group_id] ∧
  last_round (mem e.2) !! Scene.gk =
    Some {| result := 4; winners := [lit "@ann"] |} ∧
  players (mem e.2) !! Scene.gk = None ∧
  pending (mem e.2) = ∅.
Proof. vm_compute. done. Qed.

(** * Further properties of the handlers *)

(** ** The administrator check and the commands *)

(** X1.  The administrator check fails closed: it never raises, it
    answers [true] exactly when the member lookup returns an administrator
    or the creator (so [false] when the lookup raises), and it changes no
    table, uses no send call and creates no task. *)
Theorem admin_check_fails_closed
    (pf : platform) (c u : Z) (r : run) :
  let res := is_user_admin pf c u r in
  (∃ b, res.1 = Ret b ∧
        (b = true ↔ member_reply pf = inr Administrator ∨
                    member_reply pf = inr Creator)) ∧
  mem res.2 = mem r ∧ sends res.2 = sends r ∧ spawned res.2 = spawned r ∧
  trace res.2 =
    trace r ++ [Call (GetChatMember c u)
                  match member_reply pf with
                  | inl e => Some e
                  | inr _ => None
                  end].
Proof.
  cbv zeta. unfold is_user_admin. unfold_run.
  destruct (member_reply pf) as [e|[]] eqn:Hm; cbn;
    (split; [eexists; split; [reflexivity|] | done]);
    split; try done; try (intros [[=]|[=]]); eauto.
Qed.

(** What a command does when the sender is no administrator: the lookup
    and the refusal. *)
Lemma admin_commands_refused_run env pf upd c t outs :
  effective_chat upd = Some c → in_group c = true → admin_answer pf = false →
  let asked := Call (GetChatMember (chat_ident c)
                       (user_ident (effective_user upd))) (member_outcome pf) in
  let refused cmd :=
    (raised (hd None outs),
     {| mem := t; sends := tl outs;
        trace := [asked; Call (ReplyText (MsgAdminOnly cmd)) (hd None outs)];
        spawned := [] |}) in
  exec (reset_cmd pf upd) t outs = refused CmdReset ∧
  exec (setlimit_cmd env pf upd) t outs = refused CmdSetlimit ∧
  exec (forcestart_cmd pf upd) t outs = refused CmdForcestart.
Proof.
  intros Hc Hg Ha. cbv zeta.
  split_and!.
  - unfold reset_cmd. unfold exec, the_chat, mbind, M_bind at 1 2.
    rewrite Hc. cbn. rewrite Hg. cbn. rewrite is_user_admin_run, Ha.
    unfold_run. cbn. by destruct (hd None outs).
  - unfold setlimit_cmd. unfold exec, the_chat, mbind, M_bind at 1 2.
    rewrite Hc. cbn. rewrite Hg. cbn. rewrite is_user_admin_run, Ha.
    unfold_run. cbn. by destruct (hd None outs).
  - unfold forcestart_cmd. unfold exec, the_chat, mbind, M_bind at 1 2.
    rewrite Hc. cbn. rewrite Hg. cbn. rewrite is_user_admin_run, Ha.
    unfold_run. cbn. by destruct (hd None outs).
Qed.

(** X2.  In a group, [/reset], [/setlimit] and [/forcestart] of a sender
    who is no administrator, or whose membership cannot be looked up, do
    nothing but look the member up and reply with the refusal: no table
    changes, no file is written and no round is started. *)
Theorem admin_commands_need_an_administrator
    (env : settings) (pf : platform) (upd : update) (c : chat) (t : tables)
    (outs : list (option exn)) :
  effective_chat upd = Some c → in_group c = true → admin_answer pf = false →
  ∀ r cmd,
    (r, cmd) ∈ [ (exec (reset_cmd pf upd) t outs, CmdReset);
                 (exec (setlimit_cmd env pf upd) t outs, CmdSetlimit);
                 (exec (forcestart_cmd pf upd) t outs, CmdForcestart) ] →
    mem r.2 = t ∧ spawned r.2 = [] ∧ (∀ img, Save img ∉ trace r.2) ∧
    Call (ReplyText (MsgAdminOnly cmd)) (hd None outs) ∈ trace r.2.
Proof.
  intros Hc Hg Ha r cmd Hin.
  destruct (admin_commands_refused_run env pf upd c t outs Hc Hg Ha)
    as (Hreset & Hlimit & Hforce).
  assert (Hr : r = (raised (hd None outs),
                    {| mem := t; sends := tl outs;
                       trace := [ Call (GetChatMember (chat_ident c)
                                    (user_ident (effective_user upd)))
                                    (member_outcome pf);
                                  Call (ReplyText (MsgAdminOnly cmd))
                                    (hd None outs) ];
                       spawned := [] |})).
  { rewrite !elem_of_cons in Hin.
    destruct Hin as [[= -> ->] | [[= -> ->] | [[= -> ->] | Hin]]];
      [done | done | done | by apply elem_of_nil in Hin]. }
  subst r. simpl. split_and!; [done | done | | by repeat constructor].
  intros img. rewrite !not_elem_of_cons. split_and!; try done.
  apply not_elem_of_nil.
Qed.

(** X2 on the fixtures.  Ann is an ordinary member, and then her membership
    cannot be looked up: her reset of a round of two changes nothing. *)
Lemma admin_commands_witness :
  admin_answer Scene.guest = false ∧
  admin_answer Scene.lookup_down = false ∧
  mem (exec (reset_cmd Scene.guest
               (Scene.commands Scene.ann Scene.group []))
         Scene.two_players []).2 = Scene.two_players ∧
  mem (exec (reset_cmd Scene.lookup_down
               (Scene.commands Scene.ann Scene.group []))
         Scene.two_players []).2 = Scene.two_players.
Proof.
  split_and!; [reflexivity | reflexivity | |].
  - apply (admin_commands_need_an_administrator Scene.env Scene.guest
             (Scene.commands Scene.ann Scene.group []) Scene.group
             Scene.two_players [] eq_refl eq_refl eq_refl _ CmdReset).
    by left.
  - apply (admin_commands_need_an_administrator Scene.env Scene.lookup_down
             (Scene.commands Scene.ann Scene.group []) Scene.group
             Scene.two_players [] eq_refl eq_refl eq_refl _ CmdReset).
    by left.
Defined.

(** X3.  Outside a group (a private chat or a channel) [/status], [/reset],
    [/setlimit] and [/forcestart] only reply that the command works in a
    group: the sender's membership is not even looked up, no table
    changes, no file is written and no round is started. *)
Theorem guarded_commands_are_group_only
    (env : settings) (pf : platform) (upd : update) (c : chat) (t : tables)
    (outs : list (option exn)) :
  effective_chat upd = Some c → in_group c = false →
  ∀ r cmd,
    (r, cmd) ∈ [ (exec (status_cmd env upd) t outs, CmdStatus);
                 (exec (reset_cmd pf upd) t outs, CmdReset);
                 (exec (setlimit_cmd env pf upd) t outs, CmdSetlimit);
                 (exec (forcestart_cmd pf upd) t outs, CmdForcestart) ] →
    mem r.2 = t ∧ spawned r.2 = [] ∧
    trace r.2 = [Call (ReplyText (MsgGroupOnly cmd)) (hd None outs)].
Proof.
  intros Hc Hg r cmd Hin.
  destruct (guarded_commands_refuse_outside_group env pf upd c t outs Hc Hg)
    as (Hstatus & Hreset & Hlimit & Hforce).
  assert (Hr : r = just_replied (MsgGroupOnly cmd) t outs).
  { rewrite !elem_of_cons in Hin.
    destruct Hin
      as [[= -> ->] | [[= -> ->] | [[= -> ->] | [[= -> ->] | Hin]]]];
      [done | done | done | done | by apply elem_of_nil in Hin]. }
  by subst r.
Qed.

(** X3 on the fixtures.  Ann, an administrator of the group, sends
    [/reset] in her private chat: the round of two stays. *)
Lemma guarded_commands_witness :
  in_group (Scene.private_of Scene.ann) = false ∧
  mem (exec (reset_cmd Scene.calm
               (Scene.commands Scene.ann (Scene.private_of Scene.ann) []))
         Scene.two_players []).2 = Scene.two_players.
Proof.
  split; [reflexivity|].
  apply (guarded_commands_are_group_only Scene.env Scene.calm
           (Scene.commands Scene.ann (Scene.private_of Scene.ann) [])
           (Scene.private_of Scene.ann) Scene.two_players []
           eq_refl eq_refl _ CmdReset).
  right. by left.
Defined.

(** [/status] in a group. *)
Lemma status_cmd_run env upd c t outs :
  effective_chat upd = Some c → in_group c = true →
  let ck := chat_key (chat_ident c) in
  exec (status_cmd env upd) t outs =
  just_replied (MsgStatus (count t ck) (get_max_players_for_chat env t ck))
    t outs.
Proof.
  intros Hc Hg. unfold status_cmd, just_replied. unfold_run.
  rewrite Hc. cbn. rewrite Hg. cbn. by destruct (hd None outs).
Qed.

(** [/setlimit] without an argument, of an administrator in a group. *)
Lemma setlimit_cmd_asked_run env pf upd c t outs :
  effective_chat upd = Some c → in_group c = true → admin_answer pf = true →
  args upd = [] →
  let ck := chat_key (chat_ident c) in
  exec (setlimit_cmd env pf upd) t outs =
  (raised (hd None outs),
   {| mem := t; sends := tl outs;
      trace := [ Call (GetChatMember (chat_ident c)
                         (user_ident (effective_user upd)))
                      (member_outcome pf);
                 Call (ReplyText
                         (MsgCurrentLimit (get_max_players_for_chat env t ck)))
                      (hd None outs) ];
      spawned := [] |}).
Proof.
  intros Hc Hg Ha Hargs. unfold setlimit_cmd.
  unfold exec, the_chat, mbind, M_bind at 1 2. rewrite Hc. cbn.
  rewrite Hg. cbn. rewrite is_user_admin_run, Ha, Hargs. unfold_run. cbn.
  by destruct (hd None outs).
Qed.

(** [/forcestart] of an administrator in a group. *)
Lemma forcestart_cmd_run pf upd c t outs :
  effective_chat upd = Some c → in_group c = true → admin_answer pf = true →
  let ck := chat_key (chat_ident c) in
  exec (forcestart_cmd pf upd) t outs =
  (raised (hd None outs),
   {| mem := t; sends := tl outs;
      trace := [ Call (GetChatMember (chat_ident c)
                         (user_ident (effective_user upd)))
                      (member_outcome pf);
                 Call (ReplyText (MsgForceStart (count t ck)))
                      (hd None outs) ];
      spawned := match hd None outs with
                 | None => [ExecuteRound (chat_ident c)]
                 | Some _ => []
                 end |}).
Proof.
  intros Hc Hg Ha. unfold forcestart_cmd.
  unfold exec, the_chat, mbind, M_bind at 1 2. rewrite Hc. cbn.
  rewrite Hg. cbn. rewrite is_user_admin_run, Ha. unfold_run. cbn.
  by destruct (hd None outs).
Qed.

(** X4.  A limit set with [/setlimit n] is the limit that [/setlimit]
    without an argument and [/status] report afterwards for that group,
    whatever was configured before, and the limit of every other chat is
    what it was. *)
Theorem limit_set_is_limit_reported
    (env : settings) (pf : platform) (set ask look : update) (c : chat)
    (a : str) (rest : list str) (n : Z) (t : tables)
    (outs outs' : list (option exn)) :
  effective_chat set = Some c → effective_chat ask = Some c →
  effective_chat look = Some c → in_group c = true →
  admin_answer pf = true →
  args set = a :: rest → Py.int a = Some n → 0 < n → args ask = [] →
  let ck := chat_key (chat_ident c) in
  let t1 := mem (exec (setlimit_cmd env pf set) t outs).2 in
  Call (ReplyText (MsgCurrentLimit n)) (hd None outs')
    ∈ trace (exec (setlimit_cmd env pf ask) t1 outs').2 ∧
  exec (status_cmd env look) t1 outs' =
    just_replied (MsgStatus (count t ck) n) t1 outs' ∧
  ∀ ck', ck' ≠ ck →
    get_max_players_for_chat env t1 ck' = get_max_players_for_chat env t ck'.
Proof.
  intros Hset Hask Hlook Hg Ha Hargs Hint Hn Hnone. cbv zeta.
  rewrite (setlimit_cmd_run env pf set c a rest t outs Hset Hg Ha Hargs).
  rewrite Hint. destruct (Z.leb_spec n 0) as [?|_]; [lia|]. simpl.
  rewrite (setlimit_cmd_asked_run env pf ask c _ outs' Hask Hg Ha Hnone).
  rewrite (status_cmd_run env look c _ outs' Hlook Hg).
  rewrite limited_threshold. simpl. split_and!.
  - by repeat constructor.
  - done.
  - intros ck' Hne. by apply limited_threshold_other.
Qed.

(** X4 on the fixtures.  Ann sets the limit of the group to 50; the
    status then shows the two players out of 50. *)
Lemma limit_reported_witness :
  let set := Scene.commands Scene.ann Scene.group [lit "50"] in
  let ask := Scene.commands Scene.bob Scene.group [] in
  let t1 := mem (exec (setlimit_cmd Scene.env Scene.calm set)
                   Scene.two_players []).2 in
  admin_answer Scene.calm = true ∧ Py.int (lit "50") = Some 50 ∧
  exec (status_cmd Scene.env ask) t1 [] =
    just_replied (MsgStatus 2 50) t1 [].
Proof.
  assert (Hint : Py.int (lit "50") = Some 50) by (vm_compute; reflexivity).
  destruct (limit_set_is_limit_reported Scene.env Scene.calm
              (Scene.commands Scene.ann Scene.group [lit "50"])
              (Scene.commands Scene.bob Scene.group [])
              (Scene.commands Scene.bob Scene.group [])
              Scene.group (lit "50") [] 50 Scene.two_players [] []
              eq_refl eq_refl eq_refl eq_refl eq_refl eq_refl Hint
              ltac:(lia) eq_refl) as (_ & Hstatus & _).
  split_and!; [reflexivity | exact Hint | exact Hstatus].
Defined.

(** X5.  [/forcestart] of an administrator in a group replies with the
    current count and then starts the round of that group, however few
    have entered; it changes no table itself.  When the reply raises, no
    round is started. *)
Theorem forcestart_starts_round_whatever_the_count
    (pf : platform) (upd : update) (c : chat) (t : tables)
    (outs : list (option exn)) :
  effective_chat upd = Some c → in_group c = true → admin_answer pf = true →
  let r := exec (forcestart_cmd pf upd) t outs in
  mem r.2 = t ∧
  Call (ReplyText (MsgForceStart (count t (chat_key (chat_ident c)))))
       (hd None outs) ∈ trace r.2 ∧
  (hd None outs = None →
     r.1 = Ret () ∧ spawned r.2 = [ExecuteRound (chat_ident c)]) ∧
  (∀ e, hd None outs = Some e → r.1 = Raise e ∧ spawned r.2 = []).
Proof.
  intros Hc Hg Ha. cbv zeta.
  rewrite (forcestart_cmd_run pf upd c t outs Hc Hg Ha). simpl.
  split_and!; [done | by repeat constructor | by intros -> | by intros e ->].
Qed.

(** X5 on the fixtures.  Nobody has entered; Ann forces the start, and the
    round of the group is scheduled all the same. *)
Lemma forcestart_witness :
  let r := exec (forcestart_cmd Scene.calm
                   (Scene.commands Scene.ann Scene.group []))
             Scene.nothing [] in
  admin_answer Scene.calm = true ∧
  count Scene.nothing Scene.gk = 0%nat ∧
  r.1 = Ret () ∧ spawned r.2 = [ExecuteRound Scene.group_id].
Proof.
  destruct (forcestart_starts_round_whatever_the_count Scene.calm
              (Scene.commands Scene.ann Scene.group []) Scene.group
              Scene.nothing [] eq_refl eq_refl eq_refl)
    as (_ & _ & Hok & _).
  destruct (Hok eq_refl) as [Hret Hsp].
  split_and!; [reflexivity | reflexivity | exact Hret | exact Hsp].
Defined.

(** X6.  [/start], [/status], [/winners] and the pre-checkout answer only
    read: for every update, whatever the tables hold and whatever the
    platform answers, they change no table, write no file, create no task
    and make at most one call. *)
Theorem informational_handlers_only_read
    (env : settings) (upd : update) (t : tables) (outs : list (option exn)) :
  Forall (λ r : outcome unit * run,
            mem r.2 = t ∧ spawned r.2 = [] ∧ (∀ img, Save img ∉ trace r.2) ∧
            (length (trace r.2) ≤ 1)%nat)
    [ exec (start_private upd) t outs;
      exec (status_cmd env upd) t outs;
      exec (winners_cmd upd) t outs;
      exec (precheckout_handler upd) t outs ].
Proof.
  apply Forall_forall.
  assert (Hreply : ∀ rq o,
            (∀ img, Save img ∉ [Call rq o]) ∧ (length [Call rq o] ≤ 1)%nat).
  { intros rq o. split; [|done]. intros img.
    rewrite not_elem_of_cons. split; [done | apply not_elem_of_nil]. }
  assert (Hnone : (∀ img, Save img ∉ @nil effect) ∧
                  (length (@nil effect) ≤ 1)%nat).
  { split; [intros img; apply not_elem_of_nil | simpl; lia]. }
  intros r Hin. rewrite !elem_of_cons in Hin.
  destruct Hin as [-> | [-> | [-> | [-> | Hin]]]];
    [| | | | by apply elem_of_nil in Hin].
  - unfold start_private. unfold_run.
    destruct (effective_chat upd) as [c|]; cbn; [|by destruct Hnone].
    destruct (chat_type c); cbn; try (by destruct Hnone);
      destruct (hd None outs) eqn:Ho; cbn; split_and!; try done; apply Hreply.
  - unfold status_cmd. unfold_run.
    destruct (effective_chat upd) as [c|]; cbn; [|by destruct Hnone].
    destruct (in_group c); cbn; destruct (hd None outs) eqn:Ho; cbn;
      split_and!; try done; apply Hreply.
  - unfold winners_cmd. unfold_run.
    destruct (effective_chat upd) as [c|]; cbn.
    + unfold chat_key. rewrite str_of_int_truthy. cbn.
      destruct (last_round t !! str_of_int (chat_ident c)) as [data|]; cbn;
        [destruct (winners data); cbn|];
        destruct (hd None outs) eqn:Ho; cbn;
        split_and!; try done; apply Hreply.
    + by destruct Hnone.
  - unfold precheckout_handler. unfold_run.
    destruct (pre_checkout_query upd); cbn; [|by destruct Hnone].
    destruct (hd None outs) eqn:Ho; cbn; split_and!; try done; apply Hreply.
Qed.

(** X7.  [/reset] of an administrator in a group is no error when the
    group has no round: the tables are then what they were (and are saved
    again); a second reset changes nothing more, and [/status] afterwards
    reports no participant, with the limit the group had. *)
Theorem reset_is_idempotent
    (pf : platform) (upd look : update) (c : chat) (t : tables)
    (outs : list (option exn)) :
  effective_chat upd = Some c → effective_chat look = Some c →
  in_group c = true → admin_answer pf = true →
  let ck := chat_key (chat_ident c) in
  let r := exec (reset_cmd pf upd) t outs in
  (players t !! ck = None → mem r.2 = t) ∧
  (∀ outs', mem (exec (reset_cmd pf upd) (mem r.2) outs').2 = mem r.2) ∧
  (∀ env outs',
     exec (status_cmd env look) (mem r.2) outs' =
     just_replied (MsgStatus 0 (get_max_players_for_chat env t ck))
       (mem r.2) outs') ∧
  (∃ before after, trace r.2 = before ++ saved_all (mem r.2) ++ after).
Proof.
  intros Hc Hlook Hg Ha. cbv zeta.
  rewrite (reset_cmd_run pf upd c t outs Hc Hg Ha). simpl. split_and!.
  - intros Hnone. destruct t as [pl pe cf lr]. unfold cleared, with_players.
    simpl in *. by rewrite delete_id.
  - intros outs'. rewrite (reset_cmd_run pf upd c _ outs' Hc Hg Ha). simpl.
    unfold cleared, with_players. simpl. by rewrite delete_delete_eq.
  - intros env outs'. rewrite (status_cmd_run env look c _ outs' Hlook Hg).
    unfold count. simpl. by rewrite lookup_delete_eq.
  - by eexists [_], [_].
Qed.

(** X7 on the fixtures.  Ann resets the round of two, and the status shows
    nobody out of the default hundred. *)
Lemma reset_idempotent_witness :
  let reset := Scene.commands Scene.ann Scene.group [] in
  let t1 := mem (exec (reset_cmd Scene.calm reset) Scene.two_players []).2 in
  admin_answer Scene.calm = true ∧
  mem (exec (reset_cmd Scene.calm reset) t1 []).2 = t1 ∧
  exec (status_cmd Scene.env reset) t1 [] =
    just_replied (MsgStatus 0 100) t1 [].
Proof.
  destruct (reset_is_idempotent Scene.calm
              (Scene.commands Scene.ann Scene.group [])
              (Scene.commands Scene.ann Scene.group []) Scene.group
              Scene.two_players [] eq_refl eq_refl eq_refl eq_refl)
    as (_ & Hagain & Hstatus & _).
  split_and!; [reflexivity | exact (Hagain []) | exact (Hstatus Scene.env [])].
Defined.

(** ** Entry admission, the other paths *)

Section AdmissionPaths.
Variable env : settings.
Variable pf : platform.
Variable upd : update.
Variable c : chat.
Variable t : tables.
Variable n : Z.

Hypothesis Hchat : effective_chat upd = Some c.
Hypothesis Hgroup : in_group c = true.
Hypothesis Hdigits : isdigit (entry_text upd) = true.
Hypothesis Hvalue : Py.int (entry_text upd) = Some n.
Hypothesis Hrange : 1 ≤ n ≤ 6.

(** The sender has no username. *)
Lemma admission_without_username_run outs :
  user_username (effective_user upd) = None ∨
  user_username (effective_user upd) = Some [] →
  exec (handle_group_message env pf upd) t outs =
  just_replied (MsgNeedUsername (first_name (effective_user upd))) t outs.
Proof.
  intros Hname. unfold handle_group_message, just_replied, entry_text in *.
  unfold_run. rewrite Hchat. cbn. rewrite Hgroup. cbn. rewrite Hdigits. cbn.
  rewrite Hvalue. cbn.
  assert ((n <? 1) || (6 <? n) = false) as ->.
  { apply orb_false_iff. rewrite !Z.ltb_ge. lia. }
  destruct Hname as [-> | ->]; cbn; by destruct (hd None outs).
Qed.

(** The sender is in the round already. *)
Lemma admission_of_participant_run outs uname d e :
  user_username (effective_user upd) = Some uname → uname ≠ [] →
  players t !! chat_key (chat_ident c) = Some d →
  dict_get (user_key (user_ident (effective_user upd))) d = Some e →
  exec (handle_group_message env pf upd) t outs =
  just_replied (MsgAlreadyIn (first_name (effective_user upd))) t outs.
Proof.
  intros Huser Hne Hd He.
  unfold handle_group_message, just_replied, entry_text in *.
  unfold_run. rewrite Hchat. cbn. rewrite Hgroup. cbn. rewrite Hdigits. cbn.
  rewrite Hvalue. cbn.
  assert ((n <? 1) || (6 <? n) = false) as ->.
  { apply orb_false_iff. rewrite !Z.ltb_ge. lia. }
  rewrite Huser. destruct uname as [|u0 us]; [done|]. cbn.
  rewrite Hd. cbn. rewrite Hd. cbn. rewrite He. cbn.
  by destruct (hd None outs).
Qed.

(** The invoice is sent, the reply that says so raises, and the notice of
    a failure is delivered. *)
Lemma admission_reply_raises_run outs uname e :
  user_username (effective_user upd) = Some uname → uname ≠ [] →
  dict_get (user_key (user_ident (effective_user upd)))
           (default [] (players t !! chat_key (chat_ident c))) = None →
  hd None outs = None → hd None (tl outs) = Some e →
  hd None (tl (tl outs)) = None →
  let u := effective_user upd in
  let ck := chat_key (chat_ident c) in
  let payload := make_payload (uuid_hex pf) in
  let record := {| chat_id := ck; user_id := user_key (user_ident u);
                   pending_username := lit "@" ++ uname;
                   pending_choice := n |} in
  let t1 := awaiting ck payload record t in
  let t2 := with_pending (delete payload) t1 in
  exec (handle_group_message env pf upd) t outs =
  (Ret (),
   {| mem := t2;
      sends := tl (tl (tl outs));
      trace := saved_all t1
               ++ [ Call (SendInvoice (user_ident u) payload n
                            (PRICE_STARS env * AMOUNT_MULTIPLIER env)) None;
                    Call (ReplyText (MsgInvoiceSent (user_ident u))) (Some e);
                    Log LogWarning;
                    Call (ReplyText (MsgInvoiceFailed (first_name u))) None ]
               ++ saved_all t2;
      spawned := [] |}).
Proof.
  intros Huser Hne Hnew Ho1 Ho2 Ho3. cbv zeta.
  unfold handle_group_message, awaiting, entry_text in *. unfold_run.
  rewrite Hchat. cbn. rewrite Hgroup. cbn. rewrite Hdigits. cbn.
  rewrite Hvalue. cbn.
  assert ((n <? 1) || (6 <? n) = false) as ->.
  { apply orb_false_iff. rewrite !Z.ltb_ge. lia. }
  rewrite Huser. destruct uname as [|u0 us]; [done|]. cbn.
  destruct (players t !! chat_key (chat_ident c)) as [d|] eqn:Hd; cbn.
  - rewrite Hd. cbn. cbn in Hnew. rewrite Hnew. cbn.
    rewrite Ho1. cbn. rewrite Ho2. cbn. rewrite Ho3. by cbn.
  - rewrite lookup_insert_eq. cbn. rewrite Ho1. cbn. rewrite Ho2. cbn.
    rewrite Ho3. by cbn.
Qed.
End AdmissionPaths.

(** X8.  An entry (a number from 1 to 6 sent in a group) of a sender
    without a username, or with an empty one, is only answered with the
    request to set a username: no pending record is created, no invoice is
    requested and no table changes. *)
Theorem entry_without_username_is_refused
    (env : settings) (pf : platform) (upd : update) (c : chat) (t : tables)
    (n : Z) (outs : list (option exn)) :
  effective_chat upd = Some c → in_group c = true →
  isdigit (entry_text upd) = true → Py.int (entry_text upd) = Some n →
  1 ≤ n ≤ 6 →
  user_username (effective_user upd) = None ∨
  user_username (effective_user upd) = Some [] →
  let r := exec (handle_group_message env pf upd) t outs in
  mem r.2 = t ∧
  trace r.2 =
    [Call (ReplyText (MsgNeedUsername (first_name (effective_user upd))))
          (hd None outs)].
Proof.
  intros Hc Hg Hd Hv Hr Hname. cbv zeta.
  by rewrite (admission_without_username_run env pf upd c t n Hc Hg Hd Hv Hr
                outs Hname).
Qed.

(** X8 on the fixtures.  Carl has no username and sends a 3. *)
Lemma entry_without_username_witness :
  let r := exec (handle_group_message Scene.env Scene.calm
                   (Scene.says Scene.carl (lit "3"))) Scene.nothing [] in
  Py.int (lit "3") = Some 3 ∧ mem r.2 = Scene.nothing ∧
  trace r.2 = [Call (ReplyText (MsgNeedUsername (lit "Carl"))) None].
Proof.
  assert (Hint : Py.int (entry_text (Scene.says Scene.carl (lit "3")))
                 = Some 3) by (vm_compute; reflexivity).
  assert (Hdig : isdigit (entry_text (Scene.says Scene.carl (lit "3")))
                 = true) by (vm_compute; reflexivity).
  destruct (entry_without_username_is_refused Scene.env Scene.calm
              (Scene.says Scene.carl (lit "3")) Scene.group Scene.nothing 3 []
              eq_refl eq_refl Hdig Hint ltac:(lia) (or_introl eq_refl))
    as [Hmem Htrace].
  split_and!; [exact Hint | exact Hmem | exact Htrace].
Defined.

(** X9.  An entry of a sender who is in the round of that group already is
    only answered with the notice that he takes part: his stored choice
    stays, no pending record is created and no invoice is requested. *)
Theorem entry_of_participant_is_refused
    (env : settings) (pf : platform) (upd : update) (c : chat) (t : tables)
    (n : Z) (uname : str) (d : list (str * entry)) (e : entry)
    (outs : list (option exn)) :
  effective_chat upd = Some c → in_group c = true →
  isdigit (entry_text upd) = true → Py.int (entry_text upd) = Some n →
  1 ≤ n ≤ 6 →
  user_username (effective_user upd) = Some uname → uname ≠ [] →
  players t !! chat_key (chat_ident c) = Some d →
  dict_get (user_key (user_ident (effective_user upd))) d = Some e →
  let r := exec (handle_group_message env pf upd) t outs in
  mem r.2 = t ∧
  trace r.2 =
    [Call (ReplyText (MsgAlreadyIn (first_name (effective_user upd))))
          (hd None outs)].
Proof.
  intros Hc Hg Hd Hv Hr Hu Hne Hpl He. cbv zeta.
  by rewrite (admission_of_participant_run env pf upd c t n Hc Hg Hd Hv Hr
                outs uname d e Hu Hne Hpl He).
Qed.

(** X9 on the fixtures.  Ann has chosen 4 and now sends a 3: her 4
    stays. *)
Lemma entry_of_participant_witness :
  let r := exec (handle_group_message Scene.env Scene.calm
                   (Scene.says Scene.ann (lit "3"))) Scene.two_players [] in
  dict_get (user_key 42) (default [] (players Scene.two_players !! Scene.gk))
    = Some {| username := lit "@ann"; choice := 4 |} ∧
  mem r.2 = Scene.two_players ∧
  trace r.2 = [Call (ReplyText (MsgAlreadyIn (lit "Ann"))) None].
Proof.
  assert (Hint : Py.int (entry_text (Scene.says Scene.ann (lit "3")))
                 = Some 3) by (vm_compute; reflexivity).
  assert (Hdig : isdigit (entry_text (Scene.says Scene.ann (lit "3")))
                 = true) by (vm_compute; reflexivity).
  assert (Hpl : players Scene.two_players !! chat_key (chat_ident Scene.group)
                = Some [ (user_key 42, {| username := lit "@ann"; choice := 4 |});
                         (user_key 43, {| username := lit "@bob"; choice := 2 |}) ])
    by (vm_compute; reflexivity).
  assert (Hin : dict_get (user_key 42)
                  [ (user_key 42, {| username := lit "@ann"; choice := 4 |});
                    (user_key 43, {| username := lit "@bob"; choice := 2 |}) ]
                = Some {| username := lit "@ann"; choice := 4 |})
    by (vm_compute; reflexivity).
  destruct (entry_of_participant_is_refused Scene.env Scene.calm
              (Scene.says Scene.ann (lit "3")) Scene.group Scene.two_players
              3 (lit "ann") _ _ [] eq_refl eq_refl Hdig Hint ltac:(lia)
              eq_refl ltac:(done) Hpl Hin) as [Hmem Htrace].
  split_and!; [vm_compute; reflexivity | exact Hmem | exact Htrace].
Defined.

(** X10.  An entry of a sender with a username who is not in the round,
    with the invoice and the reply delivered: the pending table gets one
    record under the fresh token, with the key of the chat, the key of the
    sender, the username after an [@] and the number sent; the entries of
    every chat are what they were (the chat gets an empty entry set if it
    had none); and the four files are written with these tables before the
    invoice is requested. *)
Theorem entry_creates_saved_pending_record
    (env : settings) (pf : platform) (upd : update) (c : chat) (t : tables)
    (n : Z) (uname : str) (outs : list (option exn)) :
  effective_chat upd = Some c → in_group c = true →
  isdigit (entry_text upd) = true → Py.int (entry_text upd) = Some n →
  1 ≤ n ≤ 6 →
  user_username (effective_user upd) = Some uname → uname ≠ [] →
  dict_get (user_key (user_ident (effective_user upd)))
           (default [] (players t !! chat_key (chat_ident c))) = None →
  hd None outs = None → hd None (tl outs) = None →
  let u := effective_user upd in
  let ck := chat_key (chat_ident c) in
  let payload := make_payload (uuid_hex pf) in
  let r := exec (handle_group_message env pf upd) t outs in
  r.1 = Ret () ∧
  pending (mem r.2) =
    <[payload := {| chat_id := ck; user_id := user_key (user_ident u);
                    pending_username := lit "@" ++ uname;
                    pending_choice := n |}]> (pending t) ∧
  (∀ ck', default [] (players (mem r.2) !! ck')
          = default [] (players t !! ck')) ∧
  config (mem r.2) = config t ∧ last_round (mem r.2) = last_round t ∧
  trace r.2 =
    saved_all (mem r.2)
    ++ [ Call (SendInvoice (user_ident u) payload n
                 (PRICE_STARS env * AMOUNT_MULTIPLIER env)) None;
         Call (ReplyText (MsgInvoiceSent (user_ident u))) None ].
Proof.
  intros Hc Hg Hd Hv Hr Hu Hne Hnew Ho1 Ho2. cbv zeta.
  rewrite (admission_invoice_sent env pf upd c t n uname Hc Hg Hd Hv Hr Hu
             Hne Hnew outs Ho1 Ho2). simpl.
  split_and!; try done.
  intros ck'.
  destruct (players t !! chat_key (chat_ident c)) as [d|] eqn:Hpl; [done|].
  destruct (decide (chat_key (chat_ident c) = ck')) as [<-|Hne'].
  - by rewrite lookup_insert_eq, Hpl.
  - by rewrite lookup_insert_ne.
Qed.

(** X10 on the fixtures.  Bob sends [05] in the empty group: it reads as a
    5, and his record waits under the token. *)
Lemma entry_creates_record_witness :
  let r := exec (handle_group_message Scene.env Scene.calm
                   (Scene.says Scene.bob (lit "05"))) Scene.nothing [] in
  Py.int (lit "05") = Some 5 ∧
  r.1 = Ret () ∧
  pending (mem r.2) = {[ Scene.token := Scene.bob_record 5 ]}.
Proof.
  assert (Hint : Py.int (entry_text (Scene.says Scene.bob (lit "05")))
                 = Some 5) by (vm_compute; reflexivity).
  assert (Hdig : isdigit (entry_text (Scene.says Scene.bob (lit "05")))
                 = true) by (vm_compute; reflexivity).
  destruct (entry_creates_saved_pending_record Scene.env Scene.calm
              (Scene.says Scene.bob (lit "05")) Scene.group Scene.nothing
              5 (lit "bob") [] eq_refl eq_refl Hdig Hint ltac:(lia)
              eq_refl ltac:(done) eq_refl eq_refl eq_refl)
    as (Hret & Hpend & _).
  split_and!; [exact Hint | exact Hret | exact Hpend].
Defined.

(** X11.  When the invoice is sent but the reply that tells the group so
    raises, the handler takes the path of a failed invoice: the group gets
    the failure notice and the record is removed and the removal saved.
    The invoice that went out can then no longer be reconciled: its
    payment is answered with the notice that no round was found. *)
Theorem sent_invoice_is_rolled_back_when_reply_raises
    (env : settings) (pf : platform) (upd : update) (c : chat) (t : tables)
    (n : Z) (uname : str) (e : exn) (outs : list (option exn)) :
  effective_chat upd = Some c → in_group c = true →
  isdigit (entry_text upd) = true → Py.int (entry_text upd) = Some n →
  1 ≤ n ≤ 6 →
  user_username (effective_user upd) = Some uname → uname ≠ [] →
  dict_get (user_key (user_ident (effective_user upd)))
           (default [] (players t !! chat_key (chat_ident c))) = None →
  hd None outs = None → hd None (tl outs) = Some e →
  hd None (tl (tl outs)) = None →
  let u := effective_user upd in
  let payload := make_payload (uuid_hex pf) in
  let r := exec (handle_group_message env pf upd) t outs in
  r.1 = Ret () ∧
  Call (SendInvoice (user_ident u) payload n
          (PRICE_STARS env * AMOUNT_MULTIPLIER env)) None ∈ trace r.2 ∧
  Call (ReplyText (MsgInvoiceFailed (first_name u))) None ∈ trace r.2 ∧
  pending (mem r.2) = delete payload (pending t) ∧
  (∃ before, trace r.2 = before ++ saved_all (mem r.2)) ∧
  ∀ pay outs',
    successful_payment pay = Some payload →
    exec (successful_payment_handler env pay) (mem r.2) outs' =
    just_replied MsgNoRoundFound (mem r.2) outs'.
Proof.
  intros Hc Hg Hd Hv Hr Hu Hne Hnew Ho1 Ho2 Ho3. cbv zeta.
  rewrite (admission_reply_raises_run env pf upd c t n Hc Hg Hd Hv Hr outs
             uname e Hu Hne Hnew Ho1 Ho2 Ho3). simpl.
  split_and!.
  - done.
  - by repeat constructor.
  - by repeat constructor.
  - apply delete_insert_eq.
  - by eexists [_; _; _; _; _; _; _; _].
  - intros pay outs' Hpay. apply payment_not_matched.
    apply (matched_record_absent _ pay _ Hpay). simpl.
    apply lookup_delete_eq.
Qed.

(** X11 on the fixtures.  Bob's invoice goes out, the reply to the group
    raises: no record waits for his payment. *)
Lemma sent_invoice_rolled_back_witness :
  let r := exec (handle_group_message Scene.env Scene.calm
                   (Scene.says Scene.bob (lit "5"))) Scene.nothing
             [None; Some TelegramError; None] in
  r.1 = Ret () ∧
  Call (SendInvoice 43 Scene.token 5 9) None ∈ trace r.2 ∧
  pending (mem r.2) = delete Scene.token (pending Scene.nothing).
Proof.
  assert (Hint : Py.int (entry_text (Scene.says Scene.bob (lit "5")))
                 = Some 5) by (vm_compute; reflexivity).
  assert (Hdig : isdigit (entry_text (Scene.says Scene.bob (lit "5")))
                 = true) by (vm_compute; reflexivity).
  destruct (sent_invoice_is_rolled_back_when_reply_raises Scene.env
              Scene.calm (Scene.says Scene.bob (lit "5")) Scene.group
              Scene.nothing 5 (lit "bob") TelegramError
              [None; Some TelegramError; None]
              eq_refl eq_refl Hdig Hint ltac:(lia)
              eq_refl ltac:(done) eq_refl eq_refl eq_refl eq_refl)
    as (Hret & Hinv & _ & Hpend & _).
  split_and!; [exact Hret | exact Hinv | exact Hpend].
Defined.

(** A new key goes last. *)
Lemma dict_set_new {V} (k : str) (v : V) (d : list (str * V)) :
  dict_get k d = None → dict_set k v d = d ++ [(k, v)].
Proof.
  induction d as [|[k' v'] d IH]; simpl; [done|].
  destruct (decide (k' = k)); [done|]. intros Hd. by rewrite IH.
Qed.

(** The tables of a run that ends after the registration. *)
Lemma payment_mem env upd t outs payload record :
  matched_record t upd = Some (payload, record) →
  mem (exec (successful_payment_handler env upd) t outs).2 =
  registered payload record t.
Proof.
  intros Hm. rewrite (payment_matched env upd t outs payload record Hm).
  match goal with |- context [after_registration env record ?r0] =>
    destruct (after_registration_run env record r0
                (dict_set (user_id record)
                   {| username := pending_username record;
                      choice := pending_choice record |}
                   (default [] (players t !! chat_id record))))
      as (Hmem & _ & _)
  end; [simpl; apply lookup_insert_eq | reflexivity | exact Hmem].
Qed.

(** X12.  Admission and reconciliation fit together: when an entry was
    admitted and its invoice sent, the payment that carries the token of
    that invoice puts the sender into the round of the group where he sent
    the number, as the last entry, with his username after an [@] and the
    number he sent, and removes the record; a further number of his in
    that group is then answered with the notice that he takes part. *)
Theorem admitted_entry_is_registered_by_its_payment
    (env : settings) (pf : platform) (upd pay : update) (c : chat)
    (t : tables) (n : Z) (uname : str) (outs outs' : list (option exn)) :
  effective_chat upd = Some c → in_group c = true →
  isdigit (entry_text upd) = true → Py.int (entry_text upd) = Some n →
  1 ≤ n ≤ 6 →
  user_username (effective_user upd) = Some uname → uname ≠ [] →
  dict_get (user_key (user_ident (effective_user upd)))
           (default [] (players t !! chat_key (chat_ident c))) = None →
  hd None outs = None → hd None (tl outs) = None →
  successful_payment pay = Some (make_payload (uuid_hex pf)) →
  let u := effective_user upd in
  let ck := chat_key (chat_ident c) in
  let t1 := mem (exec (handle_group_message env pf upd) t outs).2 in
  let t2 := mem (exec (successful_payment_handler env pay) t1 outs').2 in
  players t2 !! ck =
    Some (default [] (players t !! ck)
          ++ [(user_key (user_ident u),
               {| username := lit "@" ++ uname; choice := n |})]) ∧
  count t2 ck = S (count t ck) ∧
  pending t2 = delete (make_payload (uuid_hex pf)) (pending t) ∧
  ∀ pf' outs'',
    exec (handle_group_message env pf' upd) t2 outs'' =
    just_replied (MsgAlreadyIn (first_name u)) t2 outs''.
Proof.
  intros Hc Hg Hd Hv Hr Hu Hne Hnew Ho1 Ho2 Hpay. cbv zeta.
  rewrite (admission_invoice_sent env pf upd c t n uname Hc Hg Hd Hv Hr Hu
             Hne Hnew outs Ho1 Ho2). cbn [snd mem].
  match goal with |- context [awaiting ?ck ?p ?rec t] =>
    set (t1 := awaiting ck p rec t); pose (record := rec)
  end.
  assert (Hm : matched_record t1 pay
               = Some (make_payload (uuid_hex pf), record)).
  { apply matched_record_found; [done | done |]. apply lookup_insert_eq. }
  rewrite (payment_mem env pay t1 outs' _ record Hm).
  assert (Hset : default [] (players t1 !! chat_key (chat_ident c))
                 = default [] (players t !! chat_key (chat_ident c))).
  { subst t1. unfold awaiting. simpl.
    destruct (players t !! chat_key (chat_ident c)) as [d|] eqn:Hpl.
    - by rewrite Hpl.
    - by rewrite lookup_insert_eq. }
  assert (Hpl2 : players (registered (make_payload (uuid_hex pf)) record t1)
                   !! chat_key (chat_ident c)
                 = Some (default [] (players t !! chat_key (chat_ident c))
                         ++ [(user_key (user_ident (effective_user upd)),
                              {| username := lit "@" ++ uname;
                                 choice := n |})])).
  { unfold registered. cbn [players].
    change (chat_id record) with (chat_key (chat_ident c)).
    rewrite lookup_insert_eq, Hset.
    by rewrite (dict_set_new _ _ _ Hnew). }
  split_and!.
  - exact Hpl2.
  - unfold count. rewrite Hpl2. simpl. rewrite length_app. simpl. lia.
  - subst t1. simpl. apply delete_insert_eq.
  - intros pf' outs''.
    apply (admission_of_participant_run env pf' upd c _ n Hc Hg Hd Hv Hr
             outs'' uname _
             {| username := lit "@" ++ uname; choice := n |} Hu Hne Hpl2).
    rewrite <- (dict_set_new _ _ _ Hnew). apply dict_get_set_eq.
Qed.

(** X12 on the fixtures.  Bob sends a 5 in the empty group and pays: he is
    the one entry, with his 5. *)
Lemma admitted_entry_witness :
  let t1 := mem (exec (handle_group_message Scene.env Scene.calm
                         (Scene.says Scene.bob (lit "5")))
                   Scene.nothing []).2 in
  let t2 := mem (exec (successful_payment_handler Scene.env
                         (Scene.pays Scene.bob Scene.token)) t1 []).2 in
  players t2 !! Scene.gk =
    Some [(user_key 43, {| username := lit "@bob"; choice := 5 |})] ∧
  pending t2 = delete Scene.token (pending Scene.nothing).
Proof.
  assert (Hint : Py.int (entry_text (Scene.says Scene.bob (lit "5")))
                 = Some 5) by (vm_compute; reflexivity).
  assert (Hdig : isdigit (entry_text (Scene.says Scene.bob (lit "5")))
                 = true) by (vm_compute; reflexivity).
  destruct (admitted_entry_is_registered_by_its_payment Scene.env Scene.calm
              (Scene.says Scene.bob (lit "5"))
              (Scene.pays Scene.bob Scene.token) Scene.group
              Scene.nothing 5 (lit "bob") [] []
              eq_refl eq_refl Hdig Hint ltac:(lia)
              eq_refl ltac:(done) eq_refl eq_refl eq_refl eq_refl)
    as (Hpl & _ & Hpend & _).
  split; [exact Hpl | exact Hpend].
Defined.

(** X13.  A group text made of digits of which one is no decimal digit (a
    superscript, a subscript or a circled digit, which [str.isdigit]
    accepts and [int] rejects) makes the handler raise [ValueError]: it
    ends there, having called nothing and changed no table. *)
Theorem entry_with_other_digit_raises
    (env : settings) (pf : platform) (upd : update) (c : chat) (t : tables)
    (outs : list (option exn)) :
  effective_chat upd = Some c → in_group c = true →
  isdigit (entry_text upd) = true →
  forallb isdecimal_char (entry_text upd) = false →
  let r := exec (handle_group_message env pf upd) t outs in
  r.1 = Raise ValueError ∧ mem r.2 = t ∧ trace r.2 = [] ∧
  spawned r.2 = [] ∧ sends r.2 = outs.
Proof.
  intros Hc Hg Hd Hdec. cbv zeta.
  assert (Hnone : Py.int (entry_text upd) = None) by by apply int_other_digit.
  by rewrite (admission_raises_on_rejected_digits env pf upd c t outs
                Hc Hg Hd Hnone).
Qed.

(** X13 on the fixtures.  Ann sends a 4 followed by a circled 2. *)
Lemma entry_with_other_digit_witness :
  let upd := Scene.says Scene.ann [52%N; 9313%N] in
  isdigit (entry_text upd) = true ∧
  forallb isdecimal_char (entry_text upd) = false ∧
  (exec (handle_group_message Scene.env Scene.calm upd)
     Scene.two_players []).1 = Raise ValueError.
Proof.
  assert (Hdig : isdigit (entry_text (Scene.says Scene.ann [52%N; 9313%N]))
                 = true) by (vm_compute; reflexivity).
  assert (Hdec : forallb isdecimal_char
                   (entry_text (Scene.says Scene.ann [52%N; 9313%N]))
                 = false) by (vm_compute; reflexivity).
  destruct (entry_with_other_digit_raises Scene.env Scene.calm
              (Scene.says Scene.ann [52%N; 9313%N]) Scene.group
              Scene.two_players [] eq_refl eq_refl Hdig Hdec) as [Hraise _].
  split_and!; [exact Hdig | exact Hdec | exact Hraise].
Defined.

(** ** Payment reconciliation, further *)

(** X14.  A reconciliation that matched a record touches nothing but that
    record and the sender's entry: the configuration and the snapshots,
    the records of other tokens, the entry sets of other chats and the
    entries of the other participants of the chat are what they were. *)
Theorem reconciliation_touches_one_record_and_one_entry
    (env : settings) (upd : update) (t : tables) (outs : list (option exn))
    (payload : str) (record : pending_record) :
  matched_record t upd = Some (payload, record) →
  let t' := mem (exec (successful_payment_handler env upd) t outs).2 in
  config t' = config t ∧ last_round t' = last_round t ∧
  (∀ tok, tok ≠ payload → pending t' !! tok = pending t !! tok) ∧
  (∀ ck, ck ≠ chat_id record → players t' !! ck = players t !! ck) ∧
  (∀ uk, uk ≠ user_id record →
     dict_get uk (default [] (players t' !! chat_id record)) =
     dict_get uk (default [] (players t !! chat_id record))).
Proof.
  intros Hm. cbv zeta. rewrite (payment_mem env upd t outs payload record Hm).
  unfold registered. simpl. split_and!; try done.
  - intros tok Hne. by rewrite lookup_delete_ne.
  - intros ck Hne. by rewrite lookup_insert_ne.
  - intros uk Hne. rewrite lookup_insert_eq. simpl.
    by rewrite dict_get_set_ne.
Qed.

(** X14 on the fixtures.  Ann's and Bob's payments are awaited; Ann pays,
    and Bob's record and the limit of the group stay. *)
Lemma reconciliation_frame_witness :
  let upd := Scene.pays Scene.ann Scene.token_of_ann in
  let t' := mem (exec (successful_payment_handler Scene.env upd)
                   Scene.both_pending_limit_two []).2 in
  matched_record Scene.both_pending_limit_two upd
    = Some (Scene.token_of_ann, Scene.ann_record 4) ∧
  config t' = config Scene.both_pending_limit_two ∧
  pending t' !! Scene.token_of_bob = Some (Scene.bob_record 2).
Proof.
  assert (Hm : matched_record Scene.both_pending_limit_two
                 (Scene.pays Scene.ann Scene.token_of_ann)
               = Some (Scene.token_of_ann, Scene.ann_record 4))
    by (vm_compute; reflexivity).
  destruct (reconciliation_touches_one_record_and_one_entry Scene.env
              (Scene.pays Scene.ann Scene.token_of_ann)
              Scene.both_pending_limit_two [] Scene.token_of_ann
              (Scene.ann_record 4) Hm) as (Hcfg & _ & Hpend & _).
  split_and!; [exact Hm | exact Hcfg |].
  rewrite (Hpend Scene.token_of_bob); [vm_compute; reflexivity|].
  vm_compute. discriminate.
Defined.

(** X15.  The payment decides: when the payer is in the round of the
    record's chat already, his entry is replaced where it stands, and the
    count and the order of the participants stay; when he is not, his
    entry goes last and the count grows by one.  Either way he has one
    entry, with the username and the number of the record. *)
Theorem reconciliation_replaces_or_appends
    (env : settings) (upd : update) (t : tables) (outs : list (option exn))
    (payload : str) (record : pending_record) :
  matched_record t upd = Some (payload, record) →
  let ck := chat_id record in
  let uk := user_id record in
  let before := default [] (players t !! ck) in
  let t' := mem (exec (successful_payment_handler env upd) t outs).2 in
  let after := default [] (players t' !! ck) in
  dict_get uk after =
    Some {| username := pending_username record;
            choice := pending_choice record |} ∧
  (is_Some (dict_get uk before) →
     dict_keys after = dict_keys before ∧ count t' ck = count t ck) ∧
  (dict_get uk before = None →
     dict_keys after = dict_keys before ++ [uk] ∧
     count t' ck = S (count t ck)) ∧
  (NoDup (dict_keys before) → NoDup (dict_keys after)).
Proof.
  intros Hm. cbv zeta. rewrite (payment_mem env upd t outs payload record Hm).
  unfold registered, count. simpl. rewrite lookup_insert_eq. simpl.
  split_and!.
  - apply dict_get_set_eq.
  - intros [e He]. rewrite dict_keys_set, dict_set_length. by rewrite He.
  - intros He. rewrite dict_keys_set, dict_set_length. by rewrite He.
  - apply dict_set_NoDup.
Qed.

(** X15 on the fixtures.  Ann is in the round with a 4 and pays an invoice
    for a 6: she is still the first of two, now with the 6. *)
Lemma reconciliation_replaces_witness :
  let t := with_pending <[Scene.token := Scene.ann_record 6]>
             Scene.two_players in
  let upd := Scene.pays Scene.ann Scene.token in
  let t' := mem (exec (successful_payment_handler Scene.env upd) t []).2 in
  matched_record t upd = Some (Scene.token, Scene.ann_record 6) ∧
  is_Some (dict_get (user_key 42) (default [] (players t !! Scene.gk))) ∧
  count t' Scene.gk = 2%nat ∧
  dict_get (user_key 42) (default [] (players t' !! Scene.gk))
    = Some {| username := lit "@ann"; choice := 6 |}.
Proof.
  assert (Hm : matched_record
                 (with_pending <[Scene.token := Scene.ann_record 6]>
                    Scene.two_players)
                 (Scene.pays Scene.ann Scene.token)
               = Some (Scene.token, Scene.ann_record 6))
    by (vm_compute; reflexivity).
  assert (Hin : is_Some (dict_get (user_key 42)
                  (default [] (players
                     (with_pending <[Scene.token := Scene.ann_record 6]>
                        Scene.two_players) !! Scene.gk))))
    by (vm_compute; eauto).
  destruct (reconciliation_replaces_or_appends Scene.env
              (Scene.pays Scene.ann Scene.token) _ [] Scene.token
              (Scene.ann_record 6) Hm) as (Hget & Hold & _ & _).
  destruct (Hold Hin) as [_ Hcnt].
  split_and!; [exact Hm | exact Hin | exact Hcnt | exact Hget].
Defined.

(** How the part after the registration ends, and which calls it makes. *)
Lemma after_registration_outcome env record r d :
  players (mem r) !! chat_id record = Some d →
  let ck := chat_id record in
  let reached :=
    get_max_players_for_chat env (mem r) ck <=? Z.of_nat (length d) in
  let paid := Call (ReplyText (MsgPaymentAccepted (pending_choice record))) in
  let end_ := after_registration env record r in
  match hd None (sends r) with
  | Some e => end_.1 = Raise e ∧ trace end_.2 = trace r ++ [paid (Some e)]
  | None =>
      match Py.int ck with
      | Some c =>
          end_.1 = Ret () ∧
          trace end_.2 =
            trace r ++
            [ paid None;
              Call (SendMessage c
                      (MsgRegistered (pending_username record) (length d)
                         (get_max_players_for_chat env (mem r) ck)))
                   (hd None (tl (sends r))) ]
      | None =>
          end_.1 = (if reached then Raise ValueError else Ret ()) ∧
          trace end_.2 = trace r ++ [paid None]
      end
  end.
Proof.
  intros Hd. cbv zeta. unfold after_registration. unfold_run.
  destruct r as [t outs tr sp]; simpl in Hd. cbn.
  destruct (hd None outs) as [e|]; cbn; [done|].
  destruct (Py.int (chat_id record)) as [c|] eqn:Hint; cbn; rewrite !Hd; cbn.
  - destruct (hd None (tail outs)); cbn; rewrite ?Hd; cbn;
      destruct (_ <=? _); cbn; by rewrite <- ?app_assoc.
  - by destruct (_ <=? _).
Qed.

(** X16.  How a reconciliation that matched a record ends.  It raises when
    the reply to the payer raises; a failure of the notice to the group is
    swallowed, and so is a chat key that does not read as a number, in
    which case the notice is not sent at all; but when the count has
    reached the threshold, such a key makes the handler raise
    [ValueError] instead of scheduling the round.  In every case the
    payer is registered and the tables are saved before the first call. *)
Theorem reconciliation_outcome
    (env : settings) (upd : update) (t : tables) (outs : list (option exn))
    (payload : str) (record : pending_record) :
  matched_record t upd = Some (payload, record) →
  let ck := chat_id record in
  let t' := registered payload record t in
  let reached :=
    get_max_players_for_chat env t' ck <=? Z.of_nat (count t' ck) in
  let r := exec (successful_payment_handler env upd) t outs in
  mem r.2 = t' ∧
  (∃ calls, trace r.2 = saved_all (with_pending (delete payload) t)
                        ++ saved_all t' ++ calls) ∧
  r.1 = match hd None outs with
        | Some e => Raise e
        | None =>
            match Py.int ck with
            | Some _ => Ret ()
            | None => if reached then Raise ValueError else Ret ()
            end
        end ∧
  (Py.int ck = None → ∀ c m o, Call (SendMessage c m) o ∉ trace r.2).
Proof.
  intros Hm. cbv zeta.
  rewrite (payment_matched env upd t outs payload record Hm).
  match goal with |- context [after_registration env record ?r0] =>
    pose proof (after_registration_outcome env record r0
                  (dict_set (user_id record)
                     {| username := pending_username record;
                        choice := pending_choice record |}
                     (default [] (players t !! chat_id record)))) as Hout;
    destruct (after_registration_run env record r0
                (dict_set (user_id record)
                   {| username := pending_username record;
                      choice := pending_choice record |}
                   (default [] (players t !! chat_id record))))
      as (Hmem & _ & _);
    [simpl; apply lookup_insert_eq | reflexivity |];
    set (end_ := after_registration env record r0) in *
  end.
  specialize (Hout ltac:(simpl; apply lookup_insert_eq)).
  cbv zeta in Hout. simpl in Hout, Hmem.
  assert (Hcnt : count (registered payload record t) (chat_id record)
                 = length (dict_set (user_id record)
                     {| username := pending_username record;
                        choice := pending_choice record |}
                     (default [] (players t !! chat_id record)))).
  { unfold count, registered. simpl. by rewrite lookup_insert_eq. }
  rewrite Hcnt. split; [exact Hmem|].
  destruct (hd None outs) as [e|].
  - destruct Hout as [-> ->]. split_and!; [| done |].
    + by eexists.
    + intros _ c m o. unfold saved_all. simpl.
      rewrite !not_elem_of_cons. split_and!; try done.
      apply not_elem_of_nil.
  - destruct (Py.int (chat_id record)) as [c|].
    + destruct Hout as [-> ->]. split_and!; [| done | done].
      by eexists.
    + destruct Hout as [-> ->]. split_and!; [| done |].
      * by eexists.
      * intros _ c m o. unfold saved_all. simpl.
        rewrite !not_elem_of_cons. split_and!; try done.
        apply not_elem_of_nil.
Qed.

(** X16 on the fixtures.  A record with the chat key [lobby] is paid: Ann
    is registered under that key, the threshold of one is reached, and the
    handler raises instead of scheduling. *)
Lemma reconciliation_outcome_witness :
  let upd := Scene.pays Scene.ann Scene.token in
  let r := exec (successful_payment_handler Scene.env upd)
             Scene.lobby_pending [] in
  matched_record Scene.lobby_pending upd
    = Some (Scene.token, Scene.lobby_record) ∧
  Py.int (lit "lobby") = None ∧
  r.1 = Raise ValueError ∧
  mem r.2 = registered Scene.token Scene.lobby_record Scene.lobby_pending.
Proof.
  assert (Hm : matched_record Scene.lobby_pending
                 (Scene.pays Scene.ann Scene.token)
               = Some (Scene.token, Scene.lobby_record))
    by (vm_compute; reflexivity).
  destruct (reconciliation_outcome Scene.env
              (Scene.pays Scene.ann Scene.token) Scene.lobby_pending []
              Scene.token Scene.lobby_record Hm) as (Hmem & _ & Hend & _).
  split_and!; [exact Hm | vm_compute; reflexivity | | exact Hmem].
  rewrite Hend. vm_compute. reflexivity.
Defined.

(** ** The keys of the tables *)

Section Keys.
Implicit Types (d : Decimal.uint) (p : positive) (z : Z).

Lemma uint_digits d : ascii_digits (lit (NilEmpty.string_of_uint d)).
Proof.
  unfold ascii_digits.
  induction d; simpl; constructor; try done; cbn; lia.
Qed.

Lemma uint_fold d (acc : positive) :
  fold_left (λ a c, 10 * a + (c - 48))%N (lit (NilEmpty.string_of_uint d))
    (Npos acc) = Npos (Pos.of_uint_acc d acc).
Proof.
  revert acc. induction d; intros acc; simpl; [done|..];
    (etransitivity; [|apply IHd]); f_equal; cbn; lia.
Qed.

Lemma uint_value d :
  numeral_value (lit (NilEmpty.string_of_uint d)) = Pos.of_uint d.
Proof.
  unfold numeral_value. induction d; simpl; [done | exact IHd |..];
    (etransitivity; [|apply uint_fold]); f_equal.
Qed.

(** [str] of a positive and of a negative number: the digits, with a
    minus sign before them for the negative one. *)
Lemma pos_str p :
  let l := lit (NilEmpty.string_of_uint (Pos.to_uint p)) in
  str_of_int (Zpos p) = l ∧ str_of_int (Zneg p) = 45%N :: l ∧
  l ≠ [] ∧ ascii_digits l ∧ numeral_value l = Npos p.
Proof.
  cbv zeta. unfold str_of_int. simpl.
  pose proof (DecimalPos.Unsigned.to_uint_nonnil p) as Hnil.
  unfold NilZero.string_of_uint.
  destruct (Pos.to_uint p) as [|d|d|d|d|d|d|d|d|d|d] eqn:Hd; try done;
    (split_and!; [done | done | done | apply uint_digits |
                  rewrite uint_value, <- Hd; apply DecimalPos.Unsigned.of_to]).
Qed.

(** A minus sign and ASCII digits read as the negative number. *)
Lemma int_negative_numeral (l : list N) :
  l ≠ [] → ascii_digits l → (length l ≤ max_str_digits)%nat →
  Py.int (45%N :: l) = Some (- Z.of_N (numeral_value l)).
Proof.
  intros Hne Hl Hlen. unfold Py.int. cbn [to_ascii].
  replace (45 <? 127)%N with true by done.
  rewrite (to_ascii_numeral l Hl).
  destruct l as [|c l]; [done|].
  pose proof (Forall_inv Hl) as Hc.
  destruct (ascii_digit_classes c Hc) as (_ & _ & _ & _ & _ & H95).
  unfold int_of_ascii. cbn [skip_space].
  replace (c_isspace 45) with false by done.
  replace (45 =? 43)%N with false by done.
  replace (45 =? 45)%N with true by done. rewrite H95.
  rewrite (scan_digits_numeral (c :: l) 0 0 Hl). cbn [Nat.add].
  replace (length (c :: l) =? 0)%nat with false by done.
  replace (max_str_digits <? length (c :: l))%nat with false
    by (symmetry; apply Nat.ltb_ge; exact Hlen).
  reflexivity.
Qed.

(** [int] reads back what [str] writes, up to 4300 digits. *)
Lemma int_str_of_int z :
  (length (str_of_int z) ≤ max_str_digits)%nat →
  Py.int (str_of_int z) = Some z.
Proof.
  destruct z as [|p|p]; [reflexivity | |].
  - destruct (pos_str p) as (-> & _ & Hne & Hl & Hv). intros Hlen.
    rewrite (int_numeral _ Hne Hl Hlen). by rewrite Hv.
  - destruct (pos_str p) as (_ & -> & Hne & Hl & Hv). intros Hlen.
    rewrite (int_negative_numeral _ Hne Hl); [by rewrite Hv|].
    simpl in Hlen. lia.
Qed.
End Keys.

(** X17.  The key of a chat reads back as the identifier of the chat, so
    two chats never share a key, and the round that a reconciliation of a
    record of chat [c] schedules when the handler runs to its end is the
    round of chat [c].  (For identifiers of at most 4300 characters, the
    limit of the conversion; those of the platform have at most 20.) *)
Theorem chat_key_reads_back
    (env : settings) (c c' : Z) :
  (length (chat_key c) ≤ max_str_digits)%nat →
  Py.int (chat_key c) = Some c ∧
  ((length (chat_key c') ≤ max_str_digits)%nat →
   chat_key c = chat_key c' → c = c') ∧
  ∀ upd t outs payload record,
    matched_record t upd = Some (payload, record) →
    chat_id record = chat_key c →
    let r := exec (successful_payment_handler env upd) t outs in
    r.1 = Ret () →
    spawned r.2 = [] ∨ spawned r.2 = [ExecuteRound c].
Proof.
  intros Hlen. pose proof (int_str_of_int c Hlen) as Hint. split_and!.
  - exact Hint.
  - intros Hlen' Heq. pose proof (int_str_of_int c' Hlen') as Hint'.
    unfold chat_key in *. rewrite Heq in Hint. congruence.
  - intros upd t outs payload record Hm Hck. cbv zeta.
    rewrite (payment_matched env upd t outs payload record Hm).
    match goal with |- context [after_registration env record ?r0] =>
      destruct (after_registration_run env record r0
                  (dict_set (user_id record)
                     {| username := pending_username record;
                        choice := pending_choice record |}
                     (default [] (players t !! chat_id record))))
        as (_ & Hspawn & _);
      [simpl; apply lookup_insert_eq | reflexivity |]
    end.
    intros Hret. specialize (Hspawn Hret).
    destruct (_ <=? _); [|by left].
    destruct Hspawn as (c0 & Hc0 & ->). right.
    rewrite Hck in Hc0. unfold chat_key in Hc0. congruence.
Qed.

(** X17 on the fixtures.  The key of the group, a negative identifier,
    reads back as the group. *)
Lemma chat_key_witness :
  (length (chat_key Scene.group_id) ≤ max_str_digits)%nat ∧
  Py.int (chat_key Scene.group_id) = Some Scene.group_id.
Proof.
  assert (Hlen : (length (chat_key Scene.group_id) ≤ max_str_digits)%nat)
    by (vm_compute; lia).
  split; [exact Hlen|].
  exact (proj1 (chat_key_reads_back Scene.env Scene.group_id 0 Hlen)).
Defined.

(** ** Persistence *)

Ltac run_cases :=
  repeat (cbn; first [ done | case_match; simplify_eq/= ]).

Section Persistence.
Variable env : settings.
Variable pf : platform.
Variable upd : update.
Variable t : tables.
Variable outs : list (option exn).

Lemma written_start_private :
  let r := exec (start_private upd) t outs in
  written (trace r.2) t = mem r.2.
Proof.
  cbv zeta. unfold start_private. unfold_run.
  destruct t. run_cases.
Qed.

Lemma written_status :
  let r := exec (status_cmd env upd) t outs in
  written (trace r.2) t = mem r.2.
Proof.
  cbv zeta. unfold status_cmd. unfold_run.
  destruct t. run_cases.
Qed.

Lemma written_winners :
  let r := exec (winners_cmd upd) t outs in
  written (trace r.2) t = mem r.2.
Proof.
  cbv zeta. unfold winners_cmd. unfold_run.
  destruct t. run_cases.
Qed.

Lemma written_precheckout :
  let r := exec (precheckout_handler upd) t outs in
  written (trace r.2) t = mem r.2.
Proof.
  cbv zeta. unfold precheckout_handler. unfold_run.
  destruct t. run_cases.
Qed.

Lemma written_reset :
  let r := exec (reset_cmd pf upd) t outs in
  written (trace r.2) t = mem r.2.
Proof.
  cbv zeta. unfold reset_cmd. unfold_run. unfold get_chat_member. unfold_run.
  destruct t. run_cases.
Qed.

Lemma written_forcestart :
  let r := exec (forcestart_cmd pf upd) t outs in
  written (trace r.2) t = mem r.2.
Proof.
  cbv zeta. unfold forcestart_cmd. unfold_run. unfold get_chat_member.
  unfold_run. destruct t. run_cases.
Qed.

Lemma written_setlimit :
  let r := exec (setlimit_cmd env pf upd) t outs in
  written (trace r.2) t = mem r.2.
Proof.
  cbv zeta. unfold setlimit_cmd, set_max_players_for_chat. unfold_run.
  unfold get_chat_member. unfold_run. destruct t. run_cases.
Qed.

Lemma written_execute c :
  let r := exec (execute_round env pf c) t outs in
  written (trace r.2) t = mem r.2.
Proof.
  cbv zeta. unfold execute_round. unfold_run.
  destruct t. run_cases.
Qed.

(** The notices and the threshold check write no file and change no
    table. *)
Lemma written_after_registration record (r : run) :
  let end_ := after_registration env record r in
  written (trace end_.2) t = written (trace r) t ∧ mem end_.2 = mem r.
Proof.
  cbv zeta. unfold after_registration. unfold_run.
  destruct r as [t1 outs1 tr sp]. cbn.
  destruct (hd None outs1) as [e|]; cbn;
    [by unfold written; rewrite fold_left_app|].
  destruct (players t1 !! chat_id record) as [d|] eqn:Hd;
    (destruct (Py.int (chat_id record)) as [c|]; cbn; rewrite ?Hd; cbn;
     [destruct (hd None (tail outs1)); cbn; rewrite ?Hd; cbn|]);
    try destruct (_ <=? _); cbn;
    unfold written; by rewrite ?fold_left_app.
Qed.

Lemma written_payment :
  let r := exec (successful_payment_handler env upd) t outs in
  written (trace r.2) t = mem r.2.
Proof.
  cbv zeta.
  destruct (matched_record t upd) as [[payload record]|] eqn:Hm.
  - rewrite (payment_matched env upd t outs payload record Hm).
    match goal with |- context [after_registration env record ?r0] =>
      destruct (written_after_registration record r0) as [-> ->] end.
    by destruct t.
  - by rewrite (payment_not_matched env upd t outs Hm).
Qed.

Lemma written_group_message :
  let r := exec (handle_group_message env pf upd) t outs in
  written (trace r.2) t = mem r.2.
Proof.
  cbv zeta. unfold handle_group_message. unfold_run.
  destruct t as [pl pe cf lr]. cbn.
  destruct (effective_chat upd) as [c|]; cbn; [|done].
  destruct (in_group c); cbn; [|done].
  destruct (isdigit _); cbn; [|done].
  destruct (Py.int _) as [n|]; cbn; [|done].
  destruct (_ || _); cbn; [done|].
  destruct (user_username (effective_user upd)) as [[|u0 uname]|]; cbn;
    [by destruct (hd None outs) | | by destruct (hd None outs)].
  destruct (pl !! chat_key (chat_ident c)) as [d|] eqn:Hd; cbn;
    rewrite ?Hd, ?lookup_insert_eq; cbn;
    [destruct (dict_get _ d); cbn; [by destruct (hd None outs)|] |];
    (destruct (hd None outs); cbn;
      [destruct (hd None (tail outs)); cbn; done|]);
    (destruct (hd None (tail outs)); cbn; [|done]);
    (destruct (hd None (tail (tail outs))); cbn; done).
Qed.
End Persistence.

(** X18.  The files follow the tables.  Whatever the update, the tables
    and the answers of the platform, and whether the handler returns or
    raises: when a handler or a round execution ends, the four files, as
    its writes leave them from files that held the tables at its start,
    hold the tables in memory.  So no handler ends with a change that was
    not written.  (A write is taken to succeed; the program only logs one
    that fails.) *)
Theorem files_hold_the_tables
    (env : settings) (pf : platform) (upd : update) (c : Z) (t : tables)
    (outs : list (option exn)) :
  Forall (λ r : outcome unit * run, written (trace r.2) t = mem r.2)
    [ exec (start_private upd) t outs;
      exec (status_cmd env upd) t outs;
      exec (reset_cmd pf upd) t outs;
      exec (setlimit_cmd env pf upd) t outs;
      exec (forcestart_cmd pf upd) t outs;
      exec (winners_cmd upd) t outs;
      exec (handle_group_message env pf upd) t outs;
      exec (precheckout_handler upd) t outs;
      exec (successful_payment_handler env upd) t outs;
      exec (execute_round env pf c) t outs ].
Proof.
  repeat apply Forall_cons_2; [..| apply Forall_nil_2].
  - apply written_start_private.
  - apply written_status.
  - apply written_reset.
  - apply written_setlimit.
  - apply written_forcestart.
  - apply written_winners.
  - apply written_group_message.
  - apply written_precheckout.
  - apply written_payment.
  - apply written_execute.
Qed.

(** ** Round execution, further *)

(** X19.  A round execution touches only the round of its chat and the
    snapshot: it returns, the payments awaited and the limits are as
    before, the rounds of the other chats are as before, the round of the
    chat is gone, and no further execution is scheduled.  This holds
    whatever the dice call, the announcement and the error notice do. *)
Theorem round_execution_touches_only_its_round
    (env : settings) (pf : platform) (c : Z) (t : tables)
    (outs : list (option exn)) :
  let ck := chat_key c in
  let r := exec (execute_round env pf c) t outs in
  r.1 = Ret () ∧
  pending (mem r.2) = pending t ∧
  config (mem r.2) = config t ∧
  players (mem r.2) = delete ck (players t) ∧
  (∀ ck', ck' ≠ ck → players (mem r.2) !! ck' = players t !! ck') ∧
  spawned r.2 = [].
Proof.
  cbv zeta.
  assert (Hframe : ∀ ck', ck' ≠ chat_key c →
            delete (chat_key c) (players t) !! ck' = players t !! ck')
    by (intros ck' Hne; by apply lookup_delete_ne).
  destruct (dice_reply pf) as [e|msg] eqn:Hd.
  - rewrite (execute_round_dice_raises env pf c t outs e Hd). by split_and!.
  - destruct (hd None outs) as [e|] eqn:Ho.
    + rewrite (execute_round_announce_raises env pf c t outs msg e Hd Ho).
      by split_and!.
    + rewrite (execute_round_announced env pf c t outs msg Hd Ho).
      by split_and!.
Qed.

(** X20.  A second execution finds nobody.  When two executions of the
    round of one chat run one after the other (a forced start does not
    clear the round it starts, and a payment that reaches the limit
    schedules an execution as well), the second one, if its dice call
    returns and its announcement is delivered, announces that nobody
    guessed and overwrites the snapshot of the chat with its own result
    and no winners, whatever the first one announced. *)
Theorem second_execution_finds_nobody
    (env : settings) (pf pf' : platform) (c : Z) (t : tables)
    (outs outs' : list (option exn)) (msg : dice_message) :
  dice_reply pf' = inr msg →
  hd None outs' = None →
  let first := exec (execute_round env pf c) t outs in
  let second := exec (execute_round env pf' c) (mem first.2) outs' in
  let res := round_result pf' msg in
  Call (SendMessage c (MsgRoundNobody res)) None ∈ trace second.2 ∧
  last_round (mem second.2) !! chat_key c =
    Some {| result := res; winners := [] |}.
Proof.
  intros Hd Ho. cbv zeta.
  set (r1 := exec (execute_round env pf c) t outs).
  assert (Hgone : players (mem r1.2) !! chat_key c = None).
  { subst r1. destruct (dice_reply pf) as [e|m] eqn:Hd1.
    - rewrite (execute_round_dice_raises env pf c t outs e Hd1).
      simpl. apply lookup_delete_eq.
    - destruct (hd None outs) as [e|] eqn:Ho1.
      + rewrite (execute_round_announce_raises env pf c t outs m e Hd1 Ho1).
        simpl. apply lookup_delete_eq.
      + rewrite (execute_round_announced env pf c t outs m Hd1 Ho1).
        simpl. apply lookup_delete_eq. }
  rewrite (execute_round_announced env pf' c (mem r1.2) outs' msg Hd Ho).
  assert (Hws : round_winners (mem r1.2) (chat_key c) (round_result pf' msg)
                = []) by (unfold round_winners; by rewrite Hgone).
  rewrite Hws. split.
  - simpl. by repeat constructor.
  - simpl. apply lookup_insert_eq.
Qed.

(** X20 on the fixtures: the round of Ann and Bob is executed twice. *)
Lemma second_execution_witness :
  let first := exec (execute_round Scene.env Scene.calm Scene.group_id)
                 Scene.two_players [] in
  let second := exec (execute_round Scene.env Scene.calm Scene.group_id)
                  (mem first.2) [] in
  last_round (mem first.2) !! Scene.gk =
    Some {| result := 4; winners := [lit "@ann"] |} ∧
  last_round (mem second.2) !! Scene.gk =
    Some {| result := 4; winners := [] |}.
Proof.
  split; [vm_compute; reflexivity|].
  exact (proj2 (second_execution_finds_nobody Scene.env Scene.calm
                  Scene.calm Scene.group_id Scene.two_players [] []
                  {| dice := Some (Some 4) |} eq_refl eq_refl)).
Defined.

(** X21.  [/winners] reports the round as it was announced.  After an
    execution whose dice call returned and whose announcement was
    delivered, [/winners] sent in that chat answers with the result and
    the winners of the announcement: the names if there are winners, and
    that nobody guessed if there are none. *)
Theorem winners_reports_the_announced_round
    (env : settings) (pf : platform) (c : Z) (t : tables)
    (outs outs' : list (option exn)) (msg : dice_message)
    (upd : update) (ch : chat) :
  dice_reply pf = inr msg →
  hd None outs = None →
  effective_chat upd = Some ch →
  chat_ident ch = c →
  let r := exec (execute_round env pf c) t outs in
  let res := round_result pf msg in
  let ws := round_winners t (chat_key c) res in
  Call (SendMessage c (announcement env res ws)) None ∈ trace r.2 ∧
  exec (winners_cmd upd) (mem r.2) outs' =
  just_replied
    match ws with
    | _ :: _ => MsgLastWinners res ws
    | [] => MsgLastNobody res
    end (mem r.2) outs'.
Proof.
  intros Hd Ho Hc Hid. cbv zeta.
  rewrite (execute_round_announced env pf c t outs msg Hd Ho).
  split; [simpl; by repeat constructor|].
  rewrite (winners_cmd_run upd ch _ outs' Hc), Hid.
  cbn [snd mem]. unfold cleared, snapshotted. cbn [last_round with_players
    with_last_round]. by rewrite lookup_insert_eq.
Qed.

(** X21 on the fixtures: the round of Ann and Bob, then [/winners] of Bob
    in the group. *)
Lemma winners_reports_witness :
  let r := exec (execute_round Scene.env Scene.calm Scene.group_id)
             Scene.two_players [] in
  trace (exec (winners_cmd (Scene.commands Scene.bob Scene.group []))
           (mem r.2) []).2 =
  [Call (ReplyText (MsgLastWinners 4 [lit "@ann"])) None].
Proof.
  cbv zeta.
  rewrite (proj2 (winners_reports_the_announced_round Scene.env Scene.calm
             Scene.group_id Scene.two_players [] []
             {| dice := Some (Some 4) |}
             (Scene.commands Scene.bob Scene.group []) Scene.group
             eq_refl eq_refl eq_refl eq_refl)).
  vm_compute. reflexivity.
Defined.

(** * The process as a whole *)

(** ** Keys, without a bound *)

Section KeysApart.

(** What ASCII digits read as, if they read as a number at all. *)
Lemma int_numeral_inv (l : list N) (v : Z) :
  l ≠ [] → ascii_digits l → Py.int l = Some v →
  v = Z.of_N (numeral_value l).
Proof.
  intros Hne Hl. destruct (le_lt_dec (length l) max_str_digits) as [Hlen|Hlen].
  - rewrite (int_numeral l Hne Hl Hlen). congruence.
  - unfold Py.int. rewrite (to_ascii_numeral l Hl).
    destruct l as [|c l]; [done|].
    pose proof (Forall_inv Hl) as Hc.
    destruct (ascii_digit_classes c Hc) as (Hsp & _ & _ & H43 & H45 & H95).
    unfold int_of_ascii. cbn [skip_space]. rewrite Hsp, H43, H45, H95.
    rewrite (scan_digits_numeral (c :: l) 0 0 Hl). cbn [Nat.add].
    replace (length (c :: l) =? 0)%nat with false by done.
    replace (max_str_digits <? length (c :: l))%nat with true
      by (symmetry; apply Nat.ltb_lt; exact Hlen).
    discriminate.
Qed.

Lemma int_negative_numeral_inv (l : list N) (v : Z) :
  l ≠ [] → ascii_digits l → Py.int (45%N :: l) = Some v →
  v = - Z.of_N (numeral_value l).
Proof.
  intros Hne Hl. destruct (le_lt_dec (length l) max_str_digits) as [Hlen|Hlen].
  - rewrite (int_negative_numeral l Hne Hl Hlen). congruence.
  - unfold Py.int. cbn [to_ascii].
    replace (45 <? 127)%N with true by done.
    rewrite (to_ascii_numeral l Hl).
    destruct l as [|c l]; [done|].
    pose proof (Forall_inv Hl) as Hc.
    destruct (ascii_digit_classes c Hc) as (_ & _ & _ & _ & _ & H95).
    unfold int_of_ascii. cbn [skip_space].
    replace (c_isspace 45) with false by done.
    replace (45 =? 43)%N with false by done.
    replace (45 =? 45)%N with true by done. rewrite H95.
    rewrite (scan_digits_numeral (c :: l) 0 0 Hl). cbn [Nat.add].
    replace (length (c :: l) =? 0)%nat with false by done.
    replace (max_str_digits <? length (c :: l))%nat with true
      by (symmetry; apply Nat.ltb_lt; exact Hlen).
    discriminate.
Qed.

(** Whatever [int] reads from the text of a number is that number. *)
Lemma int_str_of_int_inv (z v : Z) :
  Py.int (str_of_int z) = Some v → v = z.
Proof.
  destruct z as [|p|p].
  - vm_compute. congruence.
  - destruct (pos_str p) as (-> & _ & Hne & Hl & Hv). intros Hint.
    rewrite (int_numeral_inv _ v Hne Hl Hint), Hv. done.
  - destruct (pos_str p) as (_ & -> & Hne & Hl & Hv). intros Hint.
    rewrite (int_negative_numeral_inv _ v Hne Hl Hint), Hv. done.
Qed.

(** Two numbers with one text are one number. *)
Lemma str_of_int_inj (a b : Z) : str_of_int a = str_of_int b → a = b.
Proof.
  assert (Hzero : ∀ p, str_of_int 0 ≠ str_of_int (Zpos p) ∧
                       str_of_int 0 ≠ str_of_int (Zneg p)).
  { intros p. destruct (pos_str p) as (-> & -> & Hne & Hl & Hv).
    split; [|done]. intros Heq. rewrite <- Heq in Hv. done. }
  assert (Hsign : ∀ p q, str_of_int (Zpos p) ≠ str_of_int (Zneg q)).
  { intros p q. destruct (pos_str p) as (-> & _ & _ & Hl & _).
    destruct (pos_str q) as (_ & -> & _ & _ & _). intros Heq.
    rewrite Heq in Hl. apply Forall_inv in Hl. lia. }
  assert (Hpos : ∀ p q, lit (NilEmpty.string_of_uint (Pos.to_uint p)) =
                        lit (NilEmpty.string_of_uint (Pos.to_uint q)) →
                        p = q).
  { intros p q Heq. destruct (pos_str p) as (_ & _ & _ & _ & Hp).
    destruct (pos_str q) as (_ & _ & _ & _ & Hq).
    rewrite Heq in Hp. congruence. }
  destruct a as [|p|p], b as [|q|q]; intros Heq; try reflexivity;
    try (exfalso;
         first [ by apply (proj1 (Hzero _)) in Heq
               | by apply (proj2 (Hzero _)) in Heq
               | by symmetry in Heq; apply (proj1 (Hzero _)) in Heq
               | by symmetry in Heq; apply (proj2 (Hzero _)) in Heq
               | by apply Hsign in Heq
               | by symmetry in Heq; apply Hsign in Heq ]).
  - f_equal. apply Hpos.
    destruct (pos_str p) as (Hp & _), (pos_str q) as (Hq & _). congruence.
  - f_equal. apply Hpos.
    destruct (pos_str p) as (_ & Hp & _), (pos_str q) as (_ & Hq & _).
    congruence.
Qed.
End KeysApart.

(** ** What a handler leaves behind *)

Section Footprints.
Variable env : settings.
Variable pf : platform.
Variable upd : update.
Variable t : tables.
Variable outs : list (option exn).

(** A run that changes no table and creates no task. *)
Lemma footprint_of_reader (r : outcome unit * run) :
  mem r.2 = t → spawned r.2 = [] → footprint upd t r.
Proof.
  intros Hm Hs. unfold footprint. rewrite Hm, Hs. split_and!;
    [done | by left | by intros g Hg%elem_of_nil].
Qed.

(** A run that keeps the snapshots and the awaited payments and creates no
    task. *)
Lemma footprint_of_keeper (r : outcome unit * run) :
  last_round (mem r.2) = last_round t → pending (mem r.2) = pending t →
  spawned r.2 = [] → footprint upd t r.
Proof.
  intros Hl Hp Hs. unfold footprint. rewrite Hl, Hp, Hs. split_and!;
    [done | by left | by intros g Hg%elem_of_nil].
Qed.

Lemma footprint_start : footprint upd t (exec (start_private upd) t outs).
Proof.
  apply footprint_of_reader; unfold start_private; unfold_run; run_cases.
Qed.

Lemma footprint_status : footprint upd t (exec (status_cmd env upd) t outs).
Proof.
  apply footprint_of_reader; unfold status_cmd; unfold_run; run_cases.
Qed.

Lemma footprint_winners : footprint upd t (exec (winners_cmd upd) t outs).
Proof.
  apply footprint_of_reader; unfold winners_cmd; unfold_run; run_cases.
Qed.

Lemma footprint_precheckout :
  footprint upd t (exec (precheckout_handler upd) t outs).
Proof.
  apply footprint_of_reader; unfold precheckout_handler; unfold_run;
    run_cases.
Qed.

Lemma footprint_reset : footprint upd t (exec (reset_cmd pf upd) t outs).
Proof.
  apply footprint_of_keeper; unfold reset_cmd; unfold_run;
    unfold get_chat_member; unfold_run; run_cases.
Qed.

Lemma footprint_setlimit :
  footprint upd t (exec (setlimit_cmd env pf upd) t outs).
Proof.
  apply footprint_of_keeper; unfold setlimit_cmd, set_max_players_for_chat;
    unfold_run; unfold get_chat_member; unfold_run; run_cases.
Qed.

Lemma footprint_forcestart :
  footprint upd t (exec (forcestart_cmd pf upd) t outs).
Proof.
  destruct (effective_chat upd) as [c|] eqn:Hc;
    [|apply footprint_of_reader; unfold forcestart_cmd; unfold_run;
      by rewrite Hc].
  destruct (in_group c) eqn:Hg;
    [|destruct (guarded_commands_refuse_outside_group env pf upd c t outs
                  Hc Hg) as (_ & _ & _ & ->);
      by apply footprint_of_reader].
  destruct (admin_answer pf) eqn:Ha.
  - rewrite (forcestart_cmd_run pf upd c t outs Hc Hg Ha).
    unfold footprint. simpl. split_and!; [done | by left |].
    intros g Hin. left. exists c. split_and!; [done | done |].
    destruct (hd None outs); [by apply elem_of_nil in Hin|].
    apply list_elem_of_singleton in Hin. congruence.
  - destruct (admin_commands_refused_run env pf upd c t outs Hc Hg Ha)
      as (_ & _ & ->).
    by apply footprint_of_reader.
Qed.

Lemma footprint_payment :
  footprint upd t (exec (successful_payment_handler env upd) t outs).
Proof.
  destruct (matched_record t upd) as [[payload record]|] eqn:Hm;
    [|rewrite (payment_not_matched env upd t outs Hm);
      by apply footprint_of_reader].
  rewrite (payment_matched env upd t outs payload record Hm).
  match goal with |- context [after_registration env record ?r0] =>
    destruct (after_registration_run env record r0
                (dict_set (user_id record)
                   {| username := pending_username record;
                      choice := pending_choice record |}
                   (default [] (players t !! chat_id record))))
      as (Hmem & Hret & Hraise);
    [simpl; apply lookup_insert_eq | reflexivity |];
    set (end_ := after_registration env record r0) in *
  end.
  destruct (matched_record_inv t upd payload record Hm) as (_ & _ & Hrec).
  unfold footprint. rewrite Hmem. simpl. split_and!; [done | |].
  - intros tok rec' [_ Hold]%lookup_delete_Some. by left.
  - intros g Hin. right. exists payload, record. split; [done|].
    destruct (end_.1) as [[]|e] eqn:Hend.
    + specialize (Hret eq_refl). destruct (_ <=? _).
      * destruct Hret as (c & Hint & Hsp). rewrite Hsp in Hin.
        apply list_elem_of_singleton in Hin. congruence.
      * rewrite Hret in Hin. by apply elem_of_nil in Hin.
    + rewrite (Hraise e eq_refl) in Hin. by apply elem_of_nil in Hin.
Qed.
End Footprints.

Section FootprintOfAdmission.
Variable env : settings.
Variable pf : platform.
Variable upd : update.
Variable t : tables.
Variable outs : list (option exn).

(** The admission handler leaves the awaited payments as they were, or with
    one more record, of the group the message came from. *)
Lemma admission_pending :
  let r := exec (handle_group_message env pf upd) t outs in
  last_round (mem r.2) = last_round t ∧ spawned r.2 = [] ∧
  (pending (mem r.2) = pending t ∨
   ∃ c payload record,
     effective_chat upd = Some c ∧ in_group c = true ∧
     (pending (mem r.2) = <[payload := record]> (pending t) ∨
      pending (mem r.2) = delete payload (<[payload := record]> (pending t)))
     ∧ chat_id record = chat_key (chat_ident c)).
Proof.
  cbv zeta. unfold handle_group_message. unfold_run.
  destruct t as [pl pe cf lr]. cbn.
  destruct (effective_chat upd) as [c|] eqn:Hc; cbn; [|by split_and!; try left].
  destruct (in_group c) eqn:Hg; cbn; [|by split_and!; try left].
  destruct (isdigit _); cbn; [|by split_and!; try left].
  destruct (Py.int _) as [n|]; cbn; [|by split_and!; try left].
  destruct (_ || _); cbn; [by split_and!; try left|].
  destruct (user_username (effective_user upd)) as [[|u0 uname]|]; cbn;
    [destruct (hd None outs); by split_and!; try left | |
     destruct (hd None outs); by split_and!; try left].
  destruct (pl !! chat_key (chat_ident c)) as [d|] eqn:Hd; cbn;
    rewrite ?Hd, ?lookup_insert_eq; cbn;
    [destruct (dict_get _ d); cbn;
       [destruct (hd None outs); by split_and!; try left|] |];
    (destruct (hd None outs); cbn;
      [destruct (hd None (tail outs)); cbn|
       destruct (hd None (tail outs)); cbn;
         [destruct (hd None (tail (tail outs))); cbn|]]);
    (split_and!; [done | done |]; right; eexists c, _, _;
     split_and!; [done | done | first [by left | by right] | reflexivity]).
Qed.

Lemma footprint_admission :
  footprint upd t (exec (handle_group_message env pf upd) t outs).
Proof.
  destruct admission_pending as (Hl & Hs & Hp).
  unfold footprint. rewrite Hl, Hs. split_and!; [done | |
    by intros g Hg%elem_of_nil].
  intros tok rec' Hlook.
  destruct Hp as [Hp | (c & payload & record & Hc & Hg & Hp & Hck)].
  - rewrite Hp in Hlook. by left.
  - assert (Hin : <[payload := record]> (pending t) !! tok = Some rec').
    { destruct Hp as [Hp|Hp]; rewrite Hp in Hlook; [done|].
      by apply lookup_delete_Some in Hlook as [_ ?]. }
    apply lookup_insert_Some in Hin as [[_ <-] | [_ Hold]]; [|by left].
    right. by exists c.
Qed.
End FootprintOfAdmission.

(** Every registered handler has the footprint. *)
Lemma handle_footprint env pf h upd t outs :
  footprint upd t (exec (handle env pf h upd) t outs).
Proof.
  destruct h; simpl.
  - apply footprint_start.
  - apply footprint_status.
  - apply footprint_reset.
  - apply footprint_setlimit.
  - apply (footprint_forcestart env).
  - apply footprint_winners.
  - apply footprint_precheckout.
  - apply footprint_payment.
  - apply footprint_admission.
Qed.

(** ** What the process can reach *)

Section Reach.
Variable is_group : Z → bool.
Variable env : settings.

Lemma handler_keeps_groups pf h upd outs p :
  well_formed is_group upd →
  group_keyed is_group (tables_of p) → group_tasks is_group (tasks p) →
  let q := after_handler env pf h upd outs p in
  group_keyed is_group (tables_of q) ∧ group_tasks is_group (tasks q).
Proof.
  intros Hwf [Hlast Hpend] Htasks. cbv zeta. unfold after_handler.
  destruct (handle_footprint env pf h upd (tables_of p) outs)
    as (Hl & Hp & Hs).
  set (r := exec (handle env pf h upd) (tables_of p) outs) in *. simpl.
  split; [split|].
  - intros ck data. rewrite Hl. apply Hlast.
  - intros tok record Hlook.
    destruct (Hp tok record Hlook) as [Hold | (c & Hc & Hg & Hck)];
      [by apply (Hpend tok)|].
    exists (chat_ident c). split; [done|]. by rewrite <- (Hwf c Hc).
  - apply Forall_app. split; [done|]. apply Forall_forall. intros [g] Hin.
    destruct (Hs g Hin) as [(c & Hc & Hg & ->) |
                            (tok & record & Hold & Hint)].
    + by rewrite <- (Hwf c Hc).
    + destruct (Hpend tok record Hold) as (g' & Hck & Hgroup).
      rewrite Hck in Hint. unfold chat_key in Hint.
      by rewrite (int_str_of_int_inv g' g Hint).
Qed.

Lemma task_keeps_groups pf i k outs p :
  tasks p !! i = Some k →
  group_keyed is_group (tables_of p) → group_tasks is_group (tasks p) →
  let q := after_task env pf i k outs p in
  group_keyed is_group (tables_of q) ∧ group_tasks is_group (tasks q).
Proof.
  intros Hk [Hlast Hpend] Htasks. cbv zeta. unfold after_task.
  destruct k as [g].
  assert (Hg : is_group g = true).
  { unfold group_tasks in Htasks. rewrite Forall_lookup in Htasks.
    exact (Htasks i _ Hk). }
  assert (Hrest : group_tasks is_group (delete i (tasks p))).
  { by apply Forall_delete. }
  simpl.
  assert (Hrun :
    let r := exec (execute_round env pf g) (tables_of p) outs in
    spawned r.2 = [] ∧ pending (mem r.2) = pending (tables_of p) ∧
    (last_round (mem r.2) = last_round (tables_of p) ∨
     ∃ data, last_round (mem r.2) =
               <[chat_key g := data]> (last_round (tables_of p)))).
  { cbv zeta. destruct (dice_reply pf) as [e|msg] eqn:Hd.
    - rewrite (execute_round_dice_raises env pf g _ outs e Hd).
      split_and!; [done | done | by left].
    - destruct (hd None outs) as [e|] eqn:Ho.
      + rewrite (execute_round_announce_raises env pf g _ outs msg e Hd Ho).
        split_and!; [done | done | by left].
      + rewrite (execute_round_announced env pf g _ outs msg Hd Ho).
        split_and!; [done | done | right; by eexists]. }
  cbv zeta in Hrun. destruct Hrun as (Hs & Hp & Hl).
  rewrite Hs, app_nil_r. split; [split|done].
  - intros ck data Hlook. destruct Hl as [Hl | [data' Hl]];
      rewrite Hl in Hlook; [by apply (Hlast ck data)|].
    apply lookup_insert_Some in Hlook as [[<- _] | [_ Hold]];
      [by exists g | by apply (Hlast ck data)].
  - intros tok record. rewrite Hp. apply Hpend.
Qed.

(** Whatever the process reaches, its snapshots and awaited payments are
    under keys of groups, and its tasks are rounds of groups. *)
Lemma reachable_keeps_groups p :
  reachable is_group env p →
  group_keyed is_group (tables_of p) ∧ group_tasks is_group (tasks p).
Proof.
  unfold reachable. revert p. apply rtc_ind_r; [|intros p q Hpq Hstep IH].
  - split; [split|]; [intros ck data Hlook | intros tok record Hlook |
                      by apply Forall_nil];
      simpl in Hlook; by apply lookup_empty_Some in Hlook.
  - destruct IH as [Hkeyed Htasks].
    destruct Hstep as [pf h upd outs p Hwf | pf i k outs p Hk | p].
    + by apply handler_keeps_groups.
    + by apply (task_keeps_groups pf i k).
    + split; [|by apply Forall_nil]. by destruct p as [[] ?].
Qed.
End Reach.

(** ** The commands outside a group *)

(** C7.  In every state the process can reach, a command sent outside a
    group or supergroup reports no round data and changes nothing:
    [/winners] answers that there is no information about a last round,
    and [/status], [/reset], [/setlimit] and [/forcestart] answer that
    they work in a group only; no table changes, no file is written and no
    task is created.  ([/winners] has no test of the chat: it finds no
    snapshot, because the program stores snapshots under keys of groups
    only.) *)
Theorem commands_outside_a_group_report_nothing
    (is_group : Z → bool) (env : settings) (pf : platform) (p : process)
    (upd : update) (c : chat) (outs : list (option exn)) :
  reachable is_group env p →
  well_formed is_group upd →
  effective_chat upd = Some c →
  in_group c = false →
  let t := tables_of p in
  exec (winners_cmd upd) t outs = just_replied MsgNoLastRound t outs ∧
  exec (status_cmd env upd) t outs =
    just_replied (MsgGroupOnly CmdStatus) t outs ∧
  exec (reset_cmd pf upd) t outs =
    just_replied (MsgGroupOnly CmdReset) t outs ∧
  exec (setlimit_cmd env pf upd) t outs =
    just_replied (MsgGroupOnly CmdSetlimit) t outs ∧
  exec (forcestart_cmd pf upd) t outs =
    just_replied (MsgGroupOnly CmdForcestart) t outs.
Proof.
  intros Hreach Hwf Hc Hg. cbv zeta.
  destruct (reachable_keeps_groups is_group env p Hreach) as [[Hlast _] _].
  split;
    [|exact (guarded_commands_refuse_outside_group env pf upd c (tables_of p)
               outs Hc Hg)].
  rewrite (winners_cmd_run upd c (tables_of p) outs Hc).
  destruct (last_round (tables_of p) !! chat_key (chat_ident c))
    as [data|] eqn:Hlook; [exfalso | reflexivity].
  destruct (Hlast _ data Hlook) as (g & Hkey & Hgroup).
  apply str_of_int_inj in Hkey. subst g.
  rewrite <- (Hwf c Hc), Hg in Hgroup. discriminate.
Qed.

(** C7 on the fixtures.  After a forced round the group has a snapshot;
    Ann sends [/winners] in her private chat and is told that there is no
    information. *)
Lemma commands_outside_a_group_witness :
  let upd := Scene.commands Scene.ann (Scene.private_of Scene.ann) [] in
  let t := tables_of Scene.forced_round in
  reachable Scene.is_group Scene.env Scene.forced_round ∧
  last_round t !! Scene.gk = Some {| result := 4; winners := [] |} ∧
  exec (winners_cmd upd) t [] = just_replied MsgNoLastRound t [].
Proof.
  cbv zeta.
  assert (Hreach : reachable Scene.is_group Scene.env Scene.forced_round).
  { apply (rtc_l _ _ Scene.forced).
    - apply step_handler. intros c [= <-]. reflexivity.
    - apply rtc_once. apply step_task. reflexivity. }
  split_and!; [exact Hreach | vm_compute; reflexivity |].
  apply (commands_outside_a_group_report_nothing Scene.is_group Scene.env
           Scene.calm Scene.forced_round
           (Scene.commands Scene.ann (Scene.private_of Scene.ann) [])
           (Scene.private_of Scene.ann) [] Hreach).
  - intros c [= <-]. reflexivity.
  - reflexivity.
  - reflexivity.
Defined.

(** ** The threshold and the other chats *)

(** C3 fails as stated.  The limit of a group with two entries is lowered
    to 1, which starts nothing; a payment is then reconciled for another
    group and starts nothing either: right after this reconciliation the
    first group has two entries and a threshold of 1. *)
Lemma lowered_limit_leaves_count_above_threshold :
  let before := Scene.bob_entered_elsewhere in
  let upd := Scene.pays Scene.bob Scene.token in
  let r := exec (successful_payment_handler Scene.env upd)
             (tables_of before) [] in
  reachable Scene.is_group Scene.env before ∧
  (∃ record, matched_record (tables_of before) upd
             = Some (Scene.token, record) ∧
             chat_id record = chat_key (chat_ident Scene.other_group)) ∧
  r.1 = Ret () ∧ spawned r.2 = [] ∧
  count (mem r.2) Scene.gk = 2%nat ∧
  get_max_players_for_chat Scene.env (mem r.2) Scene.gk = 1.
Proof.
  cbv zeta. split_and!.
  - apply (rtc_l _ _ Scene.ann_entered);
      [apply step_handler; intros c [= <-]; reflexivity|].
    apply (rtc_l _ _ Scene.ann_paid);
      [apply step_handler; intros c [= <-]; reflexivity|].
    apply (rtc_l _ _ Scene.bob_entered);
      [apply step_handler; intros c [= <-]; reflexivity|].
    apply (rtc_l _ _ Scene.bob_paid);
      [apply step_handler; intros c [= <-]; reflexivity|].
    apply (rtc_l _ _ Scene.limit_lowered);
      [apply step_handler; intros c [= <-]; reflexivity|].
    apply rtc_once. apply step_handler. intros c [= <-]. reflexivity.
  - eexists. split; vm_compute; reflexivity.
  - vm_compute. reflexivity.
  - vm_compute. reflexivity.
  - vm_compute. reflexivity.
  - vm_compute. reflexivity.
Qed.

(** X22.  The threshold check is skipped when the reply to the payer
    raises.  A reconciliation that matched a record registers the payer
    and saves the tables; when the reply that confirms the payment to the
    payer then raises, the handler ends with that exception: the group is
    not notified and no round is scheduled, also when the count has reached
    the threshold. *)
Theorem threshold_check_is_skipped_when_reply_raises
    (env : settings) (upd : update) (t : tables) (outs : list (option exn))
    (payload : str) (record : pending_record) (e : exn) :
  matched_record t upd = Some (payload, record) →
  hd None outs = Some e →
  let r := exec (successful_payment_handler env upd) t outs in
  r.1 = Raise e ∧
  mem r.2 = registered payload record t ∧
  spawned r.2 = [] ∧
  trace r.2 =
    saved_all (with_pending (delete payload) t)
    ++ saved_all (registered payload record t)
    ++ [Call (ReplyText (MsgPaymentAccepted (pending_choice record)))
          (Some e)].
Proof.
  intros Hm Ho. cbv zeta.
  rewrite (payment_matched env upd t outs payload record Hm).
  unfold after_registration. unfold_run. cbn. rewrite Ho. cbn.
  by split_and!.
Qed.

(** X22 on the fixtures.  Bob's payment makes two entries in a group
    limited to two, and the reply to him raises: no round is scheduled. *)
Lemma threshold_check_skipped_witness :
  let upd := Scene.pays Scene.bob Scene.token in
  let r := exec (successful_payment_handler Scene.env upd)
             Scene.bob_pending_limit_two [Some TelegramError] in
  r.1 = Raise TelegramError ∧ spawned r.2 = [] ∧
  count (mem r.2) Scene.gk = 2%nat ∧
  get_max_players_for_chat Scene.env (mem r.2) Scene.gk = 2.
Proof.
  cbv zeta.
  destruct (threshold_check_is_skipped_when_reply_raises Scene.env
              (Scene.pays Scene.bob Scene.token) Scene.bob_pending_limit_two
              [Some TelegramError] Scene.token (Scene.bob_record 2)
              TelegramError eq_refl eq_refl) as (Hret & Hmem & Hsp & _).
  split_and!; [exact Hret | exact Hsp | |]; rewrite Hmem;
    vm_compute; reflexivity.
Defined.
